(** * data-parser: the reconciliation engine, embedded and verified

    A shallow embedding of the comparison engine of the product data parser
    ([comparator.py], [name_parser.py], [grid_view.py], with the cleaning
    functions of [loaders.py] and the escaping of [report_html.py])
    together with the properties its design document states about it and
    further properties of the code.

    Conventions of the embedding.
    - A Python [str] is a [string]: the UTF-8 bytes of the text.  Byte-wise
      lexicographic order on UTF-8 is code-point order, so [sorted] on
      strings is the order used here.  Character classes ([\s], [\d], [\w]),
      [str.strip], [str.lower] and [str.upper] are the ASCII ones; a code
      point outside ASCII is carried through unchanged, and the typographic
      glyphs the source names are written as their UTF-8 encodings.  These
      are Python's functions on plain text, [Py.plain]: ASCII with the
      punctuation and currency signs that Python treats as neither white
      space, digit nor letter.  On other text (a no-break space, a
      full-width digit, an accented letter) Python's Unicode classes and
      case mappings differ from the ASCII ones, and a property that reads
      such text through them is stated for plain text.
    - A Python [float] is an IEEE-754 binary64 number, a [spec_float] at
      precision 53; arithmetic is the correctly rounded one of [SpecFloat].
    - A [dict] with string keys is a [gmap string _]; where the source
      depends on insertion order (the mapping of sources, the per-source
      values of one comparison) it is an association list.
    - [pandas] frames are lists of records, a missing cell is [None]
      (the object columns of pandas 2, where the merged frame holds
      [None] for a missing text cell, which Python treats as false). *)

From Stdlib Require Import ZArith Ascii String List Bool Lia.
From Stdlib Require Import Floats.SpecFloat.
From stdpp Require Import gmap strings list sorting.

Open Scope string_scope.

(** ** Characters and the string methods the source uses *)

Module Py.

Definition dq : ascii := "034"%char.
Definition sq : ascii := "039"%char.
Definition bs : ascii := "092"%char.
Definition comma : ascii := ","%char.
Definition slash : ascii := "/"%char.

Definition chr (c : ascii) : string := String c "".

Definition utf8_3 (a b c : nat) : string :=
  String (ascii_of_nat a) (String (ascii_of_nat b) (String (ascii_of_nat c) "")).

(** U+201C, U+201D, U+2033: left and right double quotation mark, double prime. *)
Definition u201c : string := Eval cbv in utf8_3 226 128 156.
Definition u201d : string := Eval cbv in utf8_3 226 128 157.
Definition u2033 : string := Eval cbv in utf8_3 226 128 179.
(** U+2018, U+2019, U+2032: single quotation marks, prime. *)
Definition u2018 : string := Eval cbv in utf8_3 226 128 152.
Definition u2019 : string := Eval cbv in utf8_3 226 128 153.
Definition u2032 : string := Eval cbv in utf8_3 226 128 178.
(** U+2013, U+2014: en dash, em dash. *)
Definition u2013 : string := Eval cbv in utf8_3 226 128 147.
Definition u2014 : string := Eval cbv in utf8_3 226 128 148.

Definition in_range (lo hi : nat) (c : ascii) : bool :=
  let n := nat_of_ascii c in (lo <=? n)%nat && (n <=? hi)%nat.

(** [str.isspace] and the class [\s], restricted to ASCII: TAB..CR,
    FS..US and the space.  Python's own class also holds the white space
    beyond ASCII (U+0085, U+00A0, U+1680, U+2000..U+200A, U+2028, U+2029,
    U+202F, U+205F, U+3000); none of it occurs in plain text ([plain]
    below). *)
Definition is_space (c : ascii) : bool := in_range 9 13 c || in_range 28 32 c.
(** The class [\d] and the digits [float] reads, restricted to ASCII:
    [0]..[9].  Python's own class also holds the decimal digits of other
    scripts (full-width, Arabic-Indic, ...); none occurs in plain text. *)
Definition is_digit (c : ascii) : bool := in_range 48 57 c.
Definition is_upper (c : ascii) : bool := in_range 65 90 c.
Definition is_alpha (c : ascii) : bool := in_range 65 90 c || in_range 97 122 c.
(** The class [\w]. *)
Definition is_word (c : ascii) : bool :=
  is_alpha c || is_digit c || Ascii.eqb c "_"%char.

Definition lower_char (c : ascii) : ascii :=
  if is_upper c then ascii_of_nat (nat_of_ascii c + 32) else c.

(** [s.lower()], on the ASCII letters: Python's [str.lower] on plain text,
    which has no cased character beyond ASCII. *)
Fixpoint lower (s : string) : string :=
  match s with
  | "" => ""
  | String c t => String (lower_char c) (lower t)
  end.

Fixpoint lstrip_with (p : ascii -> bool) (s : string) : string :=
  match s with
  | "" => ""
  | String c t => if p c then lstrip_with p t else s
  end.

Fixpoint rstrip_with (p : ascii -> bool) (s : string) : string :=
  match s with
  | "" => ""
  | String c t =>
      match rstrip_with p t with
      | "" => if p c then "" else String c ""
      | t' => String c t'
      end
  end.

(** [s.strip()], of the ASCII white space: Python's [str.strip] on text
    whose white space is ASCII, as in plain text. *)
Definition strip (s : string) : string := rstrip_with is_space (lstrip_with is_space s).

(** [s.rstrip(c)] for a one-character argument. *)
Definition rstrip_char (c : ascii) (s : string) : string := rstrip_with (Ascii.eqb c) s.

Fixpoint starts_with (p s : string) : bool :=
  match p, s with
  | "", _ => true
  | String a p', String b s' => Ascii.eqb a b && starts_with p' s'
  | String _ _, "" => false
  end.

(** [sub in s] *)
Fixpoint contains (sub s : string) : bool :=
  starts_with sub s ||
  match s with
  | "" => false
  | String _ t => contains sub t
  end.

(** [s.endswith(suffix)] *)
Fixpoint ends_with (suffix s : string) : bool :=
  String.eqb s suffix ||
  match s with
  | "" => false
  | String _ t => ends_with suffix t
  end.

(** [s.replace(old, new)] for a non-empty [old]: occurrences are replaced
    from the left and do not overlap.  [skip] counts the characters of an
    occurrence still to be dropped. *)
Fixpoint replace_from (old new s : string) (skip : nat) : string :=
  match s with
  | "" => ""
  | String c t =>
      match skip with
      | S k => replace_from old new t k
      | O =>
          if starts_with old s
          then new +:+ replace_from old new t (String.length old - 1)
          else String c (replace_from old new t 0)
      end
  end.

Definition replace (old new s : string) : string := replace_from old new s 0.

(** [s.split(sep)] for a one-character separator: the pieces in order,
    always at least one. *)
Fixpoint split_char (sep : ascii) (s : string) : list string :=
  match s with
  | "" => [""]
  | String c t =>
      if Ascii.eqb c sep then "" :: split_char sep t
      else match split_char sep t with
           | [] => [String c ""]
           | p :: ps => String c p :: ps
           end
  end.

(** [sep.join(parts)] *)
Fixpoint join (sep : string) (parts : list string) : string :=
  match parts with
  | [] => ""
  | [p] => p
  | p :: ps => p +:+ sep +:+ join sep ps
  end.

(** [s[:n]] *)
Fixpoint take_str (n : nat) (s : string) : string :=
  match n, s with
  | S k, String c t => String c (take_str k t)
  | _, _ => ""
  end.

(** The string without the character [c]: what [s.replace(c, empty)]
    comes to. *)
Fixpoint remove_char (c : ascii) (s : string) : string :=
  match s with
  | "" => ""
  | String x t => if Ascii.eqb c x then remove_char c t else String x (remove_char c t)
  end.

(** Truthiness of a string: [if s] *)
Definition truthy (s : string) : bool :=
  match s with "" => false | _ => true end.

Definition upper_char (c : ascii) : ascii :=
  if in_range 97 122 c then ascii_of_nat (nat_of_ascii c - 32) else c.

(** [s.upper()], on the ASCII letters: Python's [str.upper] on plain text. *)
Fixpoint upper (s : string) : string :=
  match s with
  | "" => ""
  | String c t => String (upper_char c) (upper t)
  end.

(** The characters of [s] that satisfy [p], in order. *)
Fixpoint keep_chars (p : ascii -> bool) (s : string) : string :=
  match s with
  | "" => ""
  | String c t => if p c then String c (keep_chars p t) else keep_chars p t
  end.

(** A byte that continues a UTF-8 sequence: [10xxxxxx]. *)
Definition is_continuation (c : ascii) : bool := in_range 128 191 c.

(** [s[:n]], counted in characters: the first [n] leading bytes, each with
    the continuation bytes that follow it. *)
Fixpoint take_chars (n : nat) (s : string) : string :=
  match s with
  | "" => ""
  | String c t =>
      if is_continuation c then String c (take_chars n t)
      else match n with
           | O => ""
           | S k => String c (take_chars k t)
           end
  end.

(** U+00B3, the superscript three. *)
Definition u00b3 : string :=
  Eval cbv in String (ascii_of_nat 194) (String (ascii_of_nat 179) "").

(** [all(p(c) for c in s)] *)
Fixpoint all_chars (p : ascii -> bool) (s : string) : bool :=
  match s with
  | "" => true
  | String c t => p c && all_chars p t
  end.

(** [s[n:]] *)
Fixpoint drop_str (n : nat) (s : string) : string :=
  match n, s with
  | S k, String _ t => drop_str k t
  | _, _ => s
  end.

(** The longest prefix of [s] whose characters satisfy [p], and what is
    left of [s] once the longest prefix of characters that do not satisfy
    [p] is dropped. *)
Fixpoint take_while (p : ascii -> bool) (s : string) : string :=
  match s with
  | "" => ""
  | String c t => if p c then String c (take_while p t) else ""
  end.

Fixpoint drop_until (p : ascii -> bool) (s : string) : string :=
  match s with
  | "" => ""
  | String c t => if p c then s else drop_until p t
  end.

(** The first run of characters that satisfy [p]. *)
Definition first_run (p : ascii -> bool) (s : string) : string :=
  take_while p (drop_until p s).

(** Plain text: every character is an ASCII one, or one of the Latin-1
    signs of [latin1_sign] (inverted marks, currency signs, section,
    copyright, registered and degree signs, plus-minus, guillemets,
    multiplication and division signs), or a punctuation mark of
    U+2010..U+2027 or U+2030..U+205E (hyphens and dashes, quotation marks,
    primes, bullets; the typographic glyphs the patterns of the source name
    are among them), or a currency sign of U+20A0..U+20BF.  None of the
    characters beyond ASCII is white space, a digit, a letter or a cased
    character for Python, so on plain text [str.strip], [str.lower],
    [str.upper], [float] and the classes [\s], [\d], [\w] are the
    functions of this module.  The text is read as UTF-8: the Latin-1 signs
    are two bytes from [C2] or [C3], the other ranges are the sequences
    [E2 80 90..A7], [E2 80 B0..BF], [E2 81 80..9E] and [E2 82 A0..BF]. *)
Definition latin1_sign (b0 b1 : ascii) : bool :=
  let x := nat_of_ascii b0 in
  let y := nat_of_ascii b1 in
  ((x =? 194)%nat
   && (((161 <=? y) && (y <=? 169)) || ((171 <=? y) && (y <=? 177))
       || (y =? 180) || ((182 <=? y) && (y <=? 184)) || (y =? 187) || (y =? 191))%nat)
  || ((x =? 195)%nat && ((y =? 151) || (y =? 183))%nat).

Definition plain_mark (b1 b2 : ascii) : bool :=
  let x := nat_of_ascii b1 in
  let y := nat_of_ascii b2 in
  ((x =? 128)%nat && (((144 <=? y) && (y <=? 167)) || ((176 <=? y) && (y <=? 191)))%nat)
  || ((x =? 129)%nat && ((128 <=? y) && (y <=? 158))%nat)
  || ((x =? 130)%nat && ((160 <=? y) && (y <=? 191))%nat).

Fixpoint plain (s : string) : bool :=
  match s with
  | "" => true
  | String c t =>
      if (nat_of_ascii c <? 128)%nat then plain t
      else
        match t with
        | String b1 t1 =>
            if latin1_sign c b1 then plain t1
            else if (nat_of_ascii c =? 226)%nat then
              match t1 with
              | String b2 t2 => plain_mark b1 b2 && plain t2
              | "" => false
              end
            else false
        | "" => false
        end
  end.

End Py.


(** ** Python dictionaries with string keys

    A [dict] keeps its keys in insertion order; storing under a key that
    is present overwrites the value in place. *)

Module Dict.

Definition dict (V : Type) : Type := list (string * V).

Fixpoint get {V} (k : string) (d : dict V) : option V :=
  match d with
  | [] => None
  | (k', v) :: d' => if String.eqb k' k then Some v else get k d'
  end.

(** [d[k] = v] *)
Fixpoint set {V} (k : string) (v : V) (d : dict V) : dict V :=
  match d with
  | [] => [(k, v)]
  | (k', v') :: d' =>
      if String.eqb k' k then (k, v) :: d' else (k', v') :: set k v d'
  end.

(** [k in d] *)
Definition has {V} (k : string) (d : dict V) : bool :=
  match get k d with Some _ => true | None => false end.

Definition keys {V} (d : dict V) : list string := map fst d.
Definition values {V} (d : dict V) : list V := map snd d.

End Dict.

(** ** Regular expressions

    The patterns of the source are written in this syntax and run by a
    backtracking matcher with the priorities of Python's [re]: an
    alternation tries its branches from the left, a repetition is greedy,
    and the first complete match found in that order is the match. *)

Module Re.

Inductive re : Type :=
| Eps                          (* the empty pattern *)
| Chr (p : ascii -> bool)      (* one character of a class *)
| Seq (a b : re)
| Alt (a b : re)               (* a|b *)
| Star (a : re)                (* a*, greedy *)
| Grp (n : nat) (a : re)       (* capturing group number n *)
| Bol                          (* ^ *)
| Eol.                         (* $ *)

Definition Opt (a : re) : re := Alt a Eps.        (* a? *)
Definition Plus (a : re) : re := Seq a (Star a).  (* a+ *)

Definition one (c : ascii) : re := Chr (Ascii.eqb c).
(** A character matched without regard to case, as under [(?i)]. *)
Definition ione (c : ascii) : re :=
  Chr (fun x => Ascii.eqb (Py.lower_char x) (Py.lower_char c)).
(** One of the characters of [cs]: a class [[...]]. *)
Definition oneof (cs : string) : re := Chr (fun x => Py.contains (Py.chr x) cs).
(** Any character but a newline: [.] *)
Definition any : re := Chr (fun x => negb (Ascii.eqb x "010"%char)).

Fixpoint lit (s : string) : re :=
  match s with
  | "" => Eps
  | String c t => Seq (one c) (lit t)
  end.

Fixpoint ilit (s : string) : re :=
  match s with
  | "" => Eps
  | String c t => Seq (ione c) (ilit t)
  end.

Fixpoint seqs (rs : list re) : re :=
  match rs with
  | [] => Eps
  | [r] => r
  | r :: rs' => Seq r (seqs rs')
  end.

Fixpoint alts (rs : list re) : re :=
  match rs with
  | [] => Chr (fun _ => false)
  | [r] => r
  | r :: rs' => Alt r (alts rs')
  end.

Definition ws : re := Chr Py.is_space.      (* \s *)
Definition digit : re := Chr Py.is_digit.   (* \d *)
Definition word : re := Chr Py.is_word.     (* \w *)

(** The matcher's state: the offset in the subject, what is left of it, and
    the groups captured so far (the latest capture of a group first). *)
Record mstate : Type := MState {
  m_pos : nat;
  m_rest : string;
  m_caps : list (nat * string)
}.

Definition advance (st : mstate) (t : string) : mstate :=
  MState (S (m_pos st)) t (m_caps st).

Definition capture (n : nat) (from to : mstate) : mstate :=
  MState (m_pos to) (m_rest to)
         ((n, Py.take_str (m_pos to - m_pos from) (m_rest from)) :: m_caps to).

Definition at_eol (s : string) : bool :=
  match s with
  | "" => true
  | String c "" => Ascii.eqb c "010"%char
  | _ => false
  end.

Definition orelse {A} (x : option A) (y : option A) : option A :=
  match x with Some _ => x | None => y end.

(** [run r k st]: match [r] at [st], then continue with [k]; [None] makes
    the matcher backtrack.  A repetition runs at most once per remaining
    character: an iteration that consumes nothing is refused. *)
Fixpoint run {A} (r : re) (k : mstate -> option A) (st : mstate) : option A :=
  match r with
  | Eps => k st
  | Chr p =>
      match m_rest st with
      | String c t => if p c then k (advance st t) else None
      | "" => None
      end
  | Seq a b => run a (run b k) st
  | Alt a b => orelse (run a k st) (run b k st)
  | Star a =>
      (fix loop (fuel : nat) (st : mstate) : option A :=
         match fuel with
         | O => k st
         | S fuel' =>
             orelse
               (run a (fun st' => if (m_pos st <? m_pos st')%nat
                                  then loop fuel' st' else None) st)
               (k st)
         end) (String.length (m_rest st)) st
  | Grp n a => run a (fun st' => k (capture n st st')) st
  | Bol => if (m_pos st =? 0)%nat then k st else None
  | Eol => if at_eol (m_rest st) then k st else None
  end.

(** [m.group(n)]; [None] when the group took no part in the match. *)
Fixpoint group (n : nat) (caps : list (nat * string)) : option string :=
  match caps with
  | [] => None
  | (i, s) :: caps' => if (i =? n)%nat then Some s else group n caps'
  end.

Definition try_at (r : re) (pos : nat) (s : string) : option mstate :=
  run r Some (MState pos s []).

(** [re.match(r, s)] *)
Definition rmatch (r : re) (s : string) : option mstate := try_at r 0 s.

(** [re.search(r, s)]: the match at the leftmost offset that has one,
    paired with that offset and the subject from there on. *)
Fixpoint search_from (r : re) (pos : nat) (s : string) : option (nat * string * mstate) :=
  match try_at r pos s with
  | Some st => Some (pos, s, st)
  | None =>
      match s with
      | "" => None
      | String _ t => search_from r (S pos) t
      end
  end.

Definition search (r : re) (s : string) : option mstate :=
  option_map snd (search_from r 0 s).

Definition found (r : re) (s : string) : bool :=
  match search r s with Some _ => true | None => false end.

(** [m.group(0)] of a match that started at [pos] on [s]. *)
Definition matched (pos : nat) (s : string) (st : mstate) : string :=
  Py.take_str (m_pos st - pos) s.

(** [re.sub(r, repl, s)]: the non-overlapping matches from the left, each
    replaced by [repl] of its groups; after an empty match one character
    is copied. *)
Fixpoint sub_from (r : re) (repl : list (nat * string) -> string)
    (pos : nat) (s : string) (skip : nat) : string :=
  match skip with
  | S k =>
      match s with
      | "" => ""
      | String _ t => sub_from r repl (S pos) t k
      end
  | O =>
      match try_at r pos s with
      | Some st =>
          repl (m_caps st) +:+
          match s with
          | "" => ""
          | String c t =>
              match (m_pos st - pos)%nat with
              | O => String c (sub_from r repl (S pos) t 0)
              | S k => sub_from r repl (S pos) t k
              end
          end
      | None =>
          match s with
          | "" => ""
          | String c t => String c (sub_from r repl (S pos) t 0)
          end
      end
  end.

Definition sub (r : re) (repl : list (nat * string) -> string) (s : string) : string :=
  sub_from r repl 0 s 0.

(** Every match of [r] is not empty, lies within the subject, and its
    replacement is not longer than it. *)
Definition shrinking (r : re) (repl : list (nat * string) -> string) : Prop :=
  forall pos s st, try_at r pos s = Some st ->
    (pos < m_pos st)%nat /\ (m_pos st - pos <= String.length s)%nat /\
    (String.length (repl (m_caps st)) <= m_pos st - pos)%nat.

(** At [s] the pattern has a match whose replacement is shorter than it. *)
Definition shortens (r : re) (repl : list (nat * string) -> string) (s : string) : Prop :=
  forall pos, exists st, try_at r pos s = Some st /\
    (String.length (repl (m_caps st)) < m_pos st - pos)%nat.

(** [re.findall(r, s)] for a pattern without groups: the matched texts. *)
Fixpoint findall_from (r : re) (pos : nat) (s : string) (skip : nat) : list string :=
  match skip with
  | S k =>
      match s with
      | "" => []
      | String _ t => findall_from r (S pos) t k
      end
  | O =>
      match try_at r pos s with
      | Some st =>
          matched pos s st ::
          match s with
          | "" => []
          | String _ t => findall_from r (S pos) t (m_pos st - pos - 1)
          end
      | None =>
          match s with
          | "" => []
          | String _ t => findall_from r (S pos) t 0
          end
      end
  end.

Definition findall (r : re) (s : string) : list string := findall_from r 0 s 0.

(** What a pattern denotes: [lang r st st'] when [r] can take the matcher
    from [st] to [st']. *)
Fixpoint lang (r : re) (st st' : mstate) : Prop :=
  match r with
  | Eps => st' = st
  | Chr p => exists c, m_rest st = String c (m_rest st') /\ p c = true /\
                       st' = advance st (m_rest st')
  | Seq a b => exists mid, lang a st mid /\ lang b mid st'
  | Alt a b => lang a st st' \/ lang b st st'
  | Star a => rtc (lang a) st st'
  | Grp n a => exists mid, lang a st mid /\ st' = capture n st mid
  | Bol => m_pos st = 0%nat /\ st' = st
  | Eol => at_eol (m_rest st) = true /\ st' = st
  end.

(** The pattern has no capturing group. *)
Fixpoint no_group (r : re) : bool :=
  match r with
  | Seq a b | Alt a b => no_group a && no_group b
  | Star a => no_group a
  | Grp _ _ => false
  | _ => true
  end.

(** Every repetition of the pattern is over a character class, as in all
    the patterns of the source. *)
Fixpoint class_stars (r : re) : bool :=
  match r with
  | Seq a b | Alt a b => class_stars a && class_stars b
  | Star (Chr _) => true
  | Star _ => false
  | Grp _ a => class_stars a
  | _ => true
  end.

End Re.

(** ** Floating point: binary64 as [spec_float] *)

Module Fl.

Definition prec : Z := 53.
Definition emax : Z := 1024.

Abbreviation float := spec_float.

Definition add : float -> float -> float := SFadd prec emax.
Definition sub : float -> float -> float := SFsub prec emax.
Definition mul : float -> float -> float := SFmul prec emax.
Definition div : float -> float -> float := SFdiv prec emax.
Definition abs : float -> float := SFabs.
Definition ltb : float -> float -> bool := SFltb.
Definition leb : float -> float -> bool := SFleb.
Definition eqb : float -> float -> bool := SFeqb.
(** [x > y] is [y < x]. *)
Definition gtb (x y : float) : bool := SFltb y x.

Definition is_nan (x : float) : bool :=
  match x with S754_nan => true | _ => false end.

(** [bool(x)]: a float is false exactly when it is a zero. *)
Definition truthy (x : float) : bool :=
  match x with S754_zero _ => false | _ => true end.

Definition unrounded (n : Z) : float :=
  match n with
  | Z0 => S754_zero false
  | Zpos p => S754_finite false p 0
  | Zneg p => S754_finite true p 0
  end.

(** The float nearest to [n / d] for [d > 0] (ties to even): one correctly
    rounded division of the two integers. *)
Definition of_ratio (n d : Z) : float := div (unrounded n) (unrounded d).

(** The decimal literal [digits * 10^-k], as Python reads it. *)
Definition of_decimal (digits : Z) (k : nat) : float := of_ratio digits (10 ^ Z.of_nat k).

Definition of_Z (n : Z) : float := of_ratio n 1.

(** The integer nearest to [n / d] for [d > 0], ties to the even one. *)
Definition round_half_even (n d : Z) : Z :=
  let q := (n / d)%Z in
  let r := (n mod d)%Z in
  match (2 * r ?= d)%Z with
  | Lt => q
  | Gt => (q + 1)%Z
  | Eq => if Z.even q then q else (q + 1)%Z
  end.

(** [round(x, 2)]: the exact value of [x] rounded to two decimals (ties to
    even), then the float nearest to that decimal.  Zeros, infinities and
    NaN are returned as they are. *)
Definition round2 (x : float) : float :=
  match x with
  | S754_finite s m e =>
      let n := match e with
               | Zneg p => round_half_even (Zpos m * 100) (2 ^ Zpos p)
               | _ => (Zpos m * 100 * 2 ^ e)%Z
               end in
      match n with
      | Zpos p => div (S754_finite s p 0) (unrounded 100)
      | _ => S754_zero s
      end
  | _ => x
  end.

Fixpoint digits_value (acc : Z) (s : string) : Z :=
  match s with
  | "" => acc
  | String c t => digits_value (10 * acc + Z.of_nat (nat_of_ascii c - 48)) t
  end.

Fixpoint all_digits (s : string) : bool :=
  match s with
  | "" => true
  | String c t => Py.is_digit c && all_digits t
  end.

(** [float(tok)] for a token of digits and dots: a value when the token has
    at least one digit and at most one dot, [None] where Python raises
    [ValueError]. *)
Definition of_token (tok : string) : option float :=
  match Py.split_char "." tok with
  | [ip] =>
      if all_digits ip && Py.truthy ip
      then Some (of_decimal (digits_value 0 ip) 0) else None
  | [ip; fp] =>
      if all_digits ip && all_digits fp && Py.truthy (ip +:+ fp)
      then Some (of_decimal (digits_value 0 (ip +:+ fp)) (String.length fp))
      else None
  | _ => None
  end.

(** [max] and [min] over a first element and the rest: the running value
    is replaced by a later element that exceeds (resp. undercuts) it. *)
Definition py_max (x : float) (l : list float) : float :=
  fold_left (fun m y => if gtb y m then y else m) l x.
Definition py_min (x : float) (l : list float) : float :=
  fold_left (fun m y => if ltb y m then y else m) l x.

(** [max(l)] and [min(l)].  Python raises on an empty list; the callers
    take them of lists of two elements or more. *)
Definition max_of (l : list float) : float :=
  match l with [] => S754_nan | x :: rest => py_max x rest end.
Definition min_of (l : list float) : float :=
  match l with [] => S754_nan | x :: rest => py_min x rest end.

(** A number: a zero or a finite non-zero value. *)
Definition is_finite (x : float) : bool :=
  match x with S754_zero _ | S754_finite _ _ _ => true | _ => false end.

(** The sign bit of a float; NaN has none. *)
Definition sign (x : float) : option bool :=
  match x with
  | S754_zero s | S754_infinity s | S754_finite s _ _ => Some s
  | S754_nan => None
  end.

(** The place of a float that is not NaN in the order of [SFcompare]:
    the class of its sign, then its exponent, then its mantissa, compared
    in that order. *)
Definition key (x : float) : Z * Z * Z :=
  match x with
  | S754_zero _ => (0, 0, 0)
  | S754_infinity false => (2, 0, 0)
  | S754_infinity true => (-2, 0, 0)
  | S754_nan => (0, 0, 0)
  | S754_finite false m e => (1, e, Zpos m)
  | S754_finite true m e => (-1, - e, Zneg m)
  end%Z.

Definition key_cmp (a b : Z * Z * Z) : comparison :=
  match (a.1.1 ?= b.1.1)%Z with
  | Eq => match (a.1.2 ?= b.1.2)%Z with
          | Eq => (a.2 ?= b.2)%Z
          | c => c
          end
  | c => c
  end.

Definition key_le (a b : Z * Z * Z) : Prop :=
  (a.1.1 < b.1.1 \/ (a.1.1 = b.1.1 /\ (a.1.2 < b.1.2 \/ (a.1.2 = b.1.2 /\ a.2 <= b.2))))%Z.
Definition key_lt (a b : Z * Z * Z) : Prop :=
  (a.1.1 < b.1.1 \/ (a.1.1 = b.1.1 /\ (a.1.2 < b.1.2 \/ (a.1.2 = b.1.2 /\ a.2 < b.2))))%Z.

End Fl.

(** ** [name_parser.py]: value normalisation and the equivalence resolver *)

Module NameParser.
Import Re.

(** [\s*(mm|tons?|lbs?|in|inches|Q)\s*$], where [Q] is the double quote *)
Definition trailing_unit_re : re :=
  seqs [Star ws;
        Grp 1 (alts [lit "mm";
                     Seq (lit "ton") (Opt (one "s"));
                     Seq (lit "lb") (Opt (one "s"));
                     lit "in";
                     lit "inches";
                     one Py.dq]);
        Star ws;
        Eol].

(** [(\d)\s*mm], replaced by [\1mm] *)
Definition digit_mm_re : re := seqs [Grp 1 digit; Star ws; lit "mm"].
Definition digit_mm_repl (caps : list (nat * string)) : string :=
  default "" (group 1 caps) +:+ "mm".

(** [\s+] *)
Definition spaces_re : re := Plus ws.

(** [_normalize_value(val)] *)
Definition _normalize_value (val : string) : string :=
  if negb (Py.truthy val) then "" else
  let s := Py.lower (Py.strip val) in
  (* smart quotes and primes *)
  let s := Py.replace Py.u2033 (Py.chr Py.dq)
             (Py.replace Py.u201d (Py.chr Py.dq)
                (Py.replace Py.u201c (Py.chr Py.dq) s)) in
  let s := Py.replace Py.u2032 (Py.chr Py.sq)
             (Py.replace Py.u2019 (Py.chr Py.sq)
                (Py.replace Py.u2018 (Py.chr Py.sq) s)) in
  (* dashes *)
  let s := Py.replace Py.u2014 "-" (Py.replace Py.u2013 "-" s) in
  (* trailing units *)
  let s := sub trailing_unit_re (fun _ => "") s in
  (* spaces around mm *)
  let s := sub digit_mm_re digit_mm_repl s in
  let s := sub spaces_re (fun _ => " ") s in
  (* escaped commas *)
  let s := Py.replace (String Py.bs ",") "," s in
  let s := Py.replace (Py.chr Py.sq) ""
             (Py.replace (Py.chr Py.dq) "" (Py.replace "," "" s)) in
  Py.rstrip_char Py.slash s.

(** The two phases of [_normalize_value], for the statements about it: the
    steps up to the whitespace collapse, and the removal of commas, quotes
    and a trailing slash. *)
Definition normalize_front (val : string) : string :=
  let s := Py.lower (Py.strip val) in
  let s := Py.replace Py.u2033 (Py.chr Py.dq)
             (Py.replace Py.u201d (Py.chr Py.dq)
                (Py.replace Py.u201c (Py.chr Py.dq) s)) in
  let s := Py.replace Py.u2032 (Py.chr Py.sq)
             (Py.replace Py.u2019 (Py.chr Py.sq)
                (Py.replace Py.u2018 (Py.chr Py.sq) s)) in
  let s := Py.replace Py.u2014 "-" (Py.replace Py.u2013 "-" s) in
  let s := sub trailing_unit_re (fun _ => "") s in
  let s := sub digit_mm_re digit_mm_repl s in
  sub spaces_re (fun _ => " ") s.

Definition normalize_back (s : string) : string :=
  let s := Py.replace (String Py.bs ",") "," s in
  let s := Py.replace (Py.chr Py.sq) ""
             (Py.replace (Py.chr Py.dq) "" (Py.replace "," "" s)) in
  Py.rstrip_char Py.slash s.

(** *** Tidy texts

    The texts the normaliser has nothing to do on, described by their
    form: no upper-case letter, no comma, double quote or apostrophe; no
    typographic quote, prime or dash of those it maps; white space only as
    single spaces between other characters; no unit word at the end; no
    digit followed by a space and [mm]; no slash at the end. *)

(** The unit words the normaliser removes at the end of a value. *)
Definition unit_words : list string := ["mm"; "ton"; "tons"; "lb"; "lbs"; "in"; "inches"].

(** The glyphs it maps to ASCII. *)
Definition mapped_glyphs : list string :=
  [Py.u201c; Py.u201d; Py.u2033; Py.u2018; Py.u2019; Py.u2032; Py.u2013; Py.u2014].

(** Somewhere in [s]: a digit, a space, [mm]. *)
Fixpoint digit_space_mm (s : string) : bool :=
  match s with
  | "" => false
  | String c t => (Py.is_digit c && Py.starts_with " mm" t) || digit_space_mm t
  end.

Definition not_upper (c : ascii) : bool := negb (Py.is_upper c).
Definition space_or_not (c : ascii) : bool := negb (Py.is_space c) || Ascii.eqb c " ".

Definition tidy_char (c : ascii) : bool :=
  negb (Py.is_upper c)
  && negb (Ascii.eqb Py.comma c) && negb (Ascii.eqb Py.dq c) && negb (Ascii.eqb Py.sq c)
  && (negb (Py.is_space c) || Ascii.eqb c " ").

Definition tidy (n : string) : bool :=
  Py.all_chars tidy_char n
  && forallb (fun g => negb (Py.contains g n)) mapped_glyphs
  && negb (Py.starts_with " " n) && negb (Py.ends_with " " n)
  && negb (Py.contains "  " n)
  && forallb (fun u => negb (Py.ends_with u n)) unit_words
  && negb (digit_space_mm n)
  && negb (Py.ends_with "/" n).

(** The synonym table of [_match_value]; every set carries the verdict [True]. *)
Definition synonyms : list (list string * bool) :=
  [ (["excavators"; "excavator"; "excavator attachment"], true);
    (["mini excavators"; "mini excavator"; "mini excavator attachment"], true);
    (["skid steer"; "skid steer attachment"; "skid steer loader"], true);
    (["pin on"; "pin on style"; "pin on coupler"; "pin on style coupler";
      "no quick coupler pin on coupler"; "backhoe pin on style";
      "backhoe pin on coupler"; "bolt-on adapter"], true);
    (["bobcat x-change coupler"; "bobcat x-change"; "bobcat style";
      "bobcat x-change style"], true);
    (["john deere wedge lock coupler"; "john deere wedge lock"; "john deere style";
      "jd wedge lock"; "deere wedge lock coupler"; "deere style"], true);
    (["kubota wedge lock coupler"; "kubota wedge lock"; "kubota style";
      "kubota wedge style"; "kubota wedge lock style"], true);
    (["cat pin grabber coupler"; "cat pin grabber"; "cat pin grabber style"], true);
    (["dual lock hydraulic quick coupler"; "dual lock hqc"; "dual lock coupler"], true) ].

Definition mem (x : string) (l : list string) : bool := existsb (String.eqb x) l.

(** The first synonym set holding both values, with its verdict. *)
Definition synonym_verdict (p a : string) : option bool :=
  snd <$> find (fun e => mem p (fst e) && mem a (fst e)) synonyms.

(** [[\d.]+] *)
Definition number_re : re := Plus (Chr (fun c => Py.is_digit c || Ascii.eqb c ".")).

Definition strings_eqb (l1 l2 : list string) : bool :=
  bool_decide (l1 = l2).

(** The loop over the parts of a dual value ([p] holds a [|]): the first
    part that equals [a] or has the same numbers decides. *)
Fixpoint dual_value_match (parts : list string) (a : string) : bool :=
  match parts with
  | [] => false
  | part :: rest =>
      if String.eqb part a then true
      else
        let p_nums := findall number_re part in
        let a_nums := findall number_re a in
        if negb (bool_decide (p_nums = [])) && negb (bool_decide (a_nums = []))
           && strings_eqb p_nums a_nums
        then true
        else dual_value_match rest a
  end.

(** The loop over the comma-separated parts of [a]: [Some v] when a part
    returns [v], [None] when the loop falls through. *)
Fixpoint multi_value_match (p : string) (parts : list string) : option bool :=
  match parts with
  | [] => None
  | part :: rest =>
      if String.eqb (_normalize_value part) p then Some true
      else
        match synonym_verdict p (_normalize_value part) with
        | Some v => Some v
        | None => multi_value_match p rest
        end
  end.

(** The numeric rule: [Some v] when it returns [v], [None] when it falls
    through to the containment check. *)
Definition number_match (p a : string) : option bool :=
  let p_nums := findall number_re p in
  let a_nums := findall number_re a in
  match p_nums, a_nums with
  | [], _ | _, [] => None
  | _, _ =>
      if strings_eqb p_nums a_nums then Some true
      else
        match p_nums, a_nums with
        | [x], [y] =>
            match Fl.of_token x, Fl.of_token y with
            | Some fx, Some fy =>
                Some (Fl.ltb (Fl.abs (Fl.sub fx fy)) (Fl.of_decimal 1 1))
            | _, _ => None
            end
        | _, _ => None
        end
  end.

(** [_match_value(parsed_val, actual_val)]: [Some true] is a match,
    [Some false] a mismatch, [None] (Python's [None]) means the two cannot
    be compared. *)
Definition _match_value (parsed_val actual_val : string) : option bool :=
  let p := _normalize_value parsed_val in
  let a := _normalize_value actual_val in
  if negb (Py.truthy p) || negb (Py.truthy a) then None else
  if String.eqb p a then Some true else
  if Py.contains "|" p then
    Some (dual_value_match (map _normalize_value (Py.split_char "|" parsed_val)) a)
  else
  match synonym_verdict p a with
  | Some v => Some v
  | None =>
      match (if Py.contains "," a
             then multi_value_match p (map Py.strip (Py.split_char "," a))
             else None) with
      | Some v => Some v
      | None =>
          match number_match p a with
          | Some v => Some v
          | None => Some (Py.contains p a || Py.contains a p)
          end
      end
  end.

End NameParser.

(** ** [name_parser.py]: attribute extraction from a product title *)

Module Extract.
Import Re.

(** The class of quote glyphs: the straight double quote, U+201C, U+201D
    and the double prime U+2033. *)
Definition quote_glyph : re :=
  alts [one Py.dq; lit Py.u201c; lit Py.u201d; lit Py.u2033].

(** [[-–—]] *)
Definition dash : re := alts [one "-"; lit Py.u2013; lit Py.u2014].

Definition numch : re := Chr (fun c => Py.is_digit c || Ascii.eqb c ".").

(** [^(\d+(?:\.\d+)?)[Q“”″]\s], with [Q] the double quote *)
Definition size_re : re :=
  seqs [Bol;
        Grp 1 (Seq (Plus digit) (Opt (Seq (one ".") (Plus digit))));
        quote_glyph;
        ws].

(** [^(\d+)\s*mm\s+Diameter] *)
Definition diameter_re : re :=
  seqs [Bol; Grp 1 (Plus digit); Star ws; lit "mm"; Plus ws; lit "Diameter"].

(** [(\d+)\s*mm\s*[|/]\s*(\d+)\s*mm\s*[Pp]ins?] *)
Definition dual_pin_re : re :=
  seqs [Grp 1 (Plus digit); Star ws; lit "mm"; Star ws; oneof "|/"; Star ws;
        Grp 2 (Plus digit); Star ws; lit "mm"; Star ws;
        oneof "Pp"; lit "in"; Opt (one "s")].

(** [(\d+)\s*mm\s*[Pp]ins?] *)
Definition pin_re : re :=
  seqs [Grp 1 (Plus digit); Star ws; lit "mm"; Star ws;
        oneof "Pp"; lit "in"; Opt (one "s")].

(** [for\s+([\d.]+ ?[-–—] ?[\d.]+)\s*[Tt]ons?\s*(Mini\s+)?(\w+)] *)
Definition weight_class_re : re :=
  seqs [lit "for"; Plus ws;
        Grp 1 (seqs [Plus numch; Opt (one " "); dash; Opt (one " "); Plus numch]);
        Star ws; oneof "Tt"; lit "on"; Opt (one "s"); Star ws;
        Opt (Grp 2 (Seq (lit "Mini") (Plus ws)));
        Grp 3 (Plus word)].

(** Words separated by [\s+], without regard to case. *)
Fixpoint iwords (wds : list string) : re :=
  match wds with
  | [] => Eps
  | [w] => ilit w
  | w :: wds' => seqs [ilit w; Plus ws; iwords wds']
  end.

Definition coupler_patterns : list (re * string) :=
  [ (iwords ["John"; "Deere"; "Wedge"; "Lock"; "Coupler"], "John Deere Wedge Lock Coupler");
    (seqs [ilit "Kubota"; Plus ws; ilit "Wedge"; Plus ws;
           Opt (Seq (ilit "Lock") (Plus ws));
           Opt (Seq (ilit "Coupler") (Plus ws));
           ilit "Style"], "Kubota Wedge Lock Coupler");
    (seqs [ilit "Bobcat"; Plus ws; ilit "X"; Opt (one "-"); ilit "Change"; Plus ws;
           ilit "Coupler"], "Bobcat X-Change Coupler");
    (seqs [ilit "Cat"; Opt (ilit "erpillar"); Plus ws; ilit "Pin"; Plus ws;
           ilit "Grabber"], "Cat Pin Grabber Coupler");
    (iwords ["Dual"; "Lock"; "Hydraulic"; "Quick"; "Coupler"],
     "Dual Lock Hydraulic Quick Coupler");
    (iwords ["Spring"; "Manual"; "Quick"; "Coupler"], "Spring Manual Quick Coupler");
    (iwords ["Pin"; "On"; "Style"], "Pin On Style") ].

Definition type_patterns : list (re * string) :=
  [ (ilit "Ditching Bucket", "Ditching Bucket");
    (ilit "Digging Bucket", "Digging Bucket");
    (ilit "Trenching Bucket", "Trenching Bucket");
    (ilit "Banana Bucket", "Banana Bucket");
    (ilit "Claw Bucket", "Claw Bucket");
    (ilit "Tilt Bucket", "Tilt Bucket");
    (seqs [ilit "Severe Duty "; Opt (ilit "Skeleton "); ilit "Bucket"], "Severe Duty Bucket");
    (seqs [ilit "Heavy Duty ";
           Opt (Alt (ilit "Digging ") (ilit "General Purpose "));
           ilit "Bucket"], "Heavy Duty Bucket");
    (ilit "Skeleton Bucket", "Skeleton Bucket");
    (ilit "4 in 1 Bucket", "4 in 1 Bucket");
    (ilit "Grapple Bucket", "Grapple Bucket");
    (seqs [ilit "V"; Opt (one "-"); ilit "Bottom"; Star any; ilit "Bucket"], "V-Bottom Bucket");
    (ilit "Ripper Tooth", "Ripper Tooth");
    (ilit "Hydraulic Hammer", "Hydraulic Hammer");
    (ilit "Post Driver Hammer", "Post Driver Hammer");
    (ilit "Mechanical Thumb", "Mechanical Thumb");
    (seqs [Opt (ilit "QC "); ilit "Main Pin Hydraulic "; Opt (ilit "Progressive ");
           ilit "Thumb"], "Hydraulic Thumb");
    (ilit "Mechanical Grapple", "Mechanical Grapple");
    (ilit "Rotating Hydraulic Grapple", "Rotating Grapple");
    (ilit "Hydraulic Quick Coupler", "Hydraulic Quick Coupler");
    (ilit "Manual Quick Coupler", "Manual Quick Coupler");
    (ilit "Brush Rake", "Brush Rake");
    (ilit "Root Rake", "Root Rake");
    (ilit "Bucket Rake", "Bucket Rake");
    (ilit "Concrete Pulverizer", "Concrete Pulverizer");
    (ilit "Hydraulic Shear", "Hydraulic Shear");
    (ilit "Compaction Wheel", "Compaction Wheel");
    (ilit "Plate Compactor", "Plate Compactor");
    (ilit "Vibratory Roller", "Vibratory Roller");
    (ilit "Pallet Fork", "Pallet Fork");
    (ilit "Angle Broom", "Angle Broom");
    (ilit "Sweeper Broom", "Sweeper Broom");
    (ilit "Brush Cutter", "Brush Cutter");
    (seqs [ilit "Auger "; Opt (ilit "Drive "); ilit "Bit"], "Auger Bit");
    (ilit "Rock Auger Bit", "Rock Auger Bit");
    (seqs [ilit "Bolt"; Opt (one "-"); ilit "On Mount"], "Bolt-On Mount");
    (ilit "Aux Hydraulic Piping", "Aux Hydraulic Piping Kit");
    (ilit "Bucket Pin", "Bucket Pin");
    (ilit "Bucket Shim", "Bucket Shim");
    (ilit "Bucket Tooth", "Bucket Tooth");
    (ilit "Side Cutter", "Side Cutter");
    (ilit "Tooth Retainer", "Tooth Retainer");
    (ilit "Tooth Adapter", "Tooth Adapter");
    (ilit "Tooth Pin", "Tooth Pin");
    (ilit "Trencher", "Trencher") ].

(** The name of the first pattern found in the title. *)
Definition first_found (patterns : list (re * string)) (title : string) : option string :=
  snd <$> find (fun e => found (fst e) title) patterns.

(** [(\d+)[Q“”″]\s*Hex] *)
Definition hex_re : re := seqs [Grp 1 (Plus digit); quote_glyph; Star ws; lit "Hex"].

(** [^(\d+)\s*x\s*(\d+)\s*x\s*(\d+)\s*mm] *)
Definition shim_re : re :=
  seqs [Bol; Grp 1 (Plus digit); Star ws; one "x"; Star ws;
        Grp 2 (Plus digit); Star ws; one "x"; Star ws;
        Grp 3 (Plus digit); Star ws; lit "mm"].

(** [with\s+(\d+)\s*mm\s+[Ll]ength] *)
Definition pin_length_re : re :=
  seqs [lit "with"; Plus ws; Grp 1 (Plus digit); Star ws; lit "mm"; Plus ws;
        oneof "Ll"; lit "ength"].

Definition grp (n : nat) (st : mstate) : string := default "" (group n (m_caps st)).

(** The rules of [parse_name], in the order of the source; each takes the
    stripped title and the attributes found so far. *)

(** Size in inches: the quote is required. *)
Definition rule_size (title : string) (attrs : Dict.dict string) : Dict.dict string :=
  match rmatch size_re title with
  | Some m => Dict.set "Bucket Size" (grp 1 m +:+ Py.chr Py.dq) attrs
  | None => attrs
  end.

(** Diameter of pins and bits. *)
Definition rule_diameter (title : string) (attrs : Dict.dict string) : Dict.dict string :=
  match rmatch diameter_re title with
  | Some m => Dict.set "Diameter (mm)" (grp 1 m +:+ " mm") attrs
  | None => attrs
  end.

Definition rule_pin_size (title : string) (attrs : Dict.dict string) : Dict.dict string :=
  match search dual_pin_re title with
  | Some m => Dict.set "Pin Size" (grp 1 m +:+ "mm | " +:+ grp 2 m +:+ "mm") attrs
  | None =>
      match search pin_re title with
      | Some m => Dict.set "Pin Size" (grp 1 m +:+ "mm") attrs
      | None => attrs
      end
  end.

Definition rule_weight_class (title : string) (attrs : Dict.dict string) : Dict.dict string :=
  match search weight_class_re title with
  | Some m =>
      let tons := Py.replace Py.u2014 "-"
                    (Py.replace Py.u2013 "-" (Py.replace " " "" (grp 1 m))) in
      let attrs := Dict.set "Carrier Weight Class" (tons +:+ " tons") attrs in
      let machine := Py.strip (grp 3 m) in
      if Py.truthy (grp 2 m)
      then Dict.set "Machine Type" ("Mini " +:+ machine) attrs
      else Dict.set "Machine Type" machine attrs
  | None => attrs
  end.

Definition rule_coupler (title : string) (attrs : Dict.dict string) : Dict.dict string :=
  let attrs :=
    match first_found coupler_patterns title with
    | Some coupler_name => Dict.set "Coupler Type" coupler_name attrs
    | None => attrs
    end in
  (* no coupler found, but pins: likely pin on *)
  if negb (Dict.has "Coupler Type" attrs) && Dict.has "Pin Size" attrs
  then Dict.set "Coupler Type" "Pin On" attrs
  else attrs.

Definition rule_product_type (title : string) (attrs : Dict.dict string) : Dict.dict string :=
  match first_found type_patterns title with
  | Some type_name => Dict.set "Product Type" type_name attrs
  | None => attrs
  end.

Definition rule_hex (title : string) (attrs : Dict.dict string) : Dict.dict string :=
  match search hex_re title with
  | Some m => Dict.set "Hex Size" (grp 1 m +:+ Py.chr Py.dq) attrs
  | None => attrs
  end.

Definition rule_shim (title : string) (attrs : Dict.dict string) : Dict.dict string :=
  match rmatch shim_re title with
  | Some m =>
      Dict.set "Dimensions (mm)"
        (grp 1 m +:+ " x " +:+ grp 2 m +:+ " x " +:+ grp 3 m +:+ " mm") attrs
  | None => attrs
  end.

Definition rule_pin_length (title : string) (attrs : Dict.dict string) : Dict.dict string :=
  match search pin_length_re title with
  | Some m => Dict.set "Length (mm)" (grp 1 m +:+ " mm") attrs
  | None => attrs
  end.

Definition rule_fits_to (title : string) (attrs : Dict.dict string) : Dict.dict string :=
  if found (ilit "Skid Steer") title
  then Dict.set "Fits To" "Skid Steer" attrs
  else attrs.

Definition rule_attachment (title : string) (attrs : Dict.dict string) : Dict.dict string :=
  if found (iwords ["Skid"; "Steer"]) title
  then Dict.set "Attachment Types" "Skid Steer Attachment" attrs
  else if found (iwords ["Mini"; "Excavator"]) title
  then Dict.set "Attachment Types" "Mini Excavator Attachment" attrs
  else if found (ilit "Excavator") title
  then Dict.set "Attachment Types" "Excavator Attachment" attrs
  else if found (ilit "Backhoe") title
  then Dict.set "Attachment Types" "Backhoe Attachment" attrs
  else attrs.

(** [parse_name(title, category)]; the category takes no part. *)
Definition parse_name (title : string) (category : string) : Dict.dict string :=
  if negb (Py.truthy title) then [] else
  let title := Py.strip title in
  let attrs := rule_size title [] in
  let attrs := rule_diameter title attrs in
  let attrs := rule_pin_size title attrs in
  let attrs := rule_weight_class title attrs in
  let attrs := rule_coupler title attrs in
  let attrs := rule_product_type title attrs in
  let attrs := rule_hex title attrs in
  let attrs := rule_shim title attrs in
  let attrs := rule_pin_length title attrs in
  let attrs := rule_fits_to title attrs in
  rule_attachment title attrs.

(** The leading numeric token of a title, for the statement of the size
    guard: the longest prefix of the form [digits] or [digits.digits],
    with what follows it. *)
Fixpoint span_digits (s : string) : string * string :=
  match s with
  | String c t =>
      if Py.is_digit c
      then let '(d, r) := span_digits t in (String c d, r)
      else ("", s)
  | "" => ("", "")
  end.

Definition leading_number (s : string) : option (string * string) :=
  let '(d, r) := span_digits s in
  if Py.truthy d then
    match r with
    | String "." r' =>
        let '(f, r'') := span_digits r' in
        if Py.truthy f then Some (d +:+ "." +:+ f, r'') else Some (d, r)
    | _ => Some (d, r)
    end
  else None.

Definition starts_with_quote_glyph (s : string) : bool :=
  Py.starts_with (Py.chr Py.dq) s || Py.starts_with Py.u201c s
  || Py.starts_with Py.u201d s || Py.starts_with Py.u2033 s.

(** The title, once stripped, starts with a number and a quote glyph. *)
Definition number_then_quote (title : string) : bool :=
  match leading_number (Py.strip title) with
  | Some (_, r) => starts_with_quote_glyph r
  | None => false
  end.

(** The quote glyphs of the size and hex patterns. *)
Definition glyphs : list string := [Py.chr Py.dq; Py.u201c; Py.u201d; Py.u2033].

(** A quote glyph and then a white-space character. *)
Definition glyph_then_space (s : string) : bool :=
  existsb (fun q => Py.starts_with q s
                    && match Py.drop_str (String.length q) s with
                       | String c _ => Py.is_space c
                       | "" => false
                       end)
          glyphs.

(** The size a title states: its leading number, when a quote glyph and a
    white-space character follow it. *)
Definition size_token (title : string) : option string :=
  match leading_number title with
  | Some (tok, r) => if glyph_then_space r then Some tok else None
  | None => None
  end.

(** The labels [parse_name] writes, in the order of its rules. *)
Definition labels : list string :=
  [ "Bucket Size"; "Diameter (mm)"; "Pin Size"; "Carrier Weight Class"; "Machine Type";
    "Coupler Type"; "Product Type"; "Hex Size"; "Dimensions (mm)"; "Length (mm)";
    "Fits To"; "Attachment Types" ].

(** Every entry has one of these labels and a value that is not empty. *)
Definition well_formed (d : Dict.dict string) : Prop :=
  forall k v, (k, v) ∈ d -> k ∈ labels /\ v <> "".

(** A text of one digit or more. *)
Definition digits (d : string) : Prop := Fl.all_digits d = true /\ d <> "".

End Extract.

(** ** [name_parser.py]: the attributes of the name against those of the sources *)

Module NameCheck.

(** [ATTR_MAP]: the entries of the literal, stored in the order they are
    written ([Product Type] is written twice). *)
Definition ATTR_MAP : Dict.dict (list string) :=
  fold_left (fun d kv => Dict.set (fst kv) (snd kv) d)
    [ ("Bucket Size", ["Bucket Size"; "Bucket Size (in)"; "Bucket Size (in)/Filter";
                       "Rake Width (in)"; "Width (in)"; "Bucket Width (in)";
                       "Grapple Width (in)"; "Product Width (in)"]);
      ("Pin Size", ["Front Pin Diameter (mm)"; "Front Pin Diameter"; "Pin Size";
                    "Pin Diameter (mm)"; "Front Pin Size"]);
      ("Carrier Weight Class", ["Carrier Weight Class"; "Carrier Weight Class (tn)"]);
      ("Machine Type", ["Machine Type"]);
      ("Coupler Type", ["Coupler Head Type"; "Coupler Type"; "Coupler Type/Filter"]);
      ("Product Type", ["Bucket Type"; "Category"; "Attachment Types"]);
      ("Fits To", ["Fits To"]);
      ("Diameter (mm)", ["Pin Diameter (mm)"; "Chisel Bit Diameter (mm)";
                         "Auger Bit Width (mm)"]);
      ("Length (mm)", ["Length (mm)"; "Pin Length (mm)"]);
      ("Hex Size", ["Hex Size"]);
      ("Product Capacity (yds)",
         ["Capacity (yd" +:+ Py.u00b3 +:+ ")"; "Capacity (yd" +:+ Py.u00b3 +:+ ")/Filter";
          "Capacity ($yd^3$)"; "Capacity (yds)"]);
      ("Capacity (m" +:+ Py.u00b3 +:+ ")",
         ["Capacity (m" +:+ Py.u00b3 +:+ ")"; "Capacity ($m^3$)"; "Capacity (m3)"]);
      ("Rear Pin Diameter (mm)",
         ["Rear Pin Diameter"; "Rear Pin Diameter (mm)/Filter";
          "Rear Pin Size (mm)"; "Back Pin Size (mm)"]);
      ("Attachment Types", ["Attachment Types"; "Attachment Types/NA"]);
      ("Product Weight (lbs)", ["Weight (lb)"; "Weight (lbs)"; "Rake Weight (lb)"]);
      ("Product Type", ["Bucket Type"; "Category"; "Attachment Types"]) ]
    [].

(** [ATTR_MAP.get(parsed_attr, [parsed_attr])] *)
Definition possible_names (parsed_attr : string) : list string :=
  default [parsed_attr] (Dict.get parsed_attr ATTR_MAP).

(** The value under the first of the names the source has, or [""]. *)
Fixpoint first_value (names : list string) (attrs : Dict.dict string) : string :=
  match names with
  | [] => ""
  | name :: rest =>
      match Dict.get name attrs with
      | Some v => v
      | None => first_value rest attrs
      end
  end.

(** [_match_value(parsed_val, val) if val else None] *)
Definition source_match (parsed_val val : string) : option bool :=
  if Py.truthy val then NameParser._match_value parsed_val val else None.

(** [status] when [has_issue] is set, [None] when it is not. *)
Definition issue (web_match google_match : option bool) : option string :=
  match web_match, google_match with
  | Some false, _ | _, Some false => Some "MISMATCH"
  | None, None => Some "NOT FOUND"
  | _, _ => None
  end.

(** ["Yes" if m else ("No" if m is False else "—")] *)
Definition match_label (m : option bool) : string :=
  match m with
  | Some true => "Yes"
  | Some false => "No"
  | None => Py.u2014
  end.

(** [v or "—"] *)
Definition or_dash (v : string) : string := if Py.truthy v then v else Py.u2014.

(** The body of the inner loop of [compare_name_vs_attributes] for one
    parsed attribute: the row it appends, if any. *)
Definition attribute_row (sku category title : string)
    (web google : Dict.dict string) (parsed : string * string)
    : option (Dict.dict string) :=
  let parsed_attr := fst parsed in
  let parsed_val := snd parsed in
  let names := possible_names parsed_attr in
  let web_val := first_value names web in
  let google_val := first_value names google in
  let web_match := source_match parsed_val web_val in
  let google_match := source_match parsed_val google_val in
  match issue web_match google_match with
  | Some status =>
      Some [ ("sku", sku); ("category", category);
             ("product_title", Py.take_chars 80 title);
             ("attribute", parsed_attr); ("from_name", parsed_val);
             ("website_value", or_dash web_val);
             ("google_value", or_dash google_val);
             ("status", status);
             ("web_match", match_label web_match);
             ("google_match", match_label google_match) ]
  | None => None
  end.

(** The body of the outer loop for one product: the rows it appends.  A
    product without a title, or whose title yields no attribute, is
    passed over. *)
Definition product_rows (sku category title : string)
    (web google : Dict.dict string) : list (Dict.dict string) :=
  if negb (Py.truthy title) then [] else
  omap (attribute_row sku category title web google)
       (Extract.parse_name title category).

End NameCheck.

(** ** [comparator.py]: the merge by SKU and the discrepancy detectors *)

Module Comparator.

(** The values a cell of a frame or of a result row holds. *)
Inductive pyval : Type :=
| VNone
| VBool (b : bool)
| VStr (s : string)
| VFloat (f : Fl.float).

Definition row : Type := Dict.dict pyval.

(** One record of a source, in the unified columns the loaders produce.
    A price is a float or missing ([_clean_price] returns [None]; pandas
    may keep it as NaN, which [notna] treats alike). *)
Record product : Type := Product {
  product_name : string;
  sku : string;
  price : option Fl.float;
  sale_price : option Fl.float;
  category : string;
  status : string
}.

Definition frame : Type := list product.

(** [config.py]: the general settings. *)
Record config : Type := Config {
  PRICE_TOLERANCE : Fl.float;
  PRICE_TOLERANCE_PERCENT : Fl.float;
  FUZZY_MATCH_THRESHOLD : Z
}.

(** The settings of [config.example.py]: 0.01, 0.0 and 85. *)
Definition example_config : config :=
  Config (Fl.of_decimal 1 2) (Fl.of_decimal 0 1) 85.

Definition truthy (v : pyval) : bool :=
  match v with
  | VNone => false
  | VBool b => b
  | VStr s => Py.truthy s
  | VFloat f => Fl.truthy f
  end.

(** [pd.notna(v)] *)
Definition notna (v : pyval) : bool :=
  match v with
  | VNone => false
  | VFloat f => negb (Fl.is_nan f)
  | _ => true
  end.

Definition of_price (p : option Fl.float) : pyval :=
  match p with Some f => VFloat f | None => VNone end.

(** [row.get(k, dflt)] *)
Definition row_get (k : string) (dflt : pyval) (r : row) : pyval :=
  default dflt (Dict.get k r).

(** Python's order on strings. *)
Definition str_le : relation string := fun a b => String.leb a b = true.

#[global] Instance str_le_dec : RelDecision str_le :=
  fun a b => decide (String.leb a b = true).

(** [sorted(skus)] for a set of strings. *)
Definition sorted (skus : gset string) : list string :=
  merge_sort str_le (elements skus).

(** [df[df["sku"].str.len() > 0]["sku"].unique()] *)
Definition nonempty_skus (df : frame) : list string :=
  remove_dups (filter (fun k => Py.truthy k = true) (map sku df)).

(** The set of the non-empty SKUs of all sources. *)
Definition all_skus (sources : Dict.dict frame) : gset string :=
  fold_left (fun acc e => acc ∪ list_to_set (nonempty_skus (snd e))) sources ∅.

(** [df[df["sku"] == k].iloc[0]], when the selection is not empty. *)
Definition first_with_sku (k : string) (df : frame) : option product :=
  find (fun p => String.eqb (sku p) k) df.

(** The columns one source adds to the row of [k]: those of the first
    record with that SKU, or [None] and [in_ = False]. *)
Definition add_source (k : string) (r : row) (e : string * frame) : row :=
  let name := fst e in
  match first_with_sku k (snd e) with
  | Some first =>
      let r := Dict.set ("name_" +:+ name) (VStr (product_name first)) r in
      let r := Dict.set ("price_" +:+ name) (of_price (price first)) r in
      let r := Dict.set ("sale_price_" +:+ name) (of_price (sale_price first)) r in
      let r := Dict.set ("category_" +:+ name) (VStr (category first)) r in
      let r := Dict.set ("status_" +:+ name) (VStr (status first)) r in
      Dict.set ("in_" +:+ name) (VBool true) r
  | None =>
      let r := Dict.set ("name_" +:+ name) VNone r in
      let r := Dict.set ("price_" +:+ name) VNone r in
      let r := Dict.set ("sale_price_" +:+ name) VNone r in
      let r := Dict.set ("category_" +:+ name) VNone r in
      let r := Dict.set ("status_" +:+ name) VNone r in
      Dict.set ("in_" +:+ name) (VBool false) r
  end.

(** The same six stores as a list, in the order [add_source] makes them. *)
Definition column_prefixes : list string :=
  ["name_"; "price_"; "sale_price_"; "category_"; "status_"; "in_"].

Definition source_columns (name : string) (first : option product)
    : list (string * pyval) :=
  match first with
  | Some p =>
      [("name_" +:+ name, VStr (product_name p));
       ("price_" +:+ name, of_price (price p));
       ("sale_price_" +:+ name, of_price (sale_price p));
       ("category_" +:+ name, VStr (category p));
       ("status_" +:+ name, VStr (status p));
       ("in_" +:+ name, VBool true)]
  | None =>
      [("name_" +:+ name, VNone);
       ("price_" +:+ name, VNone);
       ("sale_price_" +:+ name, VNone);
       ("category_" +:+ name, VNone);
       ("status_" +:+ name, VNone);
       ("in_" +:+ name, VBool false)]
  end.

Definition store (r : row) (kv : string * pyval) : row := Dict.set (fst kv) (snd kv) r.

Definition merged_row (sources : Dict.dict frame) (k : string) : row :=
  fold_left (add_source k) sources [("sku", VStr k)].

(** [merge_by_sku(sources)]: the rows of the merged frame. *)
Definition merge_by_sku (sources : Dict.dict frame) : list row :=
  match sources with
  | [] => []
  | _ => map (merged_row sources) (sorted (all_skus sources))
  end.

(** A non-null float cell: what [pd.notna] lets through in a price column. *)
Definition float_cell (v : pyval) : option Fl.float :=
  match v with
  | VFloat f => if Fl.is_nan f then None else Some f
  | _ => None
  end.

(** The [prices] of a row: the sources that hold the product and a price. *)
Fixpoint row_prices (source_names : list string) (r : row) : Dict.dict Fl.float :=
  match source_names with
  | [] => []
  | s :: rest =>
      if truthy (row_get ("in_" +:+ s) (VBool false) r)
      then match float_cell (row_get ("price_" +:+ s) VNone r) with
           | Some f => (s, f) :: row_prices rest r
           | None => row_prices rest r
           end
      else row_prices rest r
  end.

(** The name of the row in the first source that has one, or [""]: the
    chain [r.get(name_a) or r.get(name_b) or ... or ""].  A name cell a
    source does not fill is [None], as [merge_by_sku] writes it and as
    pandas 2 keeps it in an object column, and [None] is false for [or].
    A pandas that infers a string column (pandas 3) stores NaN there,
    which is true for [or]; this embedding does not describe that case. *)
Fixpoint first_name (source_names : list string) (r : row) : pyval :=
  match source_names with
  | [] => VStr ""
  | s :: rest =>
      let v := row_get ("name_" +:+ s) VNone r in
      if truthy v then v else first_name rest r
  end.

Definition zero : Fl.float := S754_zero false.
Definition hundred : Fl.float := Fl.of_Z 100.

(** The source holds the product and a price for it. *)
Definition has_price (r : row) (s : string) : bool :=
  truthy (row_get ("in_" +:+ s) (VBool false) r)
  && bool_decide (is_Some (float_cell (row_get ("price_" +:+ s) VNone r))).

(** [(abs_diff / min_price) * 100] *)
Definition pct_diff (abs_diff min_price : Fl.float) : Fl.float :=
  Fl.mul (Fl.div abs_diff min_price) hundred.

(** The body of the loop of [find_price_differences] for one row: the
    row it appends, if any. *)
Definition price_difference (cfg : config) (source_names : list string) (r : row)
    : option row :=
  let prices := row_prices source_names r in
  if (length prices <? 2)%nat then None else
  let price_values := Dict.values prices in
  let max_price := Fl.max_of price_values in
  let min_price := Fl.min_of price_values in
  let abs_diff := Fl.sub max_price min_price in
  (* acceptable tolerance *)
  if Fl.leb abs_diff (PRICE_TOLERANCE cfg) then None else
  if Fl.gtb (PRICE_TOLERANCE_PERCENT cfg) zero && Fl.gtb min_price zero
     && Fl.leb (pct_diff abs_diff min_price) (PRICE_TOLERANCE_PERCENT cfg)
  then None
  else
    let diff_row : row :=
      [("sku", row_get "sku" VNone r);
       ("product_name", first_name source_names r);
       ("price_diff", VFloat (Fl.round2 abs_diff))] in
    Some (fold_left
            (fun d s => Dict.set ("price_" +:+ s) (of_price (Dict.get s prices)) d)
            source_names diff_row).

(** [find_price_differences(merged, sources)] *)
Definition find_price_differences (cfg : config) (merged : list row)
    (sources : Dict.dict frame) : list row :=
  omap (price_difference cfg (Dict.keys sources)) merged.

Section Names.

(** [fuzz.ratio] of the fuzzy-matching library: a similarity from 0 to 100. *)
Variable fuzz_ratio : string -> string -> Z.

(** A non-empty name cell. *)
Definition str_cell (v : pyval) : option string :=
  match v with
  | VStr s => if Py.truthy s then Some s else None
  | _ => None
  end.

(** The [names] of a row. *)
Fixpoint row_names (source_names : list string) (r : row) : Dict.dict string :=
  match source_names with
  | [] => []
  | s :: rest =>
      if truthy (row_get ("in_" +:+ s) (VBool false) r)
      then match str_cell (row_get ("name_" +:+ s) VNone r) with
           | Some n => (s, n) :: row_names rest r
           | None => row_names rest r
           end
      else row_names rest r
  end.

(** The source holds the product and a name for it. *)
Definition has_name (r : row) (s : string) : bool :=
  truthy (row_get ("in_" +:+ s) (VBool false) r)
  && bool_decide (is_Some (str_cell (row_get ("name_" +:+ s) VNone r))).

(** The test on one pair of names. *)
Definition close_not_equal (cfg : config) (n1 n2 : string) : bool :=
  let ratio := fuzz_ratio (Py.lower n1) (Py.lower n2) in
  (ratio <? 100)%Z && (FUZZY_MATCH_THRESHOLD cfg <=? ratio)%Z.

(** The double loop over the pairs [i < j]: [has_diff]. *)
Fixpoint has_diff (cfg : config) (names : list string) : bool :=
  match names with
  | [] => false
  | n1 :: rest =>
      existsb (close_not_equal cfg n1) rest || has_diff cfg rest
  end.

(** The body of the loop of [find_name_differences] for one row. *)
Definition name_difference (cfg : config) (source_names : list string) (r : row)
    : option row :=
  let names := row_names source_names r in
  if (length names <? 2)%nat then None
  else if has_diff cfg (Dict.values names)
  then Some (fold_left
               (fun d s => Dict.set ("name_" +:+ s)
                             (VStr (default "" (Dict.get s names))) d)
               source_names [("sku", row_get "sku" VNone r)])
  else None.

(** [find_name_differences(merged, sources)] *)
Definition find_name_differences (cfg : config) (merged : list row)
    (sources : Dict.dict frame) : list row :=
  omap (name_difference cfg (Dict.keys sources)) merged.

End Names.

(** [([\d.]+)] *)
Definition number_group_re : Re.re :=
  Re.Grp 1 (Re.Plus (Re.Chr (fun c => Py.is_digit c || Ascii.eqb c "."))).

(** The literals [2.20462] and [0.5]. *)
Definition kg_to_lb : Fl.float := Fl.of_decimal 220462 5.
Definition half : Fl.float := Fl.of_decimal 5 1.

(** [_parse_weight(val)]; [val] is the text of a cache cell, [None] where
    the cell holds no text (a missing key, [None] or NaN). *)
Definition _parse_weight (val : option string) : option Fl.float :=
  match val with
  | None => None
  | Some v =>
      if negb (Py.truthy v) then None else
      let s := Py.replace "," "" (Py.lower (Py.strip v)) in
      match Re.search number_group_re s with
      | Some m =>
          match Fl.of_token (default "" (Re.group 1 (Re.m_caps m))) with
          | Some w =>
              let w := if Py.contains "kg" s
                       then Fl.round2 (Fl.mul w kg_to_lb) else w in
              Some (Fl.round2 w)
          | None => None
          end
      | None => None
      end
  end.

(** [_parse_dimensions(val)]: the first three numbers of the text. *)
Definition _parse_dimensions (val : option string)
    : option (Fl.float * Fl.float * Fl.float) :=
  match val with
  | None => None
  | Some v =>
      if negb (Py.truthy v) then None else
      let s := Py.replace (Py.chr Py.sq) ""
                 (Py.replace (Py.chr Py.dq) "" (Py.lower (Py.strip v))) in
      match Re.findall (Re.Plus (Re.Chr (fun c => Py.is_digit c || Ascii.eqb c "."))) s with
      | a :: b :: c :: _ =>
          match Fl.of_token a, Fl.of_token b, Fl.of_token c with
          | Some x, Some y, Some z => Some (Fl.round2 x, Fl.round2 y, Fl.round2 z)
          | _, _, _ => None
          end
      | _ => None
      end
  end.

(** A raw-attribute cache: SKU to the texts of its attributes. *)
Definition cache : Type := gmap string (Dict.dict (option string)).

(** [attrs[sku].get(key)] *)
Definition cache_get (c : cache) (k key : string) : option string :=
  d ← c !! k; mjoin (Dict.get key d).

(** [sku in attrs] *)
Definition cache_has (c : cache) (k : string) : bool := bool_decide (is_Some (c !! k)).

(** One entry of [diffs]. *)
Record attr_diff : Type := AttrDiff {
  attribute : string;
  values : Dict.dict Fl.float;
  diff : Fl.float
}.

(** The guarded store [w = _parse_weight(...); if w: weights[src] = w]. *)
Definition add_weight (present : list string) (src : string) (c : cache)
    (k key : string) (weights : Dict.dict Fl.float) : Dict.dict Fl.float :=
  if NameParser.mem src present && cache_has c k
  then match _parse_weight (cache_get c k key) with
       | Some w => if Fl.truthy w then Dict.set src w weights else weights
       | None => weights
       end
  else weights.

(** The spread test on the values of one attribute: the entry appended to
    [diffs], if any. *)
Definition spread_diff (label : string) (vals : Dict.dict Fl.float) : option attr_diff :=
  if (2 <=? length vals)%nat then
    let v := Dict.values vals in
    let d := Fl.sub (Fl.max_of v) (Fl.min_of v) in
    if Fl.gtb d half then Some (AttrDiff label vals (Fl.round2 d)) else None
  else None.

(** The weight comparison of one product. *)
Definition weight_values (present : list string) (k : string)
    (zoho_attrs web_attrs google_attrs : cache) : Dict.dict Fl.float :=
  let weights := add_weight present "zoho" zoho_attrs k "weight" [] in
  let weights := add_weight present "website" web_attrs k "weight" weights in
  add_weight present "google" google_attrs k "weight_lb" weights.

Definition weight_diff (present : list string) (k : string)
    (zoho_attrs web_attrs google_attrs : cache) : option attr_diff :=
  spread_diff "Weight (lb)" (weight_values present k zoho_attrs web_attrs google_attrs).

(** The shipping-weight comparison. *)
Definition shipping_weight_diff (present : list string) (k : string)
    (zoho_attrs google_attrs : cache) : option attr_diff :=
  let ship := add_weight present "zoho" zoho_attrs k "shipping_weight" [] in
  let ship := add_weight present "google" google_attrs k "shipping_weight_lb" ship in
  spread_diff "Shipping Weight (lb)" ship.

Definition add_dims (present : list string) (src : string) (c : cache) (k : string)
    (dims : Dict.dict (Fl.float * Fl.float * Fl.float))
    : Dict.dict (Fl.float * Fl.float * Fl.float) :=
  if NameParser.mem src present && cache_has c k
  then match _parse_dimensions (cache_get c k "dimensions") with
       | Some d => Dict.set src d dims
       | None => dims
       end
  else dims.

(** The dimension comparison: one entry per axis whose spread is too wide. *)
Definition dimension_diffs (present : list string) (k : string)
    (zoho_attrs google_attrs : cache) : list attr_diff :=
  let dims := add_dims present "zoho" zoho_attrs k [] in
  let dims := add_dims present "google" google_attrs k dims in
  if (2 <=? length dims)%nat
  then omap (fun '(label, proj) =>
               spread_diff ("Shipping " +:+ label +:+ " (in)")
                           (map (fun e => (fst e, proj (snd e))) dims))
            [("Length", fun d : Fl.float * Fl.float * Fl.float => fst (fst d));
             ("Width", fun d => snd (fst d));
             ("Height", fun d => snd d)]
  else [].

Definition float_or_empty (v : option Fl.float) : pyval :=
  match v with Some f => VFloat f | None => VStr "" end.

(** The body of the loop of [find_attribute_differences] for one merged
    row: the rows it appends. *)
Definition attribute_differences (source_names : list string)
    (zoho_attrs web_attrs google_attrs : cache) (r : row) : list row :=
  (* the SKU cell of a merged row is a string *)
  let k := match row_get "sku" VNone r with VStr k => k | _ => "" end in
  let present :=
    filter (fun s => truthy (row_get ("in_" +:+ s) (VBool false) r) = true)
           source_names in
  if (length present <? 2)%nat then [] else
  let diffs :=
    (option_list (weight_diff present k zoho_attrs web_attrs google_attrs) ++
     option_list (shipping_weight_diff present k zoho_attrs google_attrs) ++
     dimension_diffs present k zoho_attrs google_attrs)%list in
  let name := first_name present r in
  map (fun d =>
         fold_left
           (fun dr s => Dict.set ("value_" +:+ s)
                         (float_or_empty (Dict.get s (values d))) dr)
           source_names
           [("sku", row_get "sku" VNone r); ("product_name", name);
            ("attribute", VStr (attribute d)); ("diff", VFloat (diff d))])
      diffs.

(** [find_attribute_differences(merged, sources)], over the three caches
    the loaders read. *)
Definition find_attribute_differences (zoho_attrs web_attrs google_attrs : cache)
    (merged : list row) (sources : Dict.dict frame) : list row :=
  concat (map (attribute_differences (Dict.keys sources)
                 zoho_attrs web_attrs google_attrs) merged).

(** A catalogue for the examples: one product in two sources with different
    prices and a duplicate, one product in one source only, a record
    without SKU, and an empty third source. *)
Definition example_sources : Dict.dict frame :=
  [("zoho", [Product "Ditching Bucket" "SKU-100" (Fl.of_token "500.00") None "Buckets" "active";
             Product "Ditching Bucket (old)" "SKU-100" (Fl.of_token "480.00") None "Buckets" "";
             Product "Unlisted" "" None None "" ""]);
   ("website", [Product "Ditching bucket" "SKU-100" (Fl.of_token "515.00") None "Buckets" "";
                Product "Auger Bit" "AB-7" (Fl.of_token "99.00") None "Augers" ""]);
   ("google", [])].

(** Raw attributes for the catalogue: the first source states a weight of
    zero, the second a weight, the third nothing. *)
Definition example_zoho_attrs : cache :=
  {[ "SKU-100" := [("weight", Some "0 lb"); ("shipping_weight", Some "0 lb");
                   ("dimensions", Some "")] ]}.
Definition example_web_attrs : cache :=
  {[ "SKU-100" := [("weight", Some "170.23")] ]}.
Definition example_google_attrs : cache := ∅.

(** The two-source example of the design document: one product priced [a]
    in source A and [b] in source B. *)
Definition two_prices (a b : string) : Dict.dict frame :=
  [("A", [Product "Item" "K-1" (Fl.of_token a) None "" ""]);
   ("B", [Product "Item" "K-1" (Fl.of_token b) None "" ""])].

(** Three sources with one product, and the settings of the example
    configuration with a percent tolerance of 5. *)
Definition three_prices (a b c : string) : Dict.dict frame :=
  [("A", [Product "Item" "K-1" (Fl.of_token a) None "" ""]);
   ("B", [Product "Item" "K-1" (Fl.of_token b) None "" ""]);
   ("C", [Product "Item" "K-1" (Fl.of_token c) None "" ""])].

Definition percent_config : config := Config (Fl.of_decimal 1 2) (Fl.of_Z 5) 85.

(** A price text beyond the range of a float, [1] and 309 zeros: [float]
    reads it as infinity. *)
Definition overflowing_price : string := String.concat "" ("1" :: List.repeat "0" 309).

(** Two sources that name one product [a] and [b]. *)
Definition two_names (a b : string) : Dict.dict frame :=
  [("A", [Product a "K-1" None None "" ""]);
   ("B", [Product b "K-1" None None "" ""])].

(** *** What the sources state, in the words of the design document

    The statements about the detectors speak of the prices and names the
    sources hold for a product.  They are read here from the sources
    themselves, not from the merged row and not through the functions of
    the detectors. *)

(** The first record of a source with the SKU [k]. *)
Fixpoint record_of (k : string) (df : frame) : option product :=
  match df with
  | [] => None
  | p :: rest => if String.eqb (sku p) k then Some p else record_of k rest
  end.

(** A present, non-null price: the source has a record with the SKU and
    its first such record has a price that is a number. *)
Definition stated_price (k : string) (df : frame) : option Fl.float :=
  match record_of k df with
  | Some p =>
      match price p with
      | Some f => if Fl.is_nan f then None else Some f
      | None => None
      end
  | None => None
  end.

(** A present, non-empty name. *)
Definition stated_name (k : string) (df : frame) : option string :=
  match record_of k df with
  | Some p => match product_name p with "" => None | n => Some n end
  | None => None
  end.

(** The prices and the names stated for [k], in the order of the sources. *)
Definition stated_prices (k : string) (sources : Dict.dict frame) : list Fl.float :=
  omap (fun e => stated_price k (snd e)) sources.

Definition stated_names (k : string) (sources : Dict.dict frame) : list string :=
  omap (fun e => stated_name k (snd e)) sources.

(** A minimum and a maximum of a list of floats. *)
Definition least (lo : Fl.float) (l : list Fl.float) : Prop :=
  lo ∈ l /\ forall x, x ∈ l -> Fl.leb lo x = true.

Definition greatest (hi : Fl.float) (l : list Fl.float) : Prop :=
  hi ∈ l /\ forall x, x ∈ l -> Fl.leb x hi = true.

(** The spread [hi - lo] is beyond the tolerances: it is not less than or
    equal to the absolute tolerance and, where the percent tolerance and
    the minimum are positive, [(hi - lo) / lo * 100] is not less than or
    equal to the percent tolerance. *)
Definition beyond_tolerance (cfg : config) (lo hi : Fl.float) : Prop :=
  Fl.leb (Fl.sub hi lo) (PRICE_TOLERANCE cfg) = false /\
  (Fl.gtb (PRICE_TOLERANCE_PERCENT cfg) (S754_zero false) = true ->
   Fl.gtb lo (S754_zero false) = true ->
   Fl.leb (Fl.mul (Fl.div (Fl.sub hi lo) lo) (Fl.of_Z 100)) (PRICE_TOLERANCE_PERCENT cfg)
   = false).

(** The same with [exceeds] for [not less than or equal]: the reading for
    numbers. *)
Definition exceeds_tolerance (cfg : config) (lo hi : Fl.float) : Prop :=
  Fl.gtb (Fl.sub hi lo) (PRICE_TOLERANCE cfg) = true /\
  (Fl.gtb (PRICE_TOLERANCE_PERCENT cfg) (S754_zero false) = true ->
   Fl.gtb lo (S754_zero false) = true ->
   Fl.gtb (Fl.mul (Fl.div (Fl.sub hi lo) lo) (Fl.of_Z 100)) (PRICE_TOLERANCE_PERCENT cfg)
   = true).

(** The row [d] of a report is the one for the SKU [k]. *)
Definition reported (k : string) (report : list row) (d : row) : Prop :=
  d ∈ report /\ Dict.get "sku" d = Some (VStr k).

(** The [price_diff] column of the price report of the sources. *)
Definition price_diffs (cfg : config) (sources : Dict.dict frame) : list (option pyval) :=
  map (Dict.get "price_diff") (find_price_differences cfg (merge_by_sku sources) sources).

(** A similarity for the examples, of the kind [fuzz.ratio] computes: twice
    the length of a longest common subsequence over the total length, in
    percent, rounded to the nearest integer; 100 for two empty texts. *)
Fixpoint lcs_row (c : ascii) (t : string) (above : list nat) (left : nat) : list nat :=
  match t, above with
  | String d t', diag :: ((up :: _) as above') =>
      let v := if Ascii.eqb c d then S diag else Nat.max up left in
      v :: lcs_row c t' above' v
  | _, _ => []
  end.

Fixpoint lcs_rows (s t : string) (above : list nat) : list nat :=
  match s with
  | "" => above
  | String c s' => lcs_rows s' t (0%nat :: lcs_row c t above 0)
  end.

Definition lcs (s t : string) : nat :=
  List.last (lcs_rows s t (List.repeat 0%nat (S (String.length t)))) 0%nat.

Definition example_ratio (s t : string) : Z :=
  let total := Z.of_nat (String.length s + String.length t) in
  if (total =? 0)%Z then 100%Z
  else Fl.round_half_even (200 * Z.of_nat (lcs s t)) total.

(** The name report of the sources under that similarity. *)
Definition name_rows (cfg : config) (sources : Dict.dict frame) : list row :=
  find_name_differences example_ratio cfg (merge_by_sku sources) sources.

(** [find_missing]: the sources a row is present in and absent from. *)
Definition present_in (source_names : list string) (r : row) : list string :=
  filter (fun s => truthy (row_get ("in_" +:+ s) (VBool false) r) = true) source_names.

Definition absent_from (source_names : list string) (r : row) : list string :=
  filter (fun s => negb (truthy (row_get ("in_" +:+ s) (VBool false) r)) = true)
         source_names.

(** [v or ""], for a cell that is a string or [None] (see [first_name]
    for the missing cell). *)
Definition or_empty (v : pyval) : pyval := if truthy v then v else VStr "".

(** The body of the loop of [find_missing] for one row: the row it
    appends, if any. *)
Definition missing_row (source_names : list string) (r : row) : option row :=
  let present := present_in source_names r in
  let absent := absent_from source_names r in
  match absent with
  | [] => None
  | _ :: _ =>
      Some [("sku", row_get "sku" VNone r);
            ("product_name", first_name present r);
            ("present_in", VStr (Py.join ", " present));
            ("absent_from", VStr (Py.join ", " absent));
            ("zoho_status", or_empty (row_get "status_zoho" (VStr "") r))]
  end.

(** [find_missing(merged, sources)] *)
Definition find_missing (merged : list row) (sources : Dict.dict frame) : list row :=
  omap (missing_row (Dict.keys sources)) merged.

(** The source frame has a record with the SKU [k]. *)
Definition holds (k : string) (df : frame) : bool :=
  bool_decide (is_Some (first_with_sku k df)).

(** The sources that have a record with the SKU [k], and those that have
    none. *)
Definition holders (k : string) (sources : Dict.dict frame) : list string :=
  map fst (filter (fun e => holds k (snd e) = true) sources).

Definition lackers (k : string) (sources : Dict.dict frame) : list string :=
  map fst (filter (fun e => holds k (snd e) = false) sources).

End Comparator.

(** ** [loaders.py]: the cleaning of the cells *)

Module Loaders.

(** [[^\d.]] *)
Definition not_price_char (c : ascii) : bool :=
  negb (Py.is_digit c || Ascii.eqb c ".").

(** [_clean_price(value)]; [value] is the text of a cell, [None] where
    [pd.isna] holds.  The result is [None] where the function returns
    [None]. *)
Definition _clean_price (value : option string) : option Fl.float :=
  match value with
  | None => None
  | Some v =>
      let s := Py.strip v in
      let s := Re.sub (Re.Chr not_price_char) (fun _ => "") s in
      match Fl.of_token s with
      | Some f => Some (Fl.round2 f)
      | None => None
      end
  end.

(** [_clean_text(value)] *)
Definition _clean_text (value : option string) : string :=
  match value with
  | None => ""
  | Some v => Py.strip v
  end.

(** The cleaning [_normalize] applies to the [sku] column:
    [_clean_text(x).upper() if pd.notna(x) else ""]. *)
Definition clean_sku (x : option string) : string :=
  match x with
  | Some _ => Py.upper (_clean_text x)
  | None => ""
  end.

End Loaders.

(** ** [report_html.py]: escaping *)

Module ReportHtml.

(** [_esc(text)] *)
Definition _esc (text : string) : string :=
  Py.replace (Py.chr Py.dq) "&quot;"
    (Py.replace ">" "&gt;"
      (Py.replace "<" "&lt;"
        (Py.replace "&" "&amp;" text))).

End ReportHtml.

(** ** [grid_view.py]: the status of one cell of the attribute grid *)

Module GridView.

(** [m³]: the superscript three is U+00B3. *)
Definition cubic_metre : string :=
  Eval cbv in "m" +:+ String (ascii_of_nat 194) (String (ascii_of_nat 179) "").

(** Attributes that never appear in a product name. *)
Definition DATA_ONLY_ATTRS : list string :=
  [ "Center to Center";
    "Drain Holes";
    "Product Weight (lbs)";
    "Product Weight (kg)";
    "Capacity (" +:+ cubic_metre +:+ ")";
    "Add-on included";
    "Add-ons Included";
    "Front Ear to Ear";
    "Rear Ear to Ear" ].

(** The inner loop of [_all_match]: [cleaned[i]] against every later value. *)
Definition matches_all (v : string) (rest : list string) : bool :=
  forallb (fun w => match NameParser._match_value v w with
                    | Some true => true
                    | _ => false
                    end) rest.

(** The loop over the pairs [i < j] of [cleaned]. *)
Fixpoint all_pairs_match (cleaned : list string) : bool :=
  match cleaned with
  | [] => true
  | v :: rest => matches_all v rest && all_pairs_match rest
  end.

(** [[v for v in values if v and str(v).strip()]] *)
Definition cleaned (values : list string) : list string :=
  filter (fun v => Py.truthy v && Py.truthy (Py.strip v) = true) values.

(** [_all_match(values)] *)
Definition _all_match (values : list string) : bool :=
  if (length values <? 2)%nat then true else
  if (length (cleaned values) <? 2)%nat then true else
  all_pairs_match (cleaned values).

(** The values agree: the resolver matches every pair, taken in the order
    of the list, of the values that are not blank. *)
Definition agree (values : list string) : Prop :=
  forall (i j : nat) (v w : string),
    (i < j)%nat -> cleaned values !! i = Some v -> cleaned values !! j = Some w ->
    NameParser._match_value v w = Some true.

(** The values a cell's status is computed from: for a data-only attribute
    the value from the name is left out. *)
Definition status_values (attr_name name_val zoho_val web_val google_val : string)
    : list string :=
  if NameParser.mem attr_name DATA_ONLY_ATTRS
  then filter (fun v => Py.truthy v = true) [zoho_val; web_val; google_val]
  else filter (fun v => Py.truthy v = true) [name_val; zoho_val; web_val; google_val].

(** [row[f"{attr_name} [Status]"]] as [build_grid] computes it. *)
Definition cell_status (attr_name name_val zoho_val web_val google_val : string)
    : string :=
  match status_values attr_name name_val zoho_val web_val google_val with
  | [] => ""
  | [_] => "PARTIAL"
  | vals => if _all_match vals then "OK" else "MISMATCH"
  end.

(** [\s*\([^)]*\)\s*$] *)
Definition trailing_paren_re : Re.re :=
  Re.seqs [ Re.Star Re.ws; Re.one "(";
            Re.Star (Re.Chr (fun c => negb (Ascii.eqb c ")")));
            Re.one ")"; Re.Star Re.ws; Re.Eol ].

(** [_attr_base(key)] *)
Definition _attr_base (key : string) : string :=
  Py.lower (Py.strip (Re.sub trailing_paren_re (fun _ => "") key)).

Definition skip_patterns : list string :=
  [ "Variation Name"; "Category"; "Handling Unit"; "Unit";
    "Shipping Length"; "Shipping Width"; "Shipping Height";
    "Shipping Weight"; "Weight (lb)"; "Weight (kg)";
    "Product Name"; "Name";
    "Product Width (in)"; "Product Width (mm)";
    "Capacity (yd"; "Capacity ($yd";
    "Coupler Head Type"; "Coupler Type";
    "Bucket Type";
    "Chisel Bit Size"; "Bit Diameter" ].

(** [any(p.lower() in key.lower() for p in skip_patterns)] *)
Definition skipped (key : string) : bool :=
  existsb (fun p => Py.contains (Py.lower p) (Py.lower key)) skip_patterns.

(** The test of the inner loop on one earlier key: the two bases are
    equal or one lies inside the other. *)
Definition overlaps (existing key : string) : bool :=
  let existing_base := _attr_base existing in
  let base := _attr_base key in
  String.eqb existing_base base
  || Py.contains existing_base base
  || Py.contains base existing_base.

(** [covered] after the inner loop over [already_covered + result]. *)
Definition covered (already_covered result : list string) (key : string) : bool :=
  existsb (fun existing => overlaps existing key) (already_covered ++ result)%list.

(** The body of the outer loop: [result] after the key has been seen. *)
Definition filter_step (already_covered : list string) (result : list string)
    (key : string) : list string :=
  if skipped key then result
  else if covered already_covered result key then result
  else (result ++ [key])%list.

(** [result] after the outer loop has seen the keys of [l]. *)
Definition selected (already_covered l : list string) : list string :=
  fold_left (filter_step already_covered) l [].

(** [_filter_important_attrs(all_keys, already_covered)] *)
Definition _filter_important_attrs (all_keys : gset string)
    (already_covered : list string) : list string :=
  take 15 (selected already_covered (Comparator.sorted all_keys)).

(** [k.lower() in attr_name.lower() or attr_name.lower() in k.lower()] *)
Definition label_matches (attr_name k : string) : bool :=
  Py.contains (Py.lower k) (Py.lower attr_name)
  || Py.contains (Py.lower attr_name) (Py.lower k).

(** [_find_parsed_value(parsed, attr_name)] *)
Definition _find_parsed_value (parsed : Dict.dict string) (attr_name : string)
    : string :=
  match Dict.get attr_name parsed with
  | Some v => v
  | None =>
      match find (fun kv => label_matches attr_name (fst kv)) parsed with
      | Some kv => snd kv
      | None => ""
      end
  end.

(** [_esc(text)] of this module: the empty text is returned as it is. *)
Definition _esc (text : string) : string :=
  if negb (Py.truthy text) then "" else ReportHtml._esc text.

End GridView.

(** * Properties *)

(** ** Strings *)

Section StringFacts.

Lemma truthy_empty (s : string) : Py.truthy s = false <-> s = "".
Proof. destruct s; simpl; split; congruence. Qed.

Lemma truthy_nonempty (s : string) : Py.truthy s = true <-> s <> "".
Proof. destruct s; simpl; split; congruence. Qed.

(** Membership of one character, unfolded. *)
Lemma contains_chr_cons (c x : ascii) (t : string) :
  Py.contains (Py.chr c) (String x t) = Ascii.eqb c x || Py.contains (Py.chr c) t.
Proof. simpl. now rewrite andb_true_r. Qed.

Lemma contains_chr_nil (c : ascii) : Py.contains (Py.chr c) "" = false.
Proof. reflexivity. Qed.

Lemma replace_chr_empty (c : ascii) (s : string) :
  Py.replace (String c "") "" s = Py.remove_char c s.
Proof.
  unfold Py.replace. induction s as [|x t IH]; simpl; [reflexivity|].
  rewrite andb_true_r. destruct (Ascii.eqb c x); simpl; now rewrite IH.
Qed.

Lemma remove_char_absent (c : ascii) (s : string) :
  Py.contains (Py.chr c) (Py.remove_char c s) = false.
Proof.
  induction s as [|x t IH]; [reflexivity|]. simpl Py.remove_char.
  destruct (Ascii.eqb c x) eqn:E; [exact IH|].
  now rewrite contains_chr_cons, E, IH.
Qed.

Lemma remove_char_keeps_absent (c d : ascii) (s : string) :
  Py.contains (Py.chr c) s = false ->
  Py.contains (Py.chr c) (Py.remove_char d s) = false.
Proof.
  induction s as [|x t IH]; [reflexivity|].
  rewrite contains_chr_cons. intros [Hx Ht]%orb_false_iff. simpl Py.remove_char.
  destruct (Ascii.eqb d x); [auto|]. rewrite contains_chr_cons, Hx. auto.
Qed.

Lemma remove_char_id (c : ascii) (s : string) :
  Py.contains (Py.chr c) s = false -> Py.remove_char c s = s.
Proof.
  induction s as [|x t IH]; [reflexivity|].
  rewrite contains_chr_cons. intros [Hx Ht]%orb_false_iff.
  simpl. rewrite Hx. now rewrite IH.
Qed.

Lemma rstrip_keeps_absent (c : ascii) (p : ascii -> bool) (s : string) :
  Py.contains (Py.chr c) s = false ->
  Py.contains (Py.chr c) (Py.rstrip_with p s) = false.
Proof.
  induction s as [|x t IH]; [reflexivity|].
  rewrite contains_chr_cons. intros [Hx Ht]%orb_false_iff. simpl.
  specialize (IH Ht). destruct (Py.rstrip_with p t) as [|y u].
  - destruct (p x); [reflexivity|]. now rewrite contains_chr_cons, Hx.
  - now rewrite contains_chr_cons, Hx.
Qed.

Lemma rstrip_idem (p : ascii -> bool) (s : string) :
  Py.rstrip_with p (Py.rstrip_with p s) = Py.rstrip_with p s.
Proof.
  induction s as [|x t IH]; [reflexivity|]. simpl.
  destruct (Py.rstrip_with p t) as [|y u] eqn:E.
  - destruct (p x) eqn:Px; simpl; [reflexivity|]. now rewrite Px.
  - simpl in *. now rewrite IH.
Qed.

(** A two-character pattern that ends in [c] does not occur where [c] does not. *)
Lemma replace_pair_absent (a c : ascii) (new s : string) :
  Py.contains (Py.chr c) s = false ->
  Py.replace (String a (String c "")) new s = s.
Proof.
  unfold Py.replace. induction s as [|x t IH]; [reflexivity|].
  rewrite contains_chr_cons. intros [Hx Ht]%orb_false_iff.
  cbn [Py.replace_from]. 
  assert (Py.starts_with (String a (String c "")) (String x t) = false) as ->.
  { simpl. destruct t as [|y u]; [now rewrite andb_false_r|].
    rewrite contains_chr_cons in Ht. apply orb_false_iff in Ht as [-> _].
    now rewrite andb_false_r. }
  now rewrite IH.
Qed.

Lemma append_cons (c : ascii) (s t : string) : String c s +:+ t = String c (s +:+ t).
Proof. reflexivity. Qed.

Lemma append_nil (t : string) : "" +:+ t = t.
Proof. reflexivity. Qed.

End StringFacts.

(** Keys built by appending to a literal, with the literal spelled out. *)
Ltac unfold_keys := rewrite ?append_cons, ?append_nil in *.

(** ** The value normaliser *)

Section Normalizer.
Import NameParser.

Lemma normalize_phases (val : string) :
  _normalize_value val = normalize_back (normalize_front val).
Proof. destruct val; reflexivity. Qed.

Lemma back_no_char (c : ascii) (s : string) :
  c = Py.comma \/ c = Py.dq \/ c = Py.sq ->
  Py.contains (Py.chr c) (normalize_back s) = false.
Proof.
  intros Hc. unfold normalize_back, Py.rstrip_char.
  apply rstrip_keeps_absent. unfold Py.chr. rewrite !replace_chr_empty.
  destruct Hc as [-> | [-> | ->]].
  - do 2 apply remove_char_keeps_absent. apply remove_char_absent.
  - apply remove_char_keeps_absent. apply remove_char_absent.
  - apply remove_char_absent.
Qed.

(** A normal form holds no comma, no double quote and no apostrophe. *)
Lemma normalize_no_char (c : ascii) (s : string) :
  c = Py.comma \/ c = Py.dq \/ c = Py.sq ->
  Py.contains (Py.chr c) (_normalize_value s) = false.
Proof. intros Hc. rewrite normalize_phases. now apply back_no_char. Qed.

(** The second phase changes nothing in what it produced. *)
Lemma normalize_back_idem (s : string) :
  normalize_back (normalize_back s) = normalize_back s.
Proof.
  pose proof (back_no_char Py.comma s (or_introl eq_refl)) as Hc.
  pose proof (back_no_char Py.dq s (or_intror (or_introl eq_refl))) as Hd.
  pose proof (back_no_char Py.sq s (or_intror (or_intror eq_refl))) as Hs.
  assert (exists z, normalize_back s = Py.rstrip_with (Ascii.eqb Py.slash) z) as [z Hz]
    by (eexists; reflexivity).
  remember (normalize_back s) as y eqn:Hy. clear Hy.
  unfold normalize_back. rewrite replace_pair_absent by exact Hc.
  unfold Py.chr. rewrite !replace_chr_empty.
  rewrite (remove_char_id Py.comma) by exact Hc.
  rewrite (remove_char_id Py.dq) by exact Hd.
  rewrite (remove_char_id Py.sq) by exact Hs.
  unfold Py.rstrip_char. rewrite Hz. apply rstrip_idem.
Qed.


End Normalizer.

(** ** The equivalence resolver *)

Section Resolver.
Import NameParser.

(** The comma rule is never entered: the second value is normalised before
    the test, and a normal form holds no comma. *)
Lemma comma_rule_unreachable (actual_val : string) :
  Py.contains "," (_normalize_value actual_val) = false.
Proof. apply (normalize_no_char Py.comma). now left. Qed.

(** C4: on a comma-separated second value the resolver does not split; a
    first value that is a synonym of one of the parts gets a mismatch. *)
Theorem C4_comma_parts_not_matched :
  Py.split_char "," "Bobcat Style, Pin On" = ["Bobcat Style"; " Pin On"] /\
  synonym_verdict (_normalize_value "Bobcat X-Change Coupler")
                  (_normalize_value "Bobcat Style") = Some true /\
  _match_value "Bobcat X-Change Coupler" "Bobcat Style, Pin On" = Some false.
Proof. repeat split; vm_compute; reflexivity. Qed.

(** C5 (as stated): a non-empty value whose normal form is empty is not
    matched with itself; the verdict is [None]. *)
Lemma C5_not_reflexive :
  ~ (forall x : string, x <> "" -> _match_value x x = Some true).
Proof.
  intros H. specialize (H "mm"). vm_compute in H.
  assert (Hne : "mm" <> "") by discriminate. specialize (H Hne). discriminate H.
Qed.

(** C5 (amended): a value matches itself exactly when its normal form is
    not empty; otherwise the two sides cannot be compared. *)
Theorem C5_reflexive_on_comparable (x : string) :
  _match_value x x =
  if Py.truthy (_normalize_value x) then Some true else None.
Proof.
  unfold _match_value. destruct (Py.truthy (_normalize_value x)); simpl; [|reflexivity].
  now rewrite String.eqb_refl.
Qed.

(** C6: a dual pin size matches either of its two values and no other. *)
Theorem C6_dual_value_matching :
  _match_value "45mm | 38mm Pins" "38mm" = Some true /\
  _match_value "45mm | 38mm Pins" "50mm" = Some false.
Proof. split; vm_compute; reflexivity. Qed.

End Resolver.

(** ** Dictionaries *)

Section DictFacts.
Context {V : Type}.

Lemma get_set_eq (k : string) (v : V) (d : Dict.dict V) :
  Dict.get k (Dict.set k v d) = Some v.
Proof.
  induction d as [|[k' v'] d IH]; simpl.
  - now rewrite String.eqb_refl.
  - destruct (String.eqb k' k) eqn:E; simpl.
    + now rewrite String.eqb_refl.
    + now rewrite E.
Qed.

Lemma get_set_ne (k k' : string) (v : V) (d : Dict.dict V) :
  k <> k' -> Dict.get k' (Dict.set k v d) = Dict.get k' d.
Proof.
  intros Hne. induction d as [|[k0 v0] d IH]; simpl.
  - apply String.eqb_neq in Hne. now rewrite Hne.
  - destruct (String.eqb k0 k) eqn:E; simpl.
    + apply String.eqb_eq in E. subst k0.
      apply String.eqb_neq in Hne. now rewrite Hne.
    + now rewrite IH.
Qed.

End DictFacts.

(** ** The matcher *)

Section RegexFacts.
Import Re.

Lemma orelse_some {A} (x y : option A) (v : A) :
  orelse x y = Some v -> x = Some v \/ y = Some v.
Proof. destruct x; simpl; auto. Qed.

(** Soundness of the matcher: an answer comes from a continuation run at a
    state the pattern leads to. *)
Lemma run_sound {A} (r : re) :
  forall (k : mstate -> option A) (st : mstate) (x : A),
    run r k st = Some x -> exists st', lang r st st' /\ k st' = Some x.
Proof.
  induction r as [|p|a IHa b IHb|a IHa b IHb|a IHa|n a IHa| |]; intros k st x H; simpl in H.
  - exists st. split; [reflexivity|assumption].
  - destruct (m_rest st) as [|c t] eqn:E; [discriminate|].
    destruct (p c) eqn:Pc; [|discriminate].
    exists (advance st t). split; [|assumption].
    exists c. simpl. auto.
  - apply IHa in H as (mid & Ha & H). apply IHb in H as (st' & Hb & H).
    exists st'. split; [|assumption]. exists mid. auto.
  - apply orelse_some in H as [H|H].
    + apply IHa in H as (st' & Ha & H). exists st'. simpl. auto.
    + apply IHb in H as (st' & Hb & H). exists st'. simpl. auto.
  - revert H. generalize (String.length (m_rest st)) as fuel.
    intros fuel. revert st.
    induction fuel as [|fuel IH]; intros st H.
    + exists st. split; [apply rtc_refl|assumption].
    + apply orelse_some in H as [H|H].
      * apply IHa in H as (mid & Ha & H).
        destruct (m_pos st <? m_pos mid)%nat; [|discriminate].
        apply IH in H as (st' & Hs & H). exists st'. split; [|assumption].
        simpl. eapply rtc_l; eassumption.
      * exists st. split; [apply rtc_refl|assumption].
  - apply IHa in H as (mid & Ha & H). exists (capture n st mid).
    split; [|assumption]. exists mid. auto.
  - destruct (m_pos st =? 0)%nat eqn:E; [|discriminate].
    exists st. split; [|assumption]. apply Nat.eqb_eq in E. simpl. auto.
  - destruct (at_eol (m_rest st)) eqn:E; [|discriminate].
    exists st. simpl. auto.
Qed.

Lemma lang_lit (s : string) (st st' : mstate) :
  lang (lit s) st st' -> m_rest st = s +:+ m_rest st'.
Proof.
  revert st. induction s as [|c t IH]; intros st H; simpl in H.
  - now subst.
  - destruct H as (mid & (c' & Hr & Hc & ->) & Ht).
    apply IH in Ht. simpl in Ht. apply Ascii.eqb_eq in Hc. subst c'.
    rewrite Hr, Ht. reflexivity.
Qed.

Lemma lang_digits (st st' : mstate) :
  lang (Plus digit) st st' ->
  exists d, m_rest st = d +:+ m_rest st' /\ Fl.all_digits d = true /\ d <> "".
Proof.
  intros (mid & (c & Hr & Hc & ->) & Hs). simpl in Hs.
  assert (exists d, m_rest (advance st (m_rest mid)) = d +:+ m_rest st' /\ Fl.all_digits d = true)
    as (d & Hd & Hall).
  { clear Hr. generalize dependent (advance st (m_rest mid)). intros m Hs.
    induction Hs as [m|m m1 m2 (c' & Hr' & Hc' & ->) _ IH].
    - exists "". auto.
    - destruct IH as (d & Hd & Hall). exists (String c' d). split.
      + rewrite Hr'. simpl in Hd. simpl. now rewrite Hd.
      + simpl. unfold digit in Hc'. now rewrite Hc'. }
  exists (String c d). repeat split.
  - simpl in Hd. rewrite Hr, Hd. reflexivity.
  - simpl. now rewrite Hc.
  - discriminate.
Qed.

End RegexFacts.

(** ** The size guard of [parse_name] *)

Section SizeGuard.
Import Re Extract.

Lemma starts_with_app (p r : string) : Py.starts_with p (p +:+ r) = true.
Proof. induction p as [|c p IH]; simpl; [reflexivity|]. now rewrite Ascii.eqb_refl. Qed.

Lemma lang_quote_glyph (st st' : mstate) :
  lang quote_glyph st st' ->
  starts_with_quote_glyph (m_rest st) = true /\ m_rest st <> "".
Proof.
  unfold quote_glyph, starts_with_quote_glyph. cbn [alts lang].
  intros [H | [H | [H | H]]].
  - destruct H as (c & Hr & Hc & _). apply Ascii.eqb_eq in Hc. subst c.
    rewrite Hr. split; [reflexivity|discriminate].
  - apply lang_lit in H. rewrite H, (starts_with_app Py.u201c).
    split; [now rewrite !orb_true_r|discriminate].
  - apply lang_lit in H. rewrite H, (starts_with_app Py.u201d).
    split; [now rewrite !orb_true_r|discriminate].
  - apply lang_lit in H. rewrite H, (starts_with_app Py.u2033).
    split; [now rewrite !orb_true_r|discriminate].
Qed.

(** A quote glyph starts with a byte that is neither a digit nor a dot. *)
Lemma quote_glyph_head (r : string) :
  starts_with_quote_glyph r = true ->
  exists c r0, r = String c r0 /\ Py.is_digit c = false /\ Ascii.eqb c "." = false.
Proof.
  destruct r as [|c r0]; [discriminate|]. intros H. exists c, r0.
  split; [reflexivity|].
  unfold starts_with_quote_glyph in H. 
  destruct (Ascii.eqb Py.dq c) eqn:Ed.
  - apply Ascii.eqb_eq in Ed. subst c. split; reflexivity.
  - destruct (Ascii.eqb (ascii_of_nat 226) c) eqn:E2.
    + apply Ascii.eqb_eq in E2. subst c. split; reflexivity.
    + exfalso. revert H. cbn [Py.starts_with Py.chr Py.u201c Py.u201d Py.u2033].
      rewrite Ed. change (Ascii.eqb "226" c) with (Ascii.eqb (ascii_of_nat 226) c).
      rewrite E2. discriminate.
Qed.

Lemma span_digits_app (d r : string) :
  Fl.all_digits d = true ->
  (forall c r0, r = String c r0 -> Py.is_digit c = false) ->
  span_digits (d +:+ r) = (d, r).
Proof.
  intros Hd Hr. induction d as [|c d IH]; simpl in *.
  - destruct r as [|c r0]; [reflexivity|]. simpl. now rewrite (Hr c r0 eq_refl).
  - apply andb_true_iff in Hd as [Hc Hd]. rewrite Hc, (IH Hd). reflexivity.
Qed.

(** Where the size pattern matches, the title starts with its leading
    number and a quote glyph. *)
Lemma size_match_number_then_quote (t : string) (m : mstate) :
  rmatch size_re t = Some m ->
  exists tok r, leading_number t = Some (tok, r) /\ starts_with_quote_glyph r = true.
Proof.
  unfold rmatch, try_at. intros H. apply run_sound in H as (st' & H & _).
  unfold size_re in H. cbn [seqs] in H.
  destruct H as (s1 & (_ & ->) & s2 & (mid & Hin & ->) & s3 & Hq & _).
  apply lang_quote_glyph in Hq as [Hq _]. cbn [capture m_rest] in Hq.
  destruct Hin as (m1 & Hd1 & Hopt).
  apply lang_digits in Hd1 as (d1 & E1 & A1 & N1). cbn [m_rest] in E1.
  destruct (quote_glyph_head _ Hq) as (c & r0 & Er & Dc & Pc).
  assert (T1 : Py.truthy d1 = true) by now apply truthy_nonempty.
  destruct Hopt as [(m2 & (c' & Hr & Hc & ->) & Hd2) | ->].
  - apply lang_digits in Hd2 as (d2 & E2 & A2 & N2). cbn [advance m_rest] in E2.
    apply Ascii.eqb_eq in Hc. subst c'.
    exists (d1 +:+ "." +:+ d2), (m_rest mid). split; [|assumption].
    unfold leading_number. rewrite E1, Hr, E2.
    rewrite (span_digits_app d1) by (assumption || (intros ? ? [= <- _]; reflexivity)).
    rewrite T1.
    rewrite (span_digits_app d2)
      by (assumption || (intros x y E; rewrite Er in E; injection E as <- _; assumption)).
    assert (T2 : Py.truthy d2 = true) by now apply truthy_nonempty.
    now rewrite T2.
  - exists d1, (m_rest m1). split; [|assumption].
    unfold leading_number. rewrite E1.
    rewrite (span_digits_app d1)
      by (assumption || (intros x y E; rewrite Er in E; injection E as <- _; assumption)).
    rewrite T1, Er. destruct c as [[] [] [] [] [] [] [] []]; try reflexivity; discriminate Pc.
Qed.

Lemma size_rule_guarded (title : string) (attrs : Dict.dict string) :
  number_then_quote title = false ->
  rule_size (Py.strip title) attrs = attrs.
Proof.
  unfold number_then_quote, rule_size. intros H.
  destruct (rmatch size_re (Py.strip title)) as [m|] eqn:E; [|reflexivity].
  apply size_match_number_then_quote in E as (tok & r & El & Hq).
  rewrite El, Hq in H. discriminate H.
Qed.

Ltac keep_key :=
  intros; repeat case_match; repeat (rewrite get_set_ne by discriminate); reflexivity.

(** The other rules do not write the size. *)
Lemma other_rules_keep_size (t : string) (a : Dict.dict string) :
  Dict.get "Bucket Size"
    (rule_attachment t (rule_fits_to t (rule_pin_length t (rule_shim t
      (rule_hex t (rule_product_type t (rule_coupler t (rule_weight_class t
        (rule_pin_size t (rule_diameter t a)))))))))) = Dict.get "Bucket Size" a.
Proof.
  assert (H1 : forall a, Dict.get "Bucket Size" (rule_attachment t a) = Dict.get "Bucket Size" a)
    by (unfold rule_attachment; keep_key).
  assert (H2 : forall a, Dict.get "Bucket Size" (rule_fits_to t a) = Dict.get "Bucket Size" a)
    by (unfold rule_fits_to; keep_key).
  assert (H3 : forall a, Dict.get "Bucket Size" (rule_pin_length t a) = Dict.get "Bucket Size" a)
    by (unfold rule_pin_length; keep_key).
  assert (H4 : forall a, Dict.get "Bucket Size" (rule_shim t a) = Dict.get "Bucket Size" a)
    by (unfold rule_shim; keep_key).
  assert (H5 : forall a, Dict.get "Bucket Size" (rule_hex t a) = Dict.get "Bucket Size" a)
    by (unfold rule_hex; keep_key).
  assert (H6 : forall a, Dict.get "Bucket Size" (rule_product_type t a) = Dict.get "Bucket Size" a)
    by (unfold rule_product_type; keep_key).
  assert (H7 : forall a, Dict.get "Bucket Size" (rule_coupler t a) = Dict.get "Bucket Size" a)
    by (unfold rule_coupler; keep_key).
  assert (H8 : forall a, Dict.get "Bucket Size" (rule_weight_class t a) = Dict.get "Bucket Size" a)
    by (unfold rule_weight_class; keep_key).
  assert (H9 : forall a, Dict.get "Bucket Size" (rule_pin_size t a) = Dict.get "Bucket Size" a)
    by (unfold rule_pin_size; keep_key).
  assert (H10 : forall a, Dict.get "Bucket Size" (rule_diameter t a) = Dict.get "Bucket Size" a)
    by (unfold rule_diameter; keep_key).
  now rewrite H1, H2, H3, H4, H5, H6, H7, H8, H9, H10.
Qed.



End SizeGuard.

(** ** The attribute grid *)

Section Grid.
Import GridView.

Lemma matches_all_spec (v : string) (rest : list string) :
  matches_all v rest = true <->
  forall w, w ∈ rest -> NameParser._match_value v w = Some true.
Proof.
  unfold matches_all. rewrite forallb_forall. split; intros H w Hw.
  - apply list_elem_of_In in Hw. specialize (H w Hw).
    destruct (NameParser._match_value v w) as [[]|]; congruence.
  - apply list_elem_of_In in Hw. now rewrite (H w Hw).
Qed.

Lemma all_pairs_match_spec (l : list string) :
  all_pairs_match l = true <->
  forall (i j : nat) (v w : string),
    (i < j)%nat -> l !! i = Some v -> l !! j = Some w ->
    NameParser._match_value v w = Some true.
Proof.
  induction l as [|x l IH]; simpl.
  - split; [intros _ i j v w _ Hi; discriminate Hi|reflexivity].
  - rewrite andb_true_iff, matches_all_spec, IH. split.
    + intros [Hx Hl] i j v w Hij Hi Hj.
      destruct j as [|j]; [lia|]. simpl in Hj. destruct i as [|i]; simpl in Hi.
      * injection Hi as <-. apply Hx. eapply list_elem_of_lookup_2; eassumption.
      * apply (Hl i j); [lia|assumption..].
    + intros H. split.
      * intros w [j Hj]%list_elem_of_lookup_1. apply (H 0%nat (S j)); [lia|reflexivity|exact Hj].
      * intros i j v w Hij Hi Hj. apply (H (S i) (S j)); [lia|assumption..].
Qed.

Lemma all_match_agree (values : list string) :
  _all_match values = true <-> agree values.
Proof.
  unfold _all_match, agree. rewrite <- all_pairs_match_spec.
  assert (Hshort : forall l : list string, (length l <? 2)%nat = true -> all_pairs_match l = true).
  { intros [|a [|b l]] H; try reflexivity. discriminate H. }
  destruct (length values <? 2)%nat eqn:E1.
  - split; [intros _|reflexivity]. apply Hshort.
    apply Nat.ltb_lt in E1. apply Nat.ltb_lt.
    pose proof (length_filter (λ v : string, Py.truthy v && Py.truthy (Py.strip v) = true) values).
    unfold cleaned. lia.
  - destruct (length (cleaned values) <? 2)%nat eqn:E2; [|reflexivity].
    split; [intros _; now apply Hshort|reflexivity].
Qed.

(** C9: the status of a cell.  With [vals] the non-empty values the cell is
    judged on (for a data-only attribute the value from the name is not
    among them): the status is empty when there is none, PARTIAL when there
    is exactly one, and with two or more it is OK when they agree under the
    resolver and MISMATCH when they do not; for a data-only attribute the
    status does not depend on the value from the name. *)
Theorem C9_cell_status (attr name_val zoho_val web_val google_val : string) :
  let vals := status_values attr name_val zoho_val web_val google_val in
  let st := cell_status attr name_val zoho_val web_val google_val in
  vals = filter (fun v => v <> "")
           (if NameParser.mem attr DATA_ONLY_ATTRS
            then [zoho_val; web_val; google_val]
            else [name_val; zoho_val; web_val; google_val]) /\
  (length vals = 0%nat -> st = "") /\
  (length vals = 1%nat -> st = "PARTIAL") /\
  ((2 <= length vals)%nat -> agree vals -> st = "OK") /\
  ((2 <= length vals)%nat -> ~ agree vals -> st = "MISMATCH") /\
  (NameParser.mem attr DATA_ONLY_ATTRS = true ->
   forall other_name : string,
     cell_status attr other_name zoho_val web_val google_val = st).
Proof.
  cbv zeta. unfold cell_status.
  split; [|split; [|split; [|split; [|split]]]].
  - unfold status_values.
    assert (E : forall l : list string,
               filter (fun v => Py.truthy v = true) l = filter (fun v => v <> "") l).
    { intros l. apply list_filter_iff. intros x. apply truthy_nonempty. }
    destruct (NameParser.mem attr DATA_ONLY_ATTRS); apply E.
  - destruct (status_values _ _ _ _ _) as [|a [|b l]]; simpl; intros; (reflexivity || lia).
  - destruct (status_values _ _ _ _ _) as [|a [|b l]]; simpl; intros; (reflexivity || lia).
  - destruct (status_values _ _ _ _ _) as [|a [|b l]] eqn:E; simpl; intros Hlen Hag; try lia.
    apply all_match_agree in Hag. now rewrite Hag.
  - destruct (status_values _ _ _ _ _) as [|a [|b l]] eqn:E; simpl; intros Hlen Hag; try lia.
    destruct (_all_match (a :: b :: l)) eqn:Hm; [|reflexivity].
    apply all_match_agree in Hm. contradiction.
  - intros Hd other. unfold status_values. now rewrite Hd.
Qed.

Lemma C9_cell_status_witness :
  cell_status "Pin Size" "45mm" "45 mm" "" "" = "OK" /\
  cell_status "Pin Size" "45mm" "50 mm" "" "" = "MISMATCH" /\
  cell_status "Drain Holes" "" "Yes" "" "" = cell_status "Drain Holes" "2 holes" "Yes" "" "".
Proof.
  split; [|split].
  - destruct (C9_cell_status "Pin Size" "45mm" "45 mm" "" "") as (_ & _ & _ & Hok & _).
    apply Hok.
    + vm_compute. lia.
    + apply all_match_agree. vm_compute. reflexivity.
  - destruct (C9_cell_status "Pin Size" "45mm" "50 mm" "" "") as (_ & _ & _ & _ & Hmis & _).
    apply Hmis.
    + vm_compute. lia.
    + intros H. apply all_match_agree in H. vm_compute in H. discriminate H.
  - destruct (C9_cell_status "Drain Holes" "2 holes" "Yes" "" "") as (_ & _ & _ & _ & _ & Hdata).
    apply Hdata. vm_compute. reflexivity.
Defined.

End Grid.

(** ** The order on strings *)

Section StringOrder.

Lemma ascii_compare_refl (a : ascii) : Ascii.compare a a = Eq.
Proof. unfold Ascii.compare. apply N.compare_refl. Qed.

Lemma ascii_compare_trans (c : comparison) (a b d : ascii) :
  Ascii.compare a b = c -> Ascii.compare b d = c -> Ascii.compare a d = c.
Proof.
  unfold Ascii.compare. destruct c; intros H1 H2.
  - apply N.compare_eq_iff in H1, H2. apply N.compare_eq_iff. congruence.
  - rewrite N.compare_lt_iff in *. lia.
  - rewrite N.compare_gt_iff in *. lia.
Qed.

Lemma string_compare_lt_trans (a : string) :
  forall b c : string,
    String.compare a b = Lt -> String.compare b c = Lt -> String.compare a c = Lt.
Proof.
  induction a as [|x a IH]; intros [|y b] [|z c]; simpl; try congruence.
  destruct (Ascii.compare x y) eqn:Exy; try discriminate;
    destruct (Ascii.compare y z) eqn:Eyz; try discriminate; intros H1 H2.
  - rewrite (ascii_compare_trans Eq x y z Exy Eyz). eauto.
  - apply Ascii.compare_eq_iff in Exy. subst y. now rewrite Eyz.
  - apply Ascii.compare_eq_iff in Eyz. subst z. now rewrite Exy.
  - now rewrite (ascii_compare_trans Lt x y z Exy Eyz).
Qed.

Lemma str_le_cases (a b : string) :
  Comparator.str_le a b <-> String.compare a b = Lt \/ a = b.
Proof.
  unfold Comparator.str_le, String.leb. split.
  - destruct (String.compare a b) eqn:E; try discriminate; intros _.
    + right. now apply String.compare_eq_iff.
    + now left.
  - intros [-> | ->]; [reflexivity|].
    assert (String.compare b b = Eq) as ->; [|reflexivity].
    induction b as [|x b IH]; simpl; [reflexivity|]. now rewrite ascii_compare_refl.
Qed.

Lemma str_le_trans : Transitive Comparator.str_le.
Proof.
  intros a b c. rewrite !str_le_cases. intros [H1 | ->] [H2 | ->]; auto.
  left. eapply string_compare_lt_trans; eassumption.
Qed.

Lemma str_le_total : Total Comparator.str_le.
Proof. intros a b. apply String.leb_total. Qed.

End StringOrder.

(** ** The merge by SKU *)

Section Merge.
Import Comparator.

(** The six columns of a source are distinct from the SKU column and from
    the columns of every other source. *)
Ltac each_prefix H :=
  unfold column_prefixes in H;
  repeat (apply elem_of_cons in H as [-> | H]); [..|apply elem_of_nil in H; destruct H].

Lemma column_not_sku (pre name : string) :
  pre ∈ column_prefixes -> pre +:+ name <> "sku".
Proof. intros H. each_prefix H; unfold_keys; congruence. Qed.

Lemma column_other_source (pre pre' name name' : string) :
  pre ∈ column_prefixes -> pre' ∈ column_prefixes -> name <> name' ->
  pre +:+ name <> pre' +:+ name'.
Proof. intros H H' Hne. each_prefix H; each_prefix H'; unfold_keys; congruence. Qed.

Lemma column_same_source (pre pre' name : string) :
  pre ∈ column_prefixes -> pre' ∈ column_prefixes -> pre <> pre' ->
  pre +:+ name <> pre' +:+ name.
Proof. intros H H' Hne. each_prefix H; each_prefix H'; unfold_keys; congruence. Qed.


Lemma add_source_columns (k : string) (r : row) (e : string * frame) :
  add_source k r e =
  fold_left store (source_columns (fst e) (first_with_sku k (snd e))) r.
Proof. unfold add_source. destruct (first_with_sku _ _); reflexivity. Qed.

Lemma source_columns_keys (name : string) (first : option product) :
  map fst (source_columns name first) = map (fun pre => pre +:+ name) column_prefixes.
Proof. destruct first; reflexivity. Qed.

Lemma get_fold_store_notin (key : string) (kvs : list (string * pyval)) :
  forall r, key ∉ map fst kvs -> Dict.get key (fold_left store kvs r) = Dict.get key r.
Proof.
  induction kvs as [|[k0 v0] kvs IH]; intros r H; [reflexivity|].
  simpl in *. apply not_elem_of_cons in H as [Hne H].
  rewrite IH by assumption. unfold store. simpl. apply get_set_ne. congruence.
Qed.

Lemma get_fold_store_in (key : string) (v : pyval) (kvs : list (string * pyval)) :
  forall r, NoDup (map fst kvs) -> (key, v) ∈ kvs ->
            Dict.get key (fold_left store kvs r) = Some v.
Proof.
  induction kvs as [|[k0 v0] kvs IH]; intros r Hnd Hin.
  - apply elem_of_nil in Hin. destruct Hin.
  - simpl in Hnd. apply NoDup_cons in Hnd as [Hk0 Hnd].
    apply elem_of_cons in Hin as [[= -> ->] | Hin]; simpl.
    + rewrite get_fold_store_notin by assumption. apply get_set_eq.
    + now apply IH.
Qed.

Lemma source_columns_nodup (name : string) (first : option product) :
  NoDup (map fst (source_columns name first)).
Proof.
  rewrite source_columns_keys. unfold column_prefixes. simpl.
  repeat (apply NoDup_cons; split;
          [rewrite ?not_elem_of_cons; repeat split;
           try apply not_elem_of_nil; unfold_keys; congruence|]).
  apply NoDup_nil. exact I.
Qed.

Lemma source_column_key (name key : string) (v : pyval) (first : option product) :
  (key, v) ∈ source_columns name first ->
  exists pre, pre ∈ column_prefixes /\ key = pre +:+ name.
Proof.
  intros H. assert (Hk : key ∈ map fst (source_columns name first)).
  { apply list_elem_of_In, in_map_iff. exists (key, v).
    split; [reflexivity|now apply list_elem_of_In]. }
  rewrite source_columns_keys in Hk.
  apply list_elem_of_In, in_map_iff in Hk as (pre & <- & Hpre).
  exists pre. split; [now apply list_elem_of_In|reflexivity].
Qed.

(** A key that is no column of the sources passed is left as it is. *)
Lemma merged_frame (k key : string) (sources : Dict.dict frame) :
  forall r,
    (forall e pre, e ∈ sources -> pre ∈ column_prefixes -> pre +:+ fst e <> key) ->
    Dict.get key (fold_left (add_source k) sources r) = Dict.get key r.
Proof.
  induction sources as [|e sources IH]; intros r H; [reflexivity|].
  simpl. rewrite IH by (intros; apply H; [now apply list_elem_of_further|assumption]).
  rewrite add_source_columns. apply get_fold_store_notin.
  rewrite source_columns_keys. intros Hin.
  apply list_elem_of_In, in_map_iff in Hin as (pre & E & Hpre).
  apply (H e pre); [apply list_elem_of_here|now apply list_elem_of_In|exact E].
Qed.

(** The columns of a source hold what that source wrote. *)
Lemma merged_cell (k key : string) (v : pyval) (S : string) (df : frame)
    (sources : Dict.dict frame) :
  forall r,
    NoDup (Dict.keys sources) -> (S, df) ∈ sources ->
    (key, v) ∈ source_columns S (first_with_sku k df) ->
    Dict.get key (fold_left (add_source k) sources r) = Some v.
Proof.
  induction sources as [|e sources IH]; intros r Hnd Hin Hkv.
  - apply elem_of_nil in Hin. destruct Hin.
  - unfold Dict.keys in Hnd. simpl in Hnd. apply NoDup_cons in Hnd as [He Hnd].
    apply elem_of_cons in Hin as [<- | Hin]; simpl.
    + destruct (source_column_key _ _ _ _ Hkv) as (pre & Hpre & ->).
      rewrite merged_frame.
      * rewrite add_source_columns. apply get_fold_store_in; [|exact Hkv].
        apply source_columns_nodup.
      * intros e' pre' He' Hpre'. apply column_other_source; try assumption.
        intros E. apply He. simpl. apply list_elem_of_In, in_map_iff.
        exists e'. split; [exact E|now apply list_elem_of_In].
    + now apply IH.
Qed.

Lemma merged_row_sku (sources : Dict.dict frame) (k : string) :
  Dict.get "sku" (merged_row sources k) = Some (VStr k).
Proof.
  unfold merged_row. rewrite merged_frame; [reflexivity|].
  intros e pre _ Hpre. now apply column_not_sku.
Qed.

Lemma first_with_sku_first (k : string) (pre post : frame) (first : product) :
  sku first = k -> (forall q, q ∈ pre -> sku q <> k) ->
  first_with_sku k (pre ++ first :: post)%list = Some first.
Proof.
  intros Hk Hpre. unfold first_with_sku. induction pre as [|q pre IH]; simpl.
  - apply String.eqb_eq in Hk. now rewrite Hk.
  - assert (sku q <> k) as ->%String.eqb_neq by (apply Hpre, list_elem_of_here).
    apply IH. intros q' Hq'. apply Hpre. now apply list_elem_of_further.
Qed.

Lemma first_with_sku_some (k : string) (df : frame) :
  is_Some (first_with_sku k df) <-> exists p, p ∈ df /\ sku p = k.
Proof.
  unfold first_with_sku. split.
  - intros [p Hp]. apply find_some in Hp as [Hin Hk].
    exists p. split; [now apply list_elem_of_In|now apply String.eqb_eq].
  - intros (p & Hin & Hk). destruct (find _ df) as [q|] eqn:E; [eauto|].
    apply list_elem_of_In in Hin. apply (find_none _ _ E) in Hin.
    apply String.eqb_neq in Hin. contradiction.
Qed.

(** The SKUs collected from the sources. *)
Lemma elem_of_nonempty_skus (k : string) (df : frame) :
  k ∈ nonempty_skus df <-> k <> "" /\ exists p, p ∈ df /\ sku p = k.
Proof.
  unfold nonempty_skus. rewrite elem_of_remove_dups, list_elem_of_filter.
  rewrite truthy_nonempty. split.
  - intros [Hne (p & <- & Hp)%list_elem_of_In%in_map_iff].
    split; [assumption|]. exists p. split; [now apply list_elem_of_In|reflexivity].
  - intros [Hne (p & Hp & <-)]. split; [assumption|].
    apply list_elem_of_In, in_map_iff. exists p. split; [reflexivity|now apply list_elem_of_In].
Qed.

Lemma elem_of_all_skus (k : string) (sources : Dict.dict frame) :
  k ∈ all_skus sources <->
  k <> "" /\ exists S df p, (S, df) ∈ sources /\ p ∈ df /\ sku p = k.
Proof.
  unfold all_skus.
  assert (G : forall acc : gset string,
             k ∈ fold_left (fun acc e => acc ∪ list_to_set (nonempty_skus (snd e))) sources acc
             <-> k ∈ acc \/ exists e, e ∈ sources /\ k ∈ nonempty_skus (snd e)).
  { induction sources as [|e sources IH]; intros acc; simpl.
    - split; [auto|]. intros [H | (e & He & _)]; [assumption|].
      apply elem_of_nil in He. destruct He.
    - rewrite IH, elem_of_union, elem_of_list_to_set. split.
      + intros [[H | H] | (e' & He' & H)]; [auto| |].
        * right. exists e. split; [apply list_elem_of_here|assumption].
        * right. exists e'. split; [now apply list_elem_of_further|assumption].
      + intros [H | (e' & He' & H)]; [auto|].
        apply elem_of_cons in He' as [-> | He']; [auto|]. right. eauto. }
  rewrite G. split.
  - intros [H | ([S df] & He & H)]; [now apply elem_of_empty in H|].
    apply elem_of_nonempty_skus in H as [Hne (p & Hp & Hk)].
    split; [assumption|]. exists S, df, p. auto.
  - intros [Hne (S & df & p & He & Hp & Hk)]. right. exists (S, df).
    split; [assumption|]. apply elem_of_nonempty_skus. split; [assumption|]. eauto.
Qed.

Lemma elem_of_sorted (k : string) (skus : gset string) : k ∈ sorted skus <-> k ∈ skus.
Proof. unfold sorted. now rewrite merge_sort_Permutation, elem_of_elements. Qed.

Lemma sorted_nodup (skus : gset string) : NoDup (sorted skus).
Proof. unfold sorted. rewrite merge_sort_Permutation. apply NoDup_elements. Qed.

Lemma sorted_ascending (skus : gset string) : StronglySorted str_le (sorted skus).
Proof. apply StronglySorted_merge_sort; [apply str_le_trans|apply str_le_total]. Qed.


Lemma merge_by_sku_rows (sources : Dict.dict frame) :
  merge_by_sku sources = map (merged_row sources) (sorted (all_skus sources)).
Proof.
  destruct sources as [|e sources]; [|reflexivity].
  unfold merge_by_sku, sorted, all_skus. simpl. now rewrite elements_empty.
Qed.



End Merge.

(** ** Floating point *)

Section FloatFacts.
Import Fl.
Open Scope Z_scope.

Lemma shr_1_nonneg (mrs : shr_record) : 0 <= shr_m mrs -> 0 <= shr_m (shr_1 mrs).
Proof. destruct mrs as [[|[p|p|]|p] r s]; simpl; lia. Qed.

Lemma iter_pos_nonneg (p : positive) :
  forall mrs, 0 <= shr_m mrs -> 0 <= shr_m (SpecFloat.iter_pos shr_1 p mrs).
Proof.
  induction p as [p IH|p IH|]; intros mrs H; simpl.
  - apply IH, IH, shr_1_nonneg, H.
  - apply IH, IH, H.
  - apply shr_1_nonneg, H.
Qed.

Lemma shr_fexp_nonneg (m e : Z) (l : location) :
  0 <= m -> 0 <= shr_m (fst (shr_fexp prec emax m e l)).
Proof.
  intros H. unfold shr_fexp, shr.
  assert (H0 : 0 <= shr_m (shr_record_of_loc m l)) by (destruct l as [|[]]; exact H).
  destruct (fexp prec emax (Zdigits2 m + e) - e); simpl; try exact H0.
  now apply iter_pos_nonneg.
Qed.

Lemma round_nearest_even_nonneg (m : Z) (l : location) :
  0 <= m -> 0 <= round_nearest_even m l.
Proof. intros H. destruct l as [|[]]; simpl; try destruct (Z.even m); lia. Qed.

(** Rounding a non-negative mantissa never yields NaN. *)
Lemma binary_round_aux_not_nan (sx : bool) (mx ex : Z) (lx : location) :
  0 <= mx -> is_nan (binary_round_aux prec emax sx mx ex lx) = false.
Proof.
  intros H. unfold binary_round_aux.
  pose proof (shr_fexp_nonneg mx ex lx H) as H1.
  destruct (shr_fexp prec emax mx ex lx) as [mrs' e']. simpl in H1.
  pose proof (shr_fexp_nonneg _ e' loc_Exact
                (round_nearest_even_nonneg _ (loc_of_shr_record mrs') H1)) as H2.
  destruct (shr_fexp prec emax _ e' loc_Exact) as [mrs'' e'']. simpl in H2.
  destruct (shr_m mrs''); try reflexivity; [|lia].
  now destruct (e'' <=? emax - prec).
Qed.

Lemma binary_normalize_not_nan (m e : Z) (szero : bool) :
  is_nan (binary_normalize prec emax m e szero) = false.
Proof.
  destruct m; simpl; [reflexivity| |]; unfold binary_round;
    destruct (shl_align _ _ _); apply binary_round_aux_not_nan; lia.
Qed.

(** The difference of two numbers is not NaN. *)
Lemma sub_not_nan (x y : float) :
  is_finite x = true -> is_finite y = true -> is_nan (sub x y) = false.
Proof.
  destruct x as [sx|sx| |sx mx ex], y as [sy|sy| |sy my ey]; try discriminate; intros _ _;
    unfold sub; simpl; try reflexivity.
  - now destruct sx, sy.
  - apply binary_normalize_not_nan.
Qed.

(** A positive number divides anything but NaN, and the quotient times a
    number is not NaN either. *)
Lemma div_not_nan (x y : float) :
  is_nan x = false -> is_finite y = true -> gtb y (S754_zero false) = true ->
  is_nan (div x y) = false.
Proof.
  destruct y as [sy|sy| |sy my ey]; try discriminate.
  destruct x as [sx|sx| |sx mx ex]; try discriminate; intros _ _ _;
    unfold div; simpl; try reflexivity.
  unfold SFdiv_core_binary.
  set (m' := match _ - _ - _ with Z0 => _ | Zpos _ => _ | Zneg _ => _ end).
  assert (Hm : 0 <= m').
  { subst m'. destruct (_ - _ - _); try lia. apply Z.shiftl_nonneg. lia. }
  pose proof (Z.div_pos m' (Zpos my) Hm eq_refl) as Hq. unfold Z.div in Hq.
  destruct (Z.div_eucl m' (Z.pos my)) as [q r]. now apply binary_round_aux_not_nan.
Qed.

Lemma mul_not_nan (x : float) (sy : bool) (my : positive) (ey : Z) :
  is_nan x = false -> is_nan (mul x (S754_finite sy my ey)) = false.
Proof.
  destruct x as [sx|sx| |sx mx ex]; try discriminate; intros _;
    unfold mul; simpl; try reflexivity.
  apply binary_round_aux_not_nan. lia.
Qed.

Lemma compare_antisym (x y : float) :
  SFcompare y x = option_map CompOpp (SFcompare x y).
Proof.
  destruct x as [sx|sx| |sx mx ex], y as [sy|sy| |sy my ey]; simpl;
    try reflexivity; try (destruct sx; reflexivity); try (destruct sy; reflexivity);
    try (destruct sx, sy; reflexivity).
  pose proof (Pos.compare_cont_antisym mx my Eq) as H. simpl in H.
  destruct sx, sy; simpl; try reflexivity; rewrite (Z.compare_antisym ex ey);
    destruct (ex ?= ey); simpl; try reflexivity; rewrite <- H;
    now destruct (Pos.compare_cont Eq mx my).
Qed.

Lemma compare_some (x y : float) :
  is_nan x = false -> is_nan y = false -> exists c, SFcompare x y = Some c.
Proof. destruct x, y; try discriminate; intros _ _; simpl; eauto. Qed.

(** On numbers that are not NaN, [not (x <= y)] is [x > y]. *)
Lemma leb_false_gtb (x y : float) :
  is_nan x = false -> is_nan y = false -> (leb x y = false <-> gtb x y = true).
Proof.
  intros Hx Hy. unfold leb, gtb, SFleb, SFltb. rewrite (compare_antisym x y).
  destruct (compare_some x y Hx Hy) as [c ->]. destruct c; simpl; split; congruence.
Qed.

(** For a tolerance that is not negative, non-zero means positive. *)
Lemma nonneg_nonzero_pos (t : float) :
  leb (S754_zero false) t = true ->
  (eqb t (S754_zero false) = false <-> gtb t (S754_zero false) = true).
Proof.
  unfold leb, eqb, gtb, SFleb, SFeqb, SFltb.
  destruct t as [s|s| |s m e]; simpl; try destruct s; simpl; split; congruence.
Qed.

Lemma nonneg_not_nan (t : float) : leb (S754_zero false) t = true -> is_nan t = false.
Proof. now destruct t. Qed.

Lemma finite_not_nan (x : float) : is_finite x = true -> is_nan x = false.
Proof. now destruct x. Qed.

Lemma py_max_in (l : list float) : forall x, py_max x l ∈ x :: l.
Proof.
  unfold py_max. induction l as [|y l IH]; intros x; simpl; [apply list_elem_of_here|].
  specialize (IH (if gtb y x then y else x)).
  apply elem_of_cons in IH as [-> | IH].
  - destruct (gtb y x); [apply list_elem_of_further|]; apply list_elem_of_here.
  - now do 2 apply list_elem_of_further.
Qed.

Lemma py_min_in (l : list float) : forall x, py_min x l ∈ x :: l.
Proof.
  unfold py_min. induction l as [|y l IH]; intros x; simpl; [apply list_elem_of_here|].
  specialize (IH (if ltb y x then y else x)).
  apply elem_of_cons in IH as [-> | IH].
  - destruct (ltb y x); [apply list_elem_of_further|]; apply list_elem_of_here.
  - now do 2 apply list_elem_of_further.
Qed.

Lemma max_of_in (l : list float) : l <> [] -> max_of l ∈ l.
Proof. destruct l; [congruence|]. intros _. apply py_max_in. Qed.

Lemma min_of_in (l : list float) : l <> [] -> min_of l ∈ l.
Proof. destruct l; [congruence|]. intros _. apply py_min_in. Qed.

End FloatFacts.

(** ** The price detector *)

Section Prices.
Import Comparator.

Lemma row_prices_length (source_names : list string) (r : row) :
  length (row_prices source_names r) =
  length (filter (fun s => has_price r s = true) source_names).
Proof.
  induction source_names as [|s names IH]; [reflexivity|].
  simpl row_prices. rewrite filter_cons.
  destruct (has_price r s) eqn:Hp; unfold has_price in Hp.
  - rewrite decide_True by reflexivity.
    apply andb_true_iff in Hp as [-> [f ->]%bool_decide_eq_true]. simpl. now rewrite IH.
  - rewrite decide_False by discriminate.
    destruct (truthy (row_get ("in_" +:+ s) (VBool false) r)); [|exact IH].
    destruct (float_cell (row_get ("price_" +:+ s) VNone r)) as [f|]; [|exact IH].
    rewrite andb_true_l in Hp. apply bool_decide_eq_false in Hp.
    exfalso. apply Hp. eauto.
Qed.

Lemma price_columns_keep_diff (prices : Dict.dict Fl.float) (source_names : list string) :
  forall d : row,
    "diff" ∉ source_names ->
    Dict.get "price_diff"
      (fold_left (fun d s => Dict.set ("price_" +:+ s) (of_price (Dict.get s prices)) d)
                 source_names d) = Dict.get "price_diff" d.
Proof.
  induction source_names as [|s names IH]; intros d H; [reflexivity|].
  apply not_elem_of_cons in H as [Hs H]. simpl. rewrite IH by assumption.
  apply get_set_ne. unfold_keys. congruence.
Qed.

End Prices.

(** ** The name detector *)

Section NamesFacts.
Import Comparator.
Variable fuzz_ratio : string -> string -> Z.

Lemma has_diff_spec (cfg : config) (names : list string) :
  has_diff fuzz_ratio cfg names = true <->
  exists (i j : nat) (n1 n2 : string),
    (i < j)%nat /\ names !! i = Some n1 /\ names !! j = Some n2 /\
    close_not_equal fuzz_ratio cfg n1 n2 = true.
Proof.
  induction names as [|x names IH]; simpl.
  - split; [discriminate|]. intros (i & j & n1 & n2 & _ & Hi & _). discriminate Hi.
  - rewrite orb_true_iff, existsb_exists, IH. split.
    + intros [(n2 & Hin & Hc) | (i & j & n1 & n2 & Hij & Hi & Hj & Hc)].
      * apply list_elem_of_In, list_elem_of_lookup_1 in Hin as [j Hj].
        exists 0%nat, (S j), x, n2. repeat split; [lia|assumption..].
      * exists (S i), (S j), n1, n2. repeat split; [lia|assumption..].
    + intros (i & j & n1 & n2 & Hij & Hi & Hj & Hc).
      destruct j as [|j]; [lia|]. simpl in Hj. destruct i as [|i]; simpl in Hi.
      * injection Hi as <-. left. exists n2. split; [|assumption].
        eapply list_elem_of_In, list_elem_of_lookup_2; eassumption.
      * right. exists i, j, n1, n2. repeat split; [lia|assumption..].
Qed.

Lemma row_names_keys (source_names : list string) (r : row) :
  Dict.keys (row_names source_names r) =
  filter (fun s => has_name r s = true) source_names.
Proof.
  induction source_names as [|s names IH]; [reflexivity|].
  simpl row_names. rewrite filter_cons.
  destruct (has_name r s) eqn:Hp; unfold has_name in Hp.
  - rewrite decide_True by reflexivity.
    apply andb_true_iff in Hp as [-> [n ->]%bool_decide_eq_true].
    unfold Dict.keys in *. simpl. now rewrite IH.
  - rewrite decide_False by discriminate.
    destruct (truthy (row_get ("in_" +:+ s) (VBool false) r)); [|exact IH].
    destruct (str_cell (row_get ("name_" +:+ s) VNone r)) as [n|]; [|exact IH].
    rewrite andb_true_l in Hp. apply bool_decide_eq_false in Hp.
    exfalso. apply Hp. eauto.
Qed.

(** The detector on one row: it gives a row exactly when some pair of the
    names it collected, compared in lower case, has a similarity below 100
    and at or above the threshold. *)
Lemma name_difference_pairs (cfg : config) (source_names : list string) (r : row) :
  let names := Dict.values (row_names source_names r) in
  length names = length (filter (fun s => has_name r s = true) source_names) /\
  (is_Some (name_difference fuzz_ratio cfg source_names r) <->
   exists (i j : nat) (n1 n2 : string),
     (i < j)%nat /\ names !! i = Some n1 /\ names !! j = Some n2 /\
     (fuzz_ratio (Py.lower n1) (Py.lower n2) < 100)%Z /\
     (FUZZY_MATCH_THRESHOLD cfg <= fuzz_ratio (Py.lower n1) (Py.lower n2))%Z).
Proof.
  cbv zeta. split.
  { rewrite <- row_names_keys. unfold Dict.values, Dict.keys. now rewrite !length_map. }
  assert (Hpair : (exists (i j : nat) (n1 n2 : string),
             (i < j)%nat /\ Dict.values (row_names source_names r) !! i = Some n1 /\
             Dict.values (row_names source_names r) !! j = Some n2 /\
             (fuzz_ratio (Py.lower n1) (Py.lower n2) < 100)%Z /\
             (FUZZY_MATCH_THRESHOLD cfg <= fuzz_ratio (Py.lower n1) (Py.lower n2))%Z)
          <-> has_diff fuzz_ratio cfg (Dict.values (row_names source_names r)) = true).
  { rewrite has_diff_spec. unfold close_not_equal.
    split; intros (i & j & n1 & n2 & Hij & Hi & Hj & H); exists i, j, n1, n2;
      repeat split; try assumption.
    - destruct H as [H1 H2]. apply andb_true_iff. split; [now apply Z.ltb_lt|now apply Z.leb_le].
    - apply andb_true_iff in H as [H _]. now apply Z.ltb_lt.
    - apply andb_true_iff in H as [_ H]. now apply Z.leb_le. }
  rewrite Hpair. unfold name_difference.
  destruct (length (row_names source_names r) <? 2)%nat eqn:E.
  - split; [intros [? [=]]|]. intros Hd. exfalso. apply has_diff_spec in Hd.
    destruct Hd as (i & j & n1 & n2 & Hij & Hi & Hj & _).
    apply lookup_lt_Some in Hj. unfold Dict.values in Hj. rewrite length_map in Hj.
    apply Nat.ltb_lt in E. lia.
  - destruct (has_diff fuzz_ratio cfg (Dict.values (row_names source_names r)));
      split; eauto; try discriminate. intros [? [=]].
Qed.

End NamesFacts.

(** ** The weight comparison *)

Section Weights.
Import Comparator.

(** The spread of equal values is within the tolerance, whatever they are. *)
Lemma sub_self_within (x : Fl.float) : Fl.gtb (Fl.sub x x) half = false.
Proof.
  destruct x as [s|s| |s m e]; try (destruct s; reflexivity); try reflexivity.
  unfold Fl.sub. simpl. rewrite Z.sub_diag. reflexivity.
Qed.

Lemma values_set {V} (k : string) (v : V) (d : Dict.dict V) (x : V) :
  x ∈ Dict.values (Dict.set k v d) -> x = v \/ x ∈ Dict.values d.
Proof.
  unfold Dict.values. induction d as [|[k0 v0] d IH]; simpl.
  - intros ->%list_elem_of_singleton. now left.
  - destruct (String.eqb k0 k); simpl; rewrite !elem_of_cons.
    + intros [-> | H]; auto.
    + intros [-> | H]; auto. destruct (IH H); auto.
Qed.

Lemma add_weight_values (present : list string) (src : string) (c : cache)
    (k key : string) (weights : Dict.dict Fl.float) (x : Fl.float) :
  x ∈ Dict.values (add_weight present src c k key weights) ->
  (_parse_weight (cache_get c k key) = Some x /\ Fl.truthy x = true)
  \/ x ∈ Dict.values weights.
Proof.
  unfold add_weight. destruct (_ && _); [|auto].
  destruct (_parse_weight (cache_get c k key)) as [w|]; [|auto].
  destruct (Fl.truthy w) eqn:T; [|auto].
  intros [-> | H]%values_set; auto.
Qed.

Lemma all_equal_extremes (X : Fl.float) (l : list Fl.float) :
  l <> [] -> (forall x, x ∈ l -> x = X) -> Fl.max_of l = X /\ Fl.min_of l = X.
Proof.
  intros Hne H. split; apply H; [now apply max_of_in|now apply min_of_in].
Qed.

Lemma value_columns_keep_attribute (vals : Dict.dict Fl.float) (source_names : list string) :
  forall d : row,
    Dict.get "attribute"
      (fold_left (fun dr s => Dict.set ("value_" +:+ s)
                                (float_or_empty (Dict.get s vals)) dr)
                 source_names d) = Dict.get "attribute" d.
Proof.
  induction source_names as [|s names IH]; intros d; [reflexivity|].
  simpl. rewrite IH. apply get_set_ne. unfold_keys. congruence.
Qed.

Lemma spread_diff_label (label : string) (vals : Dict.dict Fl.float) (d : attr_diff) :
  spread_diff label vals = Some d -> attribute d = label.
Proof.
  unfold spread_diff. destruct (2 <=? _)%nat; [|discriminate].
  destruct (Fl.gtb _ _); [|discriminate]. now intros [= <-].
Qed.

(** C10: a weight that parses to zero is not stored in the comparison set;
    so when every weight parsed for a product is a zero or one value [X],
    the set holds no value but [X], the weight comparison finds no
    difference, and no row for the attribute "Weight (lb)" is emitted. *)
Theorem C10_zero_weight_is_no_weight (source_names : list string)
    (zoho_attrs web_attrs google_attrs : cache) (r : row) (X : Fl.float) :
  let k := match row_get "sku" VNone r with VStr k => k | _ => "" end in
  let present :=
    filter (fun s => truthy (row_get ("in_" +:+ s) (VBool false) r) = true)
           source_names in
  let weights := weight_values present k zoho_attrs web_attrs google_attrs in
  (forall w,
     Some w ∈ [_parse_weight (cache_get zoho_attrs k "weight");
               _parse_weight (cache_get web_attrs k "weight");
               _parse_weight (cache_get google_attrs k "weight_lb")] ->
     Fl.truthy w = false \/ w = X) ->
  (forall w, w ∈ Dict.values weights -> Fl.truthy w = true /\ w = X) /\
  weight_diff present k zoho_attrs web_attrs google_attrs = None /\
  (forall d, d ∈ attribute_differences source_names zoho_attrs web_attrs google_attrs r ->
             Dict.get "attribute" d <> Some (VStr "Weight (lb)")).
Proof.
  intros k present weights H.
  assert (Hvals : forall w, w ∈ Dict.values weights -> Fl.truthy w = true /\ w = X).
  { intros w Hw. unfold weights, weight_values in Hw.
    assert (Hp : exists o, o ∈ [_parse_weight (cache_get zoho_attrs k "weight");
                                _parse_weight (cache_get web_attrs k "weight");
                                _parse_weight (cache_get google_attrs k "weight_lb")]
                          /\ o = Some w /\ Fl.truthy w = true).
    { apply add_weight_values in Hw as [[E T] | Hw].
      { eexists. split; [|split; [exact E|exact T]].
        do 2 apply list_elem_of_further. apply list_elem_of_here. }
      apply add_weight_values in Hw as [[E T] | Hw].
      { eexists. split; [|split; [exact E|exact T]].
        apply list_elem_of_further. apply list_elem_of_here. }
      apply add_weight_values in Hw as [[E T] | Hw].
      { eexists. split; [|split; [exact E|exact T]]. apply list_elem_of_here. }
      now apply elem_of_nil in Hw. }
    destruct Hp as (o & Ho & -> & T). split; [exact T|].
    destruct (H w Ho) as [Hz | ->]; [congruence|reflexivity]. }
  assert (Hnone : weight_diff present k zoho_attrs web_attrs google_attrs = None).
  { unfold weight_diff, spread_diff. fold weights.
    destruct (2 <=? length weights)%nat eqn:E; [|reflexivity].
    assert (Hne : Dict.values weights <> []).
    { apply Nat.leb_le in E. unfold Dict.values. destruct weights; simpl in *; [lia|discriminate]. }
    destruct (all_equal_extremes X (Dict.values weights) Hne) as [-> ->].
    - intros x Hx. now apply Hvals.
    - now rewrite sub_self_within. }
  repeat split; try assumption; try (now apply Hvals).
  intros d Hd. unfold attribute_differences in Hd. fold k in Hd. fold present in Hd.
  destruct (length present <? 2)%nat; [now apply elem_of_nil in Hd|].
  rewrite Hnone in Hd. simpl in Hd.
  apply list_elem_of_In, in_map_iff in Hd as (a & <- & Ha).
  rewrite value_columns_keep_attribute. simpl.
  intros [= E]. apply in_app_or in Ha as [Ha | Ha].
  - destruct (shipping_weight_diff present k zoho_attrs google_attrs) as [a'|] eqn:Es;
      [|destruct Ha].
    destruct Ha as [<- | []]. unfold shipping_weight_diff in Es.
    apply spread_diff_label in Es. rewrite Es in E. discriminate E.
  - unfold dimension_diffs in Ha. destruct (2 <=? _)%nat; [|destruct Ha].
    apply list_elem_of_In, list_elem_of_omap in Ha as ([label proj] & Hl & Es).
    apply spread_diff_label in Es. rewrite Es in E.
    rewrite !append_cons in E. discriminate E.
Qed.

Lemma C10_zero_weight_is_no_weight_witness :
  let r := merged_row example_sources "SKU-100" in
  let X := Fl.of_decimal 17023 2 in
  _parse_weight (cache_get example_zoho_attrs "SKU-100" "weight") = Some (S754_zero false) /\
  (forall w,
     Some w ∈ [_parse_weight (cache_get example_zoho_attrs "SKU-100" "weight");
               _parse_weight (cache_get example_web_attrs "SKU-100" "weight");
               _parse_weight (cache_get example_google_attrs "SKU-100" "weight_lb")] ->
     Fl.truthy w = false \/ w = X) /\
  weight_diff ["zoho"; "website"] "SKU-100"
    example_zoho_attrs example_web_attrs example_google_attrs = None.
Proof.
  cbv zeta.
  assert (H : forall w,
     Some w ∈ [_parse_weight (cache_get example_zoho_attrs "SKU-100" "weight");
               _parse_weight (cache_get example_web_attrs "SKU-100" "weight");
               _parse_weight (cache_get example_google_attrs "SKU-100" "weight_lb")] ->
     Fl.truthy w = false \/ w = Fl.of_decimal 17023 2).
  { intros w Hw. vm_compute in Hw.
    repeat (apply elem_of_cons in Hw as [Hw | Hw]); try discriminate Hw.
    - injection Hw as ->. now left.
    - injection Hw as ->. right. vm_compute. reflexivity.
    - now apply elem_of_nil in Hw. }
  split; [vm_compute; reflexivity|]. split; [exact H|].
  pose proof (C10_zero_weight_is_no_weight
                (Dict.keys example_sources)
                example_zoho_attrs example_web_attrs example_google_attrs
                (merged_row example_sources "SKU-100")
                (Fl.of_decimal 17023 2)) as T.
  cbv zeta in T.
  assert (E1 : match row_get "sku" VNone (merged_row example_sources "SKU-100") with
               | VStr k => k | _ => "" end = "SKU-100") by (vm_compute; reflexivity).
  assert (E2 : filter (fun s => truthy (row_get ("in_" +:+ s) (VBool false)
                                          (merged_row example_sources "SKU-100")) = true)
                 (Dict.keys example_sources) = ["zoho"; "website"])
    by (vm_compute; reflexivity).
  rewrite E1, E2 in T. destruct (T H) as (_ & Hnone & _). exact Hnone.
Defined.

End Weights.

(** ** Escaping *)

Section EscapeFacts.

Lemma replace_chr_cons (c x : ascii) (new t : string) :
  Py.replace (String c "") new (String x t) =
  if Ascii.eqb c x then new +:+ Py.replace (String c "") new t
  else String x (Py.replace (String c "") new t).
Proof.
  unfold Py.replace. simpl. rewrite andb_true_r.
  destruct (Ascii.eqb c x); reflexivity.
Qed.

Lemma replace_chr_nil (c : ascii) (new : string) : Py.replace (String c "") new "" = "".
Proof. reflexivity. Qed.

Lemma contains_chr_app (c : ascii) (a b : string) :
  Py.contains (Py.chr c) (a +:+ b) = Py.contains (Py.chr c) a || Py.contains (Py.chr c) b.
Proof.
  induction a as [|x a IH].
  - rewrite append_nil, contains_chr_nil. reflexivity.
  - rewrite append_cons, !contains_chr_cons, IH, orb_assoc. reflexivity.
Qed.

Lemma replace_chr_removes (c : ascii) (new s : string) :
  Py.contains (Py.chr c) new = false ->
  Py.contains (Py.chr c) (Py.replace (String c "") new s) = false.
Proof.
  intros Hn. induction s as [|x t IH]; [reflexivity|].
  rewrite replace_chr_cons. destruct (Ascii.eqb c x) eqn:E.
  - rewrite contains_chr_app, Hn, IH. reflexivity.
  - rewrite contains_chr_cons, E, IH. reflexivity.
Qed.

Lemma replace_chr_keeps (d c : ascii) (new s : string) :
  Py.contains (Py.chr d) new = false -> Py.contains (Py.chr d) s = false ->
  Py.contains (Py.chr d) (Py.replace (String c "") new s) = false.
Proof.
  intros Hn. induction s as [|x t IH]; [reflexivity|].
  rewrite contains_chr_cons. intros [E Ht]%orb_false_elim.
  rewrite replace_chr_cons. destruct (Ascii.eqb c x).
  - rewrite contains_chr_app, Hn, IH by exact Ht. reflexivity.
  - rewrite contains_chr_cons, E, IH by exact Ht. reflexivity.
Qed.

Lemma replace_chr_id (c : ascii) (new s : string) :
  Py.contains (Py.chr c) s = false -> Py.replace (String c "") new s = s.
Proof.
  induction s as [|x t IH]; [reflexivity|].
  rewrite contains_chr_cons. intros [E Ht]%orb_false_elim.
  rewrite replace_chr_cons, E, IH by exact Ht. reflexivity.
Qed.

(** X1: the text [_esc] returns holds no [<], no [>] and no double quote;
    the copy of [_esc] in [grid_view.py] returns the same text as the one in
    [report_html.py]; a text without [&], [<], [>] and double quote is
    returned as it is. *)
Theorem esc_no_markup (text : string) :
  (forall c : ascii, c = "<"%char \/ c = ">"%char \/ c = Py.dq ->
     Py.contains (Py.chr c) (ReportHtml._esc text) = false) /\
  GridView._esc text = ReportHtml._esc text /\
  ((forall c : ascii, c = "&"%char \/ c = "<"%char \/ c = ">"%char \/ c = Py.dq ->
      Py.contains (Py.chr c) text = false) ->
   ReportHtml._esc text = text).
Proof.
  split; [|split].
  - intros c Hc. unfold ReportHtml._esc, Py.chr.
    destruct Hc as [->|[->| ->]].
    + apply (replace_chr_keeps "<"); [reflexivity|].
      apply (replace_chr_keeps "<"); [reflexivity|].
      apply (replace_chr_removes "<"). reflexivity.
    + apply (replace_chr_keeps ">"); [reflexivity|].
      apply (replace_chr_removes ">"). reflexivity.
    + apply (replace_chr_removes Py.dq). reflexivity.
  - destruct text; reflexivity.
  - intros H. unfold ReportHtml._esc, Py.chr.
    rewrite (replace_chr_id "&") by (apply H; auto).
    rewrite (replace_chr_id "<") by (apply H; auto).
    rewrite (replace_chr_id ">") by (apply H; auto).
    apply replace_chr_id. apply H; auto.
Qed.

End EscapeFacts.

(** ** The cleaning of the loaders *)

Section CleaningFacts.
Import Loaders.

Lemma lstrip_head (p : ascii -> bool) (s : string) :
  Py.lstrip_with p s = "" \/
  exists c t, Py.lstrip_with p s = String c t /\ p c = false.
Proof.
  induction s as [|c t IH]; [now left|].
  simpl. destruct (p c) eqn:E; [exact IH|]. right. now exists c, t.
Qed.

Lemma rstrip_cons_keep (p : ascii -> bool) (c : ascii) (t : string) :
  p c = false -> exists t', Py.rstrip_with p (String c t) = String c t'.
Proof.
  intros E. simpl. destruct (Py.rstrip_with p t); rewrite ?E; eauto.
Qed.

Lemma strip_head (s : string) :
  Py.strip s = "" \/ exists c t, Py.strip s = String c t /\ Py.is_space c = false.
Proof.
  unfold Py.strip. destruct (lstrip_head Py.is_space s) as [->|(c & t & -> & E)].
  - now left.
  - right. destruct (rstrip_cons_keep Py.is_space c t E) as [t' ->]. now exists c, t'.
Qed.

Lemma strip_idem (s : string) : Py.strip (Py.strip s) = Py.strip s.
Proof.
  destruct (strip_head s) as [->|(c & t & E & Hc)]; [reflexivity|].
  unfold Py.strip at 1. rewrite E. simpl Py.lstrip_with. rewrite Hc, <- E.
  unfold Py.strip. apply rstrip_idem.
Qed.

Lemma upper_char_space (c : ascii) : Py.is_space (Py.upper_char c) = Py.is_space c.
Proof. destruct c as [[] [] [] [] [] [] [] []]; reflexivity. Qed.

Lemma lstrip_upper (s : string) :
  Py.lstrip_with Py.is_space (Py.upper s) = Py.upper (Py.lstrip_with Py.is_space s).
Proof.
  induction s as [|c t IH]; [reflexivity|].
  simpl. rewrite upper_char_space. destruct (Py.is_space c); [exact IH|reflexivity].
Qed.

Lemma rstrip_upper (s : string) :
  Py.rstrip_with Py.is_space (Py.upper s) = Py.upper (Py.rstrip_with Py.is_space s).
Proof.
  induction s as [|c t IH]; [reflexivity|].
  simpl. rewrite IH, upper_char_space.
  destruct (Py.rstrip_with Py.is_space t); simpl; [destruct (Py.is_space c)|]; reflexivity.
Qed.

Lemma strip_upper (s : string) : Py.strip (Py.upper s) = Py.upper (Py.strip s).
Proof. unfold Py.strip. now rewrite lstrip_upper, rstrip_upper. Qed.

Lemma upper_char_idem (c : ascii) : Py.upper_char (Py.upper_char c) = Py.upper_char c.
Proof. destruct c as [[] [] [] [] [] [] [] []]; reflexivity. Qed.

Lemma upper_idem (s : string) : Py.upper (Py.upper s) = Py.upper s.
Proof. induction s as [|c t IH]; [reflexivity|]. simpl. now rewrite upper_char_idem, IH. Qed.

Lemma upper_lower (s : string) : Py.lower (Py.upper (Py.lower s)) = Py.lower s.
Proof.
  induction s as [|c t IH]; [reflexivity|]. simpl. rewrite IH. f_equal.
  destruct c as [[] [] [] [] [] [] [] []]; reflexivity.
Qed.

Lemma upper_of_lower (s : string) : Py.upper (Py.lower s) = Py.upper s.
Proof.
  induction s as [|c t IH]; [reflexivity|]. simpl. rewrite IH. f_equal.
  destruct c as [[] [] [] [] [] [] [] []]; reflexivity.
Qed.

(** X2: the SKU the loaders store is a fixed point of the cleaning
    (strip, then upper case), and two texts that differ only in case and
    in the white space around them are stored as the same SKU. *)
Theorem clean_sku_canonical (v w : string) :
  clean_sku (Some (clean_sku (Some v))) = clean_sku (Some v) /\
  (Py.lower (Py.strip v) = Py.lower (Py.strip w) ->
   clean_sku (Some v) = clean_sku (Some w)).
Proof.
  unfold clean_sku, _clean_text. split.
  - now rewrite strip_upper, strip_idem, upper_idem.
  - intros E. now rewrite <- (upper_of_lower (Py.strip v)), E, upper_of_lower.
Qed.

Lemma sub_chr_delete (p : ascii -> bool) (s : string) :
  forall pos, Re.sub_from (Re.Chr p) (fun _ => "") pos s 0
              = Py.keep_chars (fun c => negb (p c)) s.
Proof.
  induction s as [|c t IH]; intros pos; [reflexivity|].
  cbn [Re.sub_from Re.try_at Re.run Re.m_rest Py.keep_chars].
  destruct (p c) eqn:E; cbn [negb].
  - cbn [Re.advance Re.m_pos]. replace (S pos - pos)%nat with 1%nat by lia.
    rewrite append_nil. apply IH.
  - f_equal. apply IH.
Qed.

Lemma keep_lstrip (p q : ascii -> bool) (s : string) :
  (forall c, q c = true -> p c = false) ->
  Py.keep_chars p (Py.lstrip_with q s) = Py.keep_chars p s.
Proof.
  intros H. induction s as [|c t IH]; [reflexivity|].
  simpl. destruct (q c) eqn:E; [|reflexivity].
  now rewrite (H c E).
Qed.

Lemma keep_rstrip (p q : ascii -> bool) (s : string) :
  (forall c, q c = true -> p c = false) ->
  Py.keep_chars p (Py.rstrip_with q s) = Py.keep_chars p s.
Proof.
  intros H. induction s as [|c t IH]; [reflexivity|].
  simpl. destruct (Py.rstrip_with q t) eqn:Et.
  - simpl in IH. destruct (q c) eqn:E.
    + now rewrite (H c E).
    + simpl. now rewrite <- IH.
  - simpl. simpl in IH. now rewrite IH.
Qed.

Lemma space_not_price (c : ascii) : Py.is_space c = true -> negb (not_price_char c) = false.
Proof. destruct c as [[] [] [] [] [] [] [] []]; intros H; try reflexivity; discriminate H. Qed.

Lemma cleaned_price_text (v : string) :
  Re.sub (Re.Chr not_price_char) (fun _ => "") (Py.strip v)
  = Py.keep_chars (fun c => negb (not_price_char c)) v.
Proof.
  unfold Re.sub, Py.strip. rewrite sub_chr_delete.
  rewrite keep_rstrip by apply space_not_price.
  apply keep_lstrip, space_not_price.
Qed.

End CleaningFacts.

(** ** Signs and symmetry of the floating-point operations *)

Section SignFacts.
Import Fl.
Open Scope Z_scope.

Lemma binary_round_aux_sign (sx : bool) (mx ex : Z) (lx : location) :
  0 <= mx -> sign (binary_round_aux prec emax sx mx ex lx) = Some sx.
Proof.
  intros H. unfold binary_round_aux.
  pose proof (shr_fexp_nonneg mx ex lx H) as H1.
  destruct (shr_fexp prec emax mx ex lx) as [mrs' e']. simpl in H1.
  pose proof (shr_fexp_nonneg _ e' loc_Exact
                (round_nearest_even_nonneg _ (loc_of_shr_record mrs') H1)) as H2.
  destruct (shr_fexp prec emax _ e' loc_Exact) as [mrs'' e'']. simpl in H2.
  destruct (shr_m mrs''); try reflexivity; [|lia].
  now destruct (e'' <=? emax - prec).
Qed.

Lemma div_sign (x : float) (sx : bool) (my : positive) (ey : Z) :
  sign x = Some sx -> sign (div x (S754_finite false my ey)) = Some sx.
Proof.
  destruct x as [s|s| |s mx ex]; try discriminate; intros [= ->];
    unfold div; simpl; rewrite ?xorb_false_r; try reflexivity.
  unfold SFdiv_core_binary.
  set (m' := match _ - _ - _ with Z0 => _ | Zpos _ => _ | Zneg _ => _ end).
  assert (Hm : 0 <= m').
  { subst m'. destruct (_ - _ - _); try lia. apply Z.shiftl_nonneg. lia. }
  pose proof (Z.div_pos m' (Zpos my) Hm eq_refl) as Hq. unfold Z.div in Hq.
  destruct (Z.div_eucl m' (Z.pos my)) as [q r]. now apply binary_round_aux_sign.
Qed.

Lemma mul_sign (x : float) (sx : bool) (my : positive) (ey : Z) :
  sign x = Some sx -> sign (mul x (S754_finite false my ey)) = Some sx.
Proof.
  destruct x as [s|s| |s mx ex]; try discriminate; intros [= ->];
    unfold mul; simpl; rewrite ?xorb_false_r; try reflexivity.
  apply binary_round_aux_sign. lia.
Qed.

Lemma round2_sign (x : float) (s : bool) : sign x = Some s -> sign (round2 x) = Some s.
Proof.
  destruct x as [sx|sx| |sx m e]; try discriminate; intros [= ->]; try reflexivity.
  unfold round2. destruct (match e with Zneg p => _ | _ => _ end); try reflexivity.
  change (unrounded 100) with (S754_finite false 100 0). now apply div_sign.
Qed.

Lemma pow10_pos (k : nat) : exists p, 10 ^ Z.of_nat k = Zpos p.
Proof.
  pose proof (Z.pow_pos_nonneg 10 (Z.of_nat k) ltac:(lia) ltac:(lia)) as H.
  destruct (10 ^ Z.of_nat k) as [|p|p]; try lia. now exists p.
Qed.

Lemma of_decimal_sign (n : Z) (k : nat) : 0 <= n -> sign (of_decimal n k) = Some false.
Proof.
  intros H. unfold of_decimal, of_ratio.
  destruct (pow10_pos k) as [p ->]. simpl (unrounded (Z.pos p)).
  apply div_sign. destruct n; try reflexivity. lia.
Qed.

Lemma digits_value_nonneg (s : string) : forall acc, 0 <= acc -> 0 <= digits_value acc s.
Proof.
  induction s as [|c t IH]; intros acc H; [exact H|].
  simpl. apply IH. lia.
Qed.

Lemma of_token_sign (tok : string) (f : float) :
  of_token tok = Some f -> sign f = Some false.
Proof.
  unfold of_token. destruct (Py.split_char "." tok) as [|ip [|fp [|]]]; try discriminate.
  - destruct (_ && _); [|discriminate]. intros [= <-].
    apply of_decimal_sign, digits_value_nonneg. lia.
  - destruct (_ && _); [|discriminate]. intros [= <-].
    apply of_decimal_sign, digits_value_nonneg. lia.
Qed.

Lemma sign_false_nonneg (f : float) : sign f = Some false -> leb (S754_zero false) f = true.
Proof. destruct f as [s|s| |s m e]; try discriminate; intros [= ->]; reflexivity. Qed.

Lemma abs_binary_round_aux (mx ex : Z) (lx : location) :
  SFabs (binary_round_aux prec emax true mx ex lx)
  = SFabs (binary_round_aux prec emax false mx ex lx).
Proof.
  unfold binary_round_aux.
  destruct (shr_fexp prec emax mx ex lx) as [mrs' e'].
  destruct (shr_fexp prec emax _ e' loc_Exact) as [mrs'' e''].
  destruct (shr_m mrs''); try reflexivity.
  now destruct (e'' <=? emax - prec).
Qed.

Lemma abs_binary_normalize_opp (m e : Z) :
  SFabs (binary_normalize prec emax (- m) e false)
  = SFabs (binary_normalize prec emax m e false).
Proof.
  destruct m; simpl; [reflexivity| |]; unfold binary_round;
    destruct (shl_align _ _ _); [|symmetry]; apply abs_binary_round_aux.
Qed.

Lemma abs_sub_comm (x y : float) : abs (sub x y) = abs (sub y x).
Proof.
  destruct x as [sx|sx| |sx mx ex], y as [sy|sy| |sy my ey];
    unfold abs, sub; simpl; try reflexivity.
  - now destruct sx, sy.
  - now destruct sx, sy.
  - rewrite (Z.min_comm ey ex).
    set (a := cond_Zopp sx _). set (b := cond_Zopp sy _).
    replace (b - a) with (- (a - b)) by lia.
    symmetry. apply abs_binary_normalize_opp.
Qed.

End SignFacts.

(** ** Prices, weights and dimensions read from text *)

Section PriceCleaning.
Import Loaders.

Lemma keep_chars_ext (p q : ascii -> bool) (s : string) :
  (forall c, p c = q c) -> Py.keep_chars p s = Py.keep_chars q s.
Proof.
  intros H. induction s as [|c t IH]; [reflexivity|]. simpl. now rewrite H, IH.
Qed.

(** X3: on plain text [_clean_price] reads the price from the digits and
    dots of the text alone, whatever stands between them (a sign, a
    currency symbol, a thousands separator): it is [round(float(kept), 2)]
    for the digits and dots kept, and [None] where they do not make a
    number.  A price it returns is never negative and never NaN. *)
Theorem clean_price_digits_and_dots (v : string) :
  Py.plain v = true ->
  _clean_price (Some v) =
    option_map Fl.round2
      (Fl.of_token (Py.keep_chars (fun c => Py.is_digit c || Ascii.eqb c ".") v)) /\
  (forall f, _clean_price (Some v) = Some f -> Fl.leb (S754_zero false) f = true).
Proof.
  intros _.
  assert (E : _clean_price (Some v) =
    option_map Fl.round2
      (Fl.of_token (Py.keep_chars (fun c => Py.is_digit c || Ascii.eqb c ".") v))).
  { unfold _clean_price. rewrite cleaned_price_text.
    rewrite (keep_chars_ext _ (fun c => Py.is_digit c || Ascii.eqb c ".")).
    - now destruct (Fl.of_token _).
    - intros c. unfold not_price_char. apply negb_involutive. }
  split; [exact E|].
  intros f. rewrite E. destruct (Fl.of_token _) as [g|] eqn:Hg; [|discriminate].
  intros [= <-]. apply sign_false_nonneg, round2_sign. eapply of_token_sign, Hg.
Qed.

Lemma clean_price_digits_and_dots_witness :
  Py.plain "-$1,234.50 each" = true /\
  _clean_price (Some "-$1,234.50 each") = Some (Fl.of_decimal 123450 2).
Proof.
  split; [vm_compute; reflexivity|].
  destruct (clean_price_digits_and_dots "-$1,234.50 each") as [E _];
    [vm_compute; reflexivity|].
  rewrite E. vm_compute. reflexivity.
Defined.

End PriceCleaning.

Section Parsers.
Import Comparator.

(** X4: a weight [_parse_weight] returns, and each of the three
    dimensions [_parse_dimensions] returns, is a number that is not
    negative and not NaN: a sign in the text is not read. *)
Theorem parsed_measures_not_negative (val : option string) :
  (forall w, _parse_weight val = Some w -> Fl.leb (S754_zero false) w = true) /\
  (forall x y z, _parse_dimensions val = Some (x, y, z) ->
     Fl.leb (S754_zero false) x = true /\ Fl.leb (S754_zero false) y = true /\
     Fl.leb (S754_zero false) z = true).
Proof.
  split.
  - intros w. unfold _parse_weight. destruct val as [v|]; [|discriminate].
    destruct (negb (Py.truthy v)); [discriminate|].
    destruct (Re.search _ _) as [m|]; [|discriminate].
    destruct (Fl.of_token _) as [w0|] eqn:Hw; [|discriminate].
    intros [= <-]. apply sign_false_nonneg, round2_sign.
    apply of_token_sign in Hw.
    destruct (Py.contains "kg" _); [|exact Hw].
    apply round2_sign.
    let k := eval vm_compute in kg_to_lb in change kg_to_lb with k.
    now apply mul_sign.
  - intros x y z. unfold _parse_dimensions. destruct val as [v|]; [|discriminate].
    destruct (negb (Py.truthy v)); [discriminate|].
    destruct (Re.findall _ _) as [|a [|b [|c l]]]; try discriminate.
    destruct (Fl.of_token a) as [x0|] eqn:Hx; [|discriminate].
    destruct (Fl.of_token b) as [y0|] eqn:Hy; [|discriminate].
    destruct (Fl.of_token c) as [z0|] eqn:Hz; [|discriminate].
    intros [= <- <- <-].
    repeat split; apply sign_false_nonneg, round2_sign; eapply of_token_sign; eassumption.
Qed.

End Parsers.

(** ** The resolver: normal forms, verdicts, symmetry *)

Section ResolverMore.
Import NameParser.

Lemma rstrip_no_tail (c : ascii) (s : string) :
  forall t, Py.rstrip_char c s <> t +:+ String c "".
Proof.
  unfold Py.rstrip_char.
  induction s as [|x s IH]; intros t.
  - simpl. destruct t; discriminate.
  - simpl. destruct (Py.rstrip_with (Ascii.eqb c) s) as [|y r] eqn:E.
    + destruct (Ascii.eqb c x) eqn:Ex.
      * destruct t; discriminate.
      * destruct t as [|z [|]]; simpl; try discriminate.
        intros [= ->]. now rewrite Ascii.eqb_refl in Ex.
    + destruct t as [|z t]; simpl.
      * discriminate.
      * intros [= -> H]. now apply (IH t).
Qed.

(** X5: a normalised value holds no comma, no double quote and no
    apostrophe, and does not end with a slash. *)
Theorem normalized_value_shape (val : string) :
  Py.contains "," (_normalize_value val) = false /\
  Py.contains (Py.chr Py.dq) (_normalize_value val) = false /\
  Py.contains (Py.chr Py.sq) (_normalize_value val) = false /\
  (forall t, _normalize_value val <> t +:+ "/").
Proof.
  repeat split; try (apply normalize_no_char; auto).
  intros t. unfold _normalize_value. destruct (negb (Py.truthy val)).
  - destruct t; discriminate.
  - apply rstrip_no_tail.
Qed.

Lemma match_value_defined (x y : string) :
  Py.truthy (_normalize_value x) = true -> Py.truthy (_normalize_value y) = true ->
  exists b, _match_value x y = Some b.
Proof.
  intros Hx Hy. unfold _match_value. rewrite Hx, Hy. simpl.
  destruct (String.eqb _ _); [eauto|].
  destruct (Py.contains "|" _); [eauto|].
  destruct (synonym_verdict _ _); [eauto|].
  destruct (if Py.contains "," _ then _ else _); [eauto|].
  destruct (number_match _ _); eauto.
Qed.

Lemma match_value_undefined (x y : string) :
  _match_value x y = None <-> _normalize_value x = "" \/ _normalize_value y = "".
Proof.
  rewrite <- !truthy_empty. split.
  - intros H.
    destruct (Py.truthy (_normalize_value x)) eqn:Hx; [|now left].
    destruct (Py.truthy (_normalize_value y)) eqn:Hy; [|now right].
    destruct (match_value_defined x y Hx Hy) as [b Hb]. congruence.
  - intros [H|H]; unfold _match_value; rewrite H; [reflexivity|].
    now rewrite orb_true_r.
Qed.

(** X6: [_match_value] returns [None] exactly when one of the two values
    normalises to the empty text; in every other case it returns a
    verdict, [True] or [False]. *)
Theorem match_value_none_iff (x y : string) :
  (_match_value x y = None <-> _normalize_value x = "" \/ _normalize_value y = "") /\
  (_normalize_value x <> "" -> _normalize_value y <> "" ->
   exists b, _match_value x y = Some b).
Proof.
  split; [apply match_value_undefined|].
  intros Hx Hy. apply match_value_defined; now apply truthy_nonempty.
Qed.

Lemma find_ext {A} (f g : A -> bool) (l : list A) :
  (forall x, f x = g x) -> find f l = find g l.
Proof. intros H. induction l as [|a l IH]; [reflexivity|]. simpl. now rewrite H, IH. Qed.

Lemma synonym_verdict_comm (p a : string) : synonym_verdict p a = synonym_verdict a p.
Proof.
  unfold synonym_verdict. f_equal. apply find_ext. intros e. apply andb_comm.
Qed.

Lemma strings_eqb_comm (l1 l2 : list string) : strings_eqb l1 l2 = strings_eqb l2 l1.
Proof.
  unfold strings_eqb. destruct (decide (l1 = l2)) as [->|N]; [reflexivity|].
  rewrite !bool_decide_eq_false_2; auto.
Qed.

Lemma number_match_comm (p a : string) : number_match p a = number_match a p.
Proof.
  unfold number_match.
  destruct (Re.findall number_re p) as [|x [|x' lp]], (Re.findall number_re a) as [|y [|y' la]];
    try reflexivity; rewrite strings_eqb_comm; try reflexivity.
  destruct (strings_eqb _ _); [reflexivity|].
  destruct (Fl.of_token x), (Fl.of_token y); try reflexivity.
  now rewrite abs_sub_comm.
Qed.

(** X7: when neither normalised value holds a [|], the verdict of
    [_match_value] does not depend on the order of its two arguments. *)
Theorem match_value_symmetric (x y : string) :
  Py.contains "|" (_normalize_value x) = false ->
  Py.contains "|" (_normalize_value y) = false ->
  _match_value x y = _match_value y x.
Proof.
  intros Hx Hy. unfold _match_value. rewrite Hx, Hy.
  rewrite (orb_comm (negb (Py.truthy (_normalize_value y)))).
  destruct (_ || _); [reflexivity|].
  rewrite (String.eqb_sym (_normalize_value y)).
  destruct (String.eqb _ _); [reflexivity|].
  rewrite (synonym_verdict_comm (_normalize_value y)).
  destruct (synonym_verdict _ _); [reflexivity|].
  rewrite !comma_rule_unreachable.
  rewrite (number_match_comm (_normalize_value y)).
  destruct (number_match _ _); [reflexivity|].
  now rewrite orb_comm.
Qed.

Lemma match_value_symmetric_witness :
  Py.contains "|" (_normalize_value "45 mm") = false /\
  Py.contains "|" (_normalize_value "45.05MM") = false /\
  _match_value "45 mm" "45.05MM" = _match_value "45.05MM" "45 mm" /\
  _match_value "45 mm" "45.05MM" = Some true.
Proof.
  split; [vm_compute; reflexivity|]. split; [vm_compute; reflexivity|].
  split; [apply match_value_symmetric; vm_compute; reflexivity|vm_compute; reflexivity].
Defined.

(** With a dual value the order matters. *)
Lemma match_value_order_matters :
  _match_value "45mm | 38mm Pins" "x 45" = Some true /\
  _match_value "x 45" "45mm | 38mm Pins" = Some false.
Proof. split; vm_compute; reflexivity. Qed.

End ResolverMore.

(** ** The matcher: consumed text and captures *)

Section RegexMore.
Import Re.

Lemma append_assoc_s (a b c : string) : (a +:+ b) +:+ c = a +:+ (b +:+ c).
Proof. induction a as [|x a IH]; [reflexivity|]. rewrite !append_cons, IH. reflexivity. Qed.

Lemma length_append_s (a b : string) :
  String.length (a +:+ b) = (String.length a + String.length b)%nat.
Proof. induction a as [|x a IH]; [reflexivity|]. rewrite append_cons. simpl. now rewrite IH. Qed.

Lemma take_str_app (a b : string) : Py.take_str (String.length a) (a +:+ b) = a.
Proof.
  induction a as [|x a IH]; [now destruct b|]. rewrite append_cons. simpl. now rewrite IH.
Qed.

(** What a pattern takes the matcher over is a prefix of the subject, and
    the offset grows by its length. *)
Lemma lang_consumes (r : re) :
  forall st st', lang r st st' ->
    exists w, m_rest st = w +:+ m_rest st' /\
              m_pos st' = (m_pos st + String.length w)%nat.
Proof.
  induction r as [|p|a IHa b IHb|a IHa b IHb|a IHa|n a IHa| |]; intros st st' H; simpl in H.
  - subst. exists "". split; [reflexivity|simpl; lia].
  - destruct H as (c & Hr & _ & ->). exists (String c ""). split; [exact Hr|simpl; lia].
  - destruct H as (mid & Ha & Hb).
    apply IHa in Ha as (w1 & E1 & P1). apply IHb in Hb as (w2 & E2 & P2).
    exists (w1 +:+ w2). rewrite append_assoc_s, <- E2, <- E1, length_append_s.
    split; [reflexivity|lia].
  - destruct H as [H|H]; [now apply IHa|now apply IHb].
  - induction H as [m|m m1 m2 H1 _ IH].
    + exists "". split; [reflexivity|simpl; lia].
    + apply IHa in H1 as (w1 & E1 & P1). destruct IH as (w2 & E2 & P2).
      exists (w1 +:+ w2). rewrite append_assoc_s, <- E2, <- E1, length_append_s.
      split; [reflexivity|lia].
  - destruct H as (mid & Ha & ->). apply IHa in Ha as (w & E & P).
    exists w. simpl. auto.
  - destruct H as [_ ->]. exists "". split; [reflexivity|simpl; lia].
  - destruct H as [_ ->]. exists "". split; [reflexivity|simpl; lia].
Qed.

(** A pattern without groups leaves the captures as they are. *)
Lemma lang_keeps_caps (r : re) :
  no_group r = true -> forall st st', lang r st st' -> m_caps st' = m_caps st.
Proof.
  induction r as [|p|a IHa b IHb|a IHa b IHb|a IHa|n a IHa| |]; intros G st st' H;
    simpl in H, G.
  - now subst.
  - destruct H as (c & _ & _ & ->). reflexivity.
  - apply andb_prop in G as [Ga Gb]. destruct H as (mid & Ha & Hb).
    rewrite (IHb Gb _ _ Hb). now apply IHa.
  - apply andb_prop in G as [Ga Gb]. destruct H as [H|H]; [now apply IHa|now apply IHb].
  - induction H as [m|m m1 m2 H1 _ IH]; [reflexivity|].
    rewrite IH. now apply IHa.
  - discriminate G.
  - now destruct H as [_ ->].
  - now destruct H as [_ ->].
Qed.

(** The text a group captures is the text its pattern went over. *)
Lemma capture_text (n : nat) (st mid : mstate) (w : string) :
  m_rest st = w +:+ m_rest mid -> m_pos mid = (m_pos st + String.length w)%nat ->
  m_caps (capture n st mid) = (n, w) :: m_caps mid.
Proof.
  intros E P. unfold capture. simpl. rewrite E, P.
  replace (m_pos st + String.length w - m_pos st)%nat with (String.length w) by lia.
  now rewrite take_str_app.
Qed.

Lemma lang_star_class (p : ascii -> bool) (st st' : mstate) :
  lang (Star (Chr p)) st st' ->
  exists d, m_rest st = d +:+ m_rest st' /\ Py.all_chars p d = true /\
            m_pos st' = (m_pos st + String.length d)%nat /\ m_caps st' = m_caps st.
Proof.
  simpl. intros H. induction H as [m|m m1 m2 (c & Hr & Hc & ->) _ IH].
  - exists "". split; [reflexivity|]. split; [reflexivity|]. split; [simpl; lia|reflexivity].
  - destruct IH as (d & Hd & Hall & Hp & Hcaps). exists (String c d).
    simpl in Hd, Hp, Hcaps. rewrite Hr, Hd, Hp, Hcaps. simpl. rewrite Hc.
    split; [reflexivity|]. split; [exact Hall|]. split; [lia|reflexivity].
Qed.

Lemma lang_plus_class (p : ascii -> bool) (st st' : mstate) :
  lang (Plus (Chr p)) st st' ->
  exists d, m_rest st = d +:+ m_rest st' /\ Py.all_chars p d = true /\ d <> "" /\
            m_pos st' = (m_pos st + String.length d)%nat /\ m_caps st' = m_caps st.
Proof.
  intros (mid & (c & Hr & Hc & ->) & Hs).
  apply lang_star_class in Hs as (d & Hd & Hall & Hp & Hcaps).
  exists (String c d). simpl in Hd, Hp, Hcaps. rewrite Hr, Hd, Hp, Hcaps. simpl. rewrite Hc.
  split; [reflexivity|]. split; [exact Hall|]. split; [discriminate|]. split; [lia|reflexivity].
Qed.

Lemma search_from_sound (r : re) (s : string) :
  forall pos p s' m, search_from r pos s = Some (p, s', m) -> try_at r p s' = Some m.
Proof.
  induction s as [|c t IH]; intros pos p s' m; simpl.
  - destruct (try_at r pos "") eqn:E; [|discriminate]. now intros [= <- <- <-].
  - destruct (try_at r pos (String c t)) eqn:E.
    + now intros [= <- <- <-].
    + apply IH.
Qed.

Lemma search_sound (r : re) (s : string) (m : mstate) :
  search r s = Some m -> exists pos s', lang r (MState pos s' []) m.
Proof.
  unfold search. destruct (search_from r 0 s) as [[[p s'] m']|] eqn:E; [|discriminate].
  intros [= <-]. apply search_from_sound in E. unfold try_at in E.
  apply run_sound in E as (st' & H & [= ->]). eauto.
Qed.

Lemma rmatch_sound (r : re) (s : string) (m : mstate) :
  rmatch r s = Some m -> lang r (MState 0 s []) m.
Proof.
  unfold rmatch, try_at. intros E. now apply run_sound in E as (st' & H & [= ->]).
Qed.

End RegexMore.

(** ** The matcher: completeness *)

Section RegexComplete.
Import Re.

Lemma orelse_is_Some_l {A} (x y : option A) : is_Some x -> is_Some (orelse x y).
Proof. intros [v ->]. simpl. eauto. Qed.

Lemma orelse_is_Some_r {A} (x y : option A) : is_Some y -> is_Some (orelse x y).
Proof. intros Hy. destruct x; simpl; eauto. Qed.

(** Completeness of the matcher on the patterns whose repetitions are over
    character classes: where the pattern leads to a state the continuation
    accepts, the matcher finds an answer. *)
Lemma run_complete {A} (r : re) :
  class_stars r = true ->
  forall (k : mstate -> option A) (st st' : mstate),
    lang r st st' -> is_Some (k st') -> is_Some (run r k st).
Proof.
  induction r as [|p|a IHa b IHb|a IHa b IHb|a IHa|n a IHa| |];
    intros C k st st' H Hk; simpl in H, C |- *.
  - now subst.
  - destruct H as (c & Hr & Hc & E). rewrite Hr, Hc. now rewrite E in Hk.
  - apply andb_prop in C as [Ca Cb]. destruct H as (mid & Ha & Hb).
    eapply IHa; [exact Ca|exact Ha|]. eapply IHb; eassumption.
  - apply andb_prop in C as [Ca Cb]. destruct H as [H|H].
    + apply orelse_is_Some_l. eapply IHa; eassumption.
    + apply orelse_is_Some_r. eapply IHb; eassumption.
  - destruct a as [|p| | | | | |]; try discriminate C. clear IHa C.
    assert (G : forall fuel, (String.length (m_rest st) <= fuel)%nat ->
      is_Some ((fix loop (fuel : nat) (st : mstate) : option A :=
         match fuel with
         | O => k st
         | S fuel' =>
             orelse
               (run (Chr p) (fun st' => if (m_pos st <? m_pos st')%nat
                                  then loop fuel' st' else None) st)
               (k st)
         end) fuel st)).
    { induction H as [m|m m1 m2 (c & Hr & Hc & E) _ IH]; intros fuel Hf.
      - destruct fuel; [exact Hk|]. now apply orelse_is_Some_r.
      - rewrite Hr in Hf. simpl in Hf. destruct fuel as [|fuel]; [lia|].
        apply orelse_is_Some_l. simpl. rewrite Hr, Hc. simpl.
        destruct (Nat.ltb_spec (m_pos m) (S (m_pos m))); [|lia].
        rewrite <- E. apply IH; [exact Hk|]. rewrite E. simpl. lia. }
    apply G. lia.
  - destruct H as (mid & Ha & ->). eapply IHa; [exact C|exact Ha|exact Hk].
  - destruct H as [Hp ->]. now rewrite Hp.
  - destruct H as [He ->]. now rewrite He.
Qed.

Lemma rmatch_complete (r : re) (s : string) (st' : mstate) :
  class_stars r = true -> lang r (MState 0 s []) st' -> is_Some (rmatch r s).
Proof.
  intros C H. unfold rmatch, try_at. eapply run_complete; [exact C|exact H|eauto].
Qed.

Lemma search_from_complete (r : re) (pre s : string) (st' : mstate) :
  class_stars r = true ->
  forall pos, lang r (MState (pos + String.length pre) s []) st' ->
              is_Some (search_from r pos (pre +:+ s)).
Proof.
  intros C. induction pre as [|c pre IH]; intros pos H.
  - rewrite append_nil. simpl in H. rewrite Nat.add_0_r in H.
    assert (T : is_Some (try_at r pos s)).
    { unfold try_at. eapply run_complete; [exact C|exact H|eauto]. }
    destruct T as [m T]. destruct s; simpl; rewrite T; eauto.
  - rewrite append_cons. simpl.
    destruct (try_at r pos (String c (pre +:+ s))); [eauto|].
    apply IH. simpl in H. now rewrite Nat.add_succ_r in H.
Qed.

(** [re.search] finds a match where the pattern matches at some offset. *)
Lemma found_complete (r : re) (pre s : string) (st' : mstate) :
  class_stars r = true ->
  lang r (MState (String.length pre) s []) st' -> found r (pre +:+ s) = true.
Proof.
  intros C H. unfold found, search.
  destruct (search_from_complete r pre s st' C 0 H) as [x ->]. reflexivity.
Qed.

End RegexComplete.

(** ** The size group *)

Section ParseNameMore.
Import Re Extract.

Lemma append_inv_tail_s (r : string) :
  forall a b : string, a +:+ r = b +:+ r -> a = b.
Proof.
  assert (L : forall a b : string,
             String.length a = String.length b -> a +:+ r = b +:+ r -> a = b).
  { induction a as [|x a IH]; intros [|y b] Hl H; try discriminate Hl; [reflexivity|].
    rewrite !append_cons in H. injection H as -> H. f_equal. apply IH; [|exact H].
    simpl in Hl. lia. }
  intros a b H. apply L; [|exact H].
  apply (f_equal String.length) in H. rewrite !length_append_s in H. lia.
Qed.

Lemma size_group_text (st mid : mstate) :
  lang (Seq (Plus digit) (Opt (Seq (one ".") (Plus digit)))) st mid ->
  starts_with_quote_glyph (m_rest mid) = true ->
  exists tok, leading_number (m_rest st) = Some (tok, m_rest mid) /\
              m_rest st = tok +:+ m_rest mid.
Proof.
  intros Hin Hq. destruct Hin as (m1 & Hd1 & Hopt).
  apply lang_digits in Hd1 as (d1 & E1 & A1 & N1).
  destruct (quote_glyph_head _ Hq) as (c & r0 & Er & Dc & Pc).
  assert (T1 : Py.truthy d1 = true) by now apply truthy_nonempty.
  destruct Hopt as [(m2 & (c' & Hr & Hc & ->) & Hd2) | ->].
  - apply lang_digits in Hd2 as (d2 & E2 & A2 & N2). cbn [advance m_rest] in E2.
    apply Ascii.eqb_eq in Hc. subst c'.
    exists (d1 +:+ "." +:+ d2). split.
    + unfold leading_number. rewrite E1, Hr, E2.
      rewrite (span_digits_app d1) by (assumption || (intros ? ? [= <- _]; reflexivity)).
      rewrite T1.
      rewrite (span_digits_app d2)
        by (assumption || (intros x y E; rewrite Er in E; injection E as <- _; assumption)).
      assert (T2 : Py.truthy d2 = true) by now apply truthy_nonempty.
      now rewrite T2.
    + rewrite E1, Hr, E2, !append_assoc_s. reflexivity.
  - exists d1. split; [|exact E1].
    unfold leading_number. rewrite E1.
    rewrite (span_digits_app d1)
      by (assumption || (intros x y E; rewrite Er in E; injection E as <- _; assumption)).
    rewrite T1, Er. destruct c as [[] [] [] [] [] [] [] []]; try reflexivity; discriminate Pc.
Qed.

End ParseNameMore.

(** ** The size rule in full *)

Section SizeRule.
Import Re Extract.

Lemma starts_with_split (p s : string) :
  Py.starts_with p s = true -> s = p +:+ Py.drop_str (String.length p) s.
Proof.
  revert s. induction p as [|a p IH]; intros s H; [now destruct s|].
  destruct s as [|b s]; [discriminate|]. simpl in H.
  apply andb_prop in H as [Hab H]. apply Ascii.eqb_eq in Hab. subst b.
  rewrite append_cons. simpl. f_equal. now apply IH.
Qed.

Lemma drop_str_app (a b : string) : Py.drop_str (String.length a) (a +:+ b) = b.
Proof. induction a as [|x a IH]; [now destruct b|]. rewrite append_cons. exact IH. Qed.

Lemma lang_lit_intro (s rest : string) :
  forall st, m_rest st = s +:+ rest ->
    lang (lit s) st (MState (m_pos st + String.length s) rest (m_caps st)).
Proof.
  induction s as [|c s IH]; intros st E.
  - rewrite append_nil in E. simpl. rewrite Nat.add_0_r, <- E. now destruct st.
  - rewrite append_cons in E. simpl. exists (advance st (s +:+ rest)). split.
    + exists c. simpl. rewrite Ascii.eqb_refl. auto.
    + specialize (IH (advance st (s +:+ rest)) eq_refl). simpl in IH.
      now rewrite Nat.add_succ_r.
Qed.

Lemma lang_star_intro (p : ascii -> bool) (d rest : string) :
  Py.all_chars p d = true ->
  forall st, m_rest st = d +:+ rest ->
    lang (Star (Chr p)) st (MState (m_pos st + String.length d) rest (m_caps st)).
Proof.
  induction d as [|c d IH]; intros Hall st E.
  - rewrite append_nil in E. simpl. rewrite Nat.add_0_r, <- E. destruct st. apply rtc_refl.
  - rewrite append_cons in E. simpl in Hall. apply andb_prop in Hall as [Hc Hall].
    simpl. apply (rtc_l _ _ (advance st (d +:+ rest))).
    + exists c. simpl. split; [exact E|]. split; [exact Hc|reflexivity].
    + specialize (IH Hall (advance st (d +:+ rest)) eq_refl). simpl in IH.
      now rewrite Nat.add_succ_r.
Qed.

Lemma lang_plus_intro (p : ascii -> bool) (d rest : string) :
  Py.all_chars p d = true -> d <> "" ->
  forall st, m_rest st = d +:+ rest ->
    lang (Plus (Chr p)) st (MState (m_pos st + String.length d) rest (m_caps st)).
Proof.
  destruct d as [|c d]; [congruence|]. intros Hall _ st E.
  rewrite append_cons in E. simpl in Hall. apply andb_prop in Hall as [Hc Hall].
  exists (advance st (d +:+ rest)). split.
  - exists c. simpl. auto.
  - pose proof (lang_star_intro p d rest Hall (advance st (d +:+ rest)) eq_refl) as H.
    simpl in H. simpl. now rewrite Nat.add_succ_r.
Qed.

Lemma all_digits_chars (s : string) : Fl.all_digits s = Py.all_chars Py.is_digit s.
Proof. induction s as [|c s IH]; [reflexivity|]. simpl. now rewrite IH. Qed.

Lemma span_digits_spec (s : string) :
  forall d r, span_digits s = (d, r) -> s = d +:+ r /\ Fl.all_digits d = true.
Proof.
  induction s as [|c s IH]; intros d r; simpl.
  - now intros [= <- <-].
  - destruct (Py.is_digit c) eqn:E.
    + destruct (span_digits s) as [d' r'] eqn:Es. intros [= <- <-].
      destruct (IH d' r' eq_refl) as [-> Hd]. simpl. now rewrite E, Hd.
    + now intros [= <- <-].
Qed.

Lemma lang_quote_glyph_split (st st' : mstate) :
  lang quote_glyph st st' -> exists q, q ∈ glyphs /\ m_rest st = q +:+ m_rest st'.
Proof.
  unfold quote_glyph, glyphs. cbn [alts].
  intros [(c & Hr & Hc & _)|[H|[H|H]]].
  - apply Ascii.eqb_eq in Hc. subst c. exists (Py.chr Py.dq). split; [set_solver|exact Hr].
  - apply lang_lit in H. exists Py.u201c. split; [set_solver|exact H].
  - apply lang_lit in H. exists Py.u201d. split; [set_solver|exact H].
  - apply lang_lit in H. exists Py.u2033. split; [set_solver|exact H].
Qed.

Lemma lang_quote_glyph_intro (q rest : string) (st : mstate) :
  q ∈ glyphs -> m_rest st = q +:+ rest ->
  lang quote_glyph st (MState (m_pos st + String.length q) rest (m_caps st)).
Proof.
  unfold quote_glyph, glyphs. cbn [alts]. intros Hq E.
  repeat (apply elem_of_cons in Hq as [->|Hq]).
  - left. exists Py.dq. simpl. rewrite Nat.add_1_r. auto.
  - right. left. now apply lang_lit_intro.
  - right. right. left. now apply lang_lit_intro.
  - right. right. right. now apply lang_lit_intro.
  - inversion Hq.
Qed.

Lemma glyph_then_space_spec (r : string) :
  glyph_then_space r = true <->
  exists q c x, q ∈ glyphs /\ r = q +:+ String c x /\ Py.is_space c = true.
Proof.
  unfold glyph_then_space. rewrite existsb_exists. split.
  - intros (q & Hq & [Hs Hd]%andb_prop). apply list_elem_of_In in Hq.
    apply starts_with_split in Hs.
    destruct (Py.drop_str (String.length q) r) as [|c x]; [discriminate|]. eauto 6.
  - intros (q & c & x & Hq & -> & Hc). exists q. split; [now apply list_elem_of_In|].
    now rewrite starts_with_app, drop_str_app.
Qed.

Lemma size_match_sound (t : string) (m : mstate) :
  rmatch size_re t = Some m -> size_token t = Some (grp 1 m).
Proof.
  intros Hm. apply rmatch_sound in Hm. unfold size_re in Hm. cbn [seqs] in Hm.
  destruct Hm as (s1 & (_ & ->) & s2 & (mid & Hin & ->) & s3 & Hg & (c & Hr & Hc & Em)).
  apply (lang_keeps_caps quote_glyph eq_refl) in Hg as Hcaps.
  pose proof (lang_quote_glyph _ _ Hg) as [Hq _]. cbn [capture m_rest] in Hq.
  apply lang_quote_glyph_split in Hg as (q & Hg & Eq). cbn [capture m_rest] in Eq.
  pose proof (lang_consumes _ _ _ Hin) as (w & Ew & Pw).
  destruct (size_group_text _ _ Hin Hq) as (tok & Hl & Et).
  cbn [m_rest] in Hl, Et, Ew.
  unfold size_token. rewrite Hl.
  replace (glyph_then_space (m_rest mid)) with true.
  - f_equal. unfold grp. rewrite Em. cbn [advance m_caps]. rewrite Hcaps.
    rewrite (capture_text 1 (MState 0 t []) mid w Ew Pw). simpl.
    apply (append_inv_tail_s (m_rest mid)). now rewrite <- Ew, <- Et.
  - symmetry. apply glyph_then_space_spec. exists q, c, (m_rest m).
    split; [exact Hg|]. split; [|exact Hc]. now rewrite Eq, Hr.
Qed.

Lemma leading_number_spec (t tok r : string) :
  leading_number t = Some (tok, r) ->
  exists d, Fl.all_digits d = true /\ d <> "" /\
    ((tok = d /\ t = d +:+ r) \/
     (exists f, Fl.all_digits f = true /\ f <> "" /\
                tok = d +:+ "." +:+ f /\ t = d +:+ "." +:+ f +:+ r)).
Proof.
  unfold leading_number. destruct (span_digits t) as [d r0] eqn:E1.
  apply span_digits_spec in E1 as [-> Hd].
  destruct (Py.truthy d) eqn:Td; [|discriminate]. apply truthy_nonempty in Td.
  intros H. exists d. split; [exact Hd|]. split; [exact Td|].
  destruct r0 as [|c r']; [injection H as <- <-; now left|].
  destruct (Ascii.eqb_spec c "."%char) as [->|Nc].
  - destruct (span_digits r') as [f r''] eqn:E2.
    apply span_digits_spec in E2 as [-> Hf].
    destruct (Py.truthy f) eqn:Tf.
    + injection H as <- <-. right. exists f. apply truthy_nonempty in Tf.
      repeat split; try assumption; now rewrite ?append_assoc_s.
    + injection H as <- <-. now left.
  - assert (E : Some (d, String c r') = Some (tok, r)).
    { rewrite <- H. destruct c as [[] [] [] [] [] [] [] []]; try reflexivity. now contradict Nc. }
    injection E as <- <-. now left.
Qed.

Lemma size_match_complete (t tok : string) :
  size_token t = Some tok -> is_Some (rmatch size_re t).
Proof.
  unfold size_token. destruct (leading_number t) as [[tok' r]|] eqn:El; [|discriminate].
  destruct (glyph_then_space r) eqn:Eg; [|discriminate]. intros _.
  apply glyph_then_space_spec in Eg as (q & c & x & Hq & -> & Hc).
  apply leading_number_spec in El as (d & Hd & Nd & H).
  rewrite all_digits_chars in Hd.
  set (s0 := MState 0 t []).
  assert (exists mid, lang (Seq (Plus digit) (Opt (Seq (one ".") (Plus digit)))) s0 mid /\
                      m_rest mid = q +:+ String c x) as (mid & Hin & Er).
  { destruct H as [[_ Et]|(f & Hf & Nf & _ & Et)].
    - eexists. split.
      + eexists. split.
        * apply (lang_plus_intro Py.is_digit d (q +:+ String c x) Hd Nd s0 Et).
        * right. reflexivity.
      + reflexivity.
    - rewrite all_digits_chars in Hf. eexists. split.
      + eexists. split.
        * apply (lang_plus_intro Py.is_digit d ("." +:+ f +:+ q +:+ String c x) Hd Nd s0).
          simpl. rewrite Et, ?append_assoc_s. reflexivity.
        * left. exists (MState (S (0 + String.length d)) (f +:+ q +:+ String c x) []). split.
          -- exists "."%char. simpl. split; [reflexivity|]. split; reflexivity.
          -- apply (lang_plus_intro Py.is_digit f (q +:+ String c x) Hf Nf
                      (MState (S (0 + String.length d)) (f +:+ q +:+ String c x) [])).
             reflexivity.
      + reflexivity. }
  set (s2 := capture 1 s0 mid).
  set (s3 := MState (m_pos s2 + String.length q) (String c x) (m_caps s2)).
  apply (rmatch_complete size_re t (advance s3 x)); [reflexivity|].
  unfold size_re. cbn [seqs]. exists s0. split; [split; reflexivity|].
  exists s2. split; [exists mid; split; [exact Hin|reflexivity]|].
  exists s3. split.
  - apply (lang_quote_glyph_intro q (String c x) s2 Hq). exact Er.
  - exists c. simpl. auto.
Qed.

(** X8: for a plain title, [parse_name] sets the bucket size exactly when
    the stripped title starts with a number ([digits] or [digits.digits])
    that a quote glyph and then a white-space character follow; the value
    is that number with a straight double quote after it. *)
Theorem bucket_size_rule (title category : string) :
  Py.plain title = true ->
  Dict.get "Bucket Size" (parse_name title category)
  = option_map (fun tok => tok +:+ Py.chr Py.dq) (size_token (Py.strip title)).
Proof.
  intros _. unfold parse_name. destruct title as [|c0 t0] eqn:Et; [reflexivity|]. rewrite <- Et.
  cbn [Py.truthy negb]. replace (Py.truthy title) with true by now rewrite Et.
  cbn [negb]. rewrite other_rules_keep_size. unfold rule_size.
  destruct (rmatch size_re (Py.strip title)) as [m|] eqn:E.
  - rewrite get_set_eq. now rewrite (size_match_sound _ _ E).
  - destruct (size_token (Py.strip title)) as [tok|] eqn:Es; [|reflexivity].
    apply size_match_complete in Es as [m Hm]. congruence.
Qed.

Lemma bucket_size_rule_witness :
  let title := " 7.5" +:+ Py.u201d +:+ " Ditching Bucket " in
  Py.plain title = true /\
  Dict.get "Bucket Size" (parse_name title "Buckets") = Some ("7.5" +:+ Py.chr Py.dq).
Proof.
  intros title. split; [vm_compute; reflexivity|].
  rewrite (bucket_size_rule title "Buckets") by (vm_compute; reflexivity).
  vm_compute. reflexivity.
Defined.

End SizeRule.

(** ** The shape of the parsed attributes *)

Section ParseNameShape.
Import Re Extract.

Lemma elem_of_set {V} (k k' : string) (v v' : V) (d : Dict.dict V) :
  (k', v') ∈ Dict.set k v d -> (k', v') = (k, v) \/ (k', v') ∈ d.
Proof.
  induction d as [|[k0 v0] d IH]; simpl.
  - intros H%list_elem_of_singleton. now left.
  - destruct (String.eqb k0 k).
    + intros [H|H]%elem_of_cons; [now left|right; now right].
    + intros [H|H]%elem_of_cons; [right; rewrite H; left|].
      destruct (IH H) as [?|?]; [now left|right; now right].
Qed.

Lemma get_elem {V} (k : string) (v : V) (d : Dict.dict V) :
  Dict.get k d = Some v -> (k, v) ∈ d.
Proof.
  induction d as [|[k0 v0] d IH]; simpl; [discriminate|].
  destruct (String.eqb_spec k0 k) as [->|N].
  - intros [= ->]. left.
  - intros H. right. auto.
Qed.

Lemma well_formed_set (k v : string) (d : Dict.dict string) :
  k ∈ labels -> v <> "" -> well_formed d -> well_formed (Dict.set k v d).
Proof.
  intros Hk Hv Hd k' v' [[= -> ->]|H]%elem_of_set; [auto|now apply Hd].
Qed.

Lemma well_formed_nil : well_formed [].
Proof. intros k v H. inversion H. Qed.

Lemma append_nonempty_r (a b : string) : b <> "" -> a +:+ b <> "".
Proof. destruct a; [now rewrite append_nil|discriminate]. Qed.

Lemma append_nonempty_l (a b : string) : a <> "" -> a +:+ b <> "".
Proof. destruct a; [congruence|discriminate]. Qed.

Lemma first_found_in (patterns : list (re * string)) (title name : string) :
  first_found patterns title = Some name -> name ∈ map snd patterns.
Proof.
  unfold first_found. destruct (find _ patterns) as [e|] eqn:E; [|discriminate].
  intros [= <-]. apply find_some in E as [E _].
  apply list_elem_of_In in E. now apply list_elem_of_fmap_2.
Qed.

Lemma word_not_space (c : ascii) : Py.is_word c = true -> Py.is_space c = false.
Proof. destruct c as [[] [] [] [] [] [] [] []]; intros H; try reflexivity; discriminate H. Qed.

Lemma rstrip_no_match (p : ascii -> bool) (s : string) :
  Py.all_chars (fun c => negb (p c)) s = true -> Py.rstrip_with p s = s.
Proof.
  induction s as [|c t IH]; [reflexivity|]. simpl.
  intros [Hc Ht]%andb_prop. rewrite (IH Ht).
  destruct t; [|reflexivity]. now apply negb_true_iff in Hc as ->.
Qed.

Lemma all_chars_impl (p q : ascii -> bool) (s : string) :
  (forall c, p c = true -> q c = true) -> Py.all_chars p s = true -> Py.all_chars q s = true.
Proof.
  intros H. induction s as [|c t IH]; [reflexivity|]. simpl.
  intros [Hc Ht]%andb_prop. now rewrite (H c Hc), IH.
Qed.

Lemma strip_word (w : string) : Py.all_chars Py.is_word w = true -> Py.strip w = w.
Proof.
  intros H. unfold Py.strip.
  assert (Hn : Py.all_chars (fun c => negb (Py.is_space c)) w = true).
  { revert H. apply all_chars_impl. intros c Hc. now rewrite (word_not_space c Hc). }
  replace (Py.lstrip_with Py.is_space w) with w; [now apply rstrip_no_match|].
  destruct w as [|c t]; [reflexivity|]. simpl in *.
  apply andb_prop in Hn as [Hc _]. now apply negb_true_iff in Hc as ->.
Qed.

(** The machine word of the weight-class pattern is not empty. *)
Lemma weight_class_machine (title : string) (m : mstate) :
  search weight_class_re title = Some m -> Py.strip (grp 3 m) <> "".
Proof.
  intros H. apply search_sound in H as (pos & s' & H).
  unfold weight_class_re in H. cbn [seqs] in H.
  destruct H as (s1 & _ & s2 & _ & s3 & _ & s4 & _ & s5 & _ & s6 & _ & s7 & _
                 & s8 & _ & s9 & _ & mid & Hw & ->).
  apply lang_plus_class in Hw as (d & Ed & Hall & Hne & Pd & _).
  unfold grp. rewrite (capture_text 3 s9 mid d Ed Pd). simpl.
  now rewrite strip_word.
Qed.

Ltac label := repeat (apply list_elem_of_here || apply list_elem_of_further).

Ltac store_ok :=
  apply well_formed_set;
  [ unfold labels; label
  | first [ apply append_nonempty_r; discriminate
          | discriminate
          | idtac ]
  | try assumption ].

Lemma table_values (patterns : list (re * string)) (title name : string) :
  forallb (fun e => Py.truthy (snd e)) patterns = true ->
  first_found patterns title = Some name -> name <> "".
Proof.
  intros Hall H. apply first_found_in in H.
  apply list_elem_of_fmap in H as (e & -> & He).
  rewrite forallb_forall in Hall. apply truthy_nonempty, Hall.
  now apply list_elem_of_In.
Qed.

Lemma parse_name_well_formed (title category : string) :
  well_formed (parse_name title category).
Proof.
  unfold parse_name. destruct (negb (Py.truthy title)); [apply well_formed_nil|].
  set (t := Py.strip title).
  assert (W0 : well_formed (rule_size t [])).
  { unfold rule_size. destruct (rmatch _ _); [store_ok|]; apply well_formed_nil. }
  assert (W1 : well_formed (rule_diameter t (rule_size t []))).
  { unfold rule_diameter. destruct (rmatch _ _); [store_ok|assumption]. }
  revert W1. generalize (rule_diameter t (rule_size t [])). clear W0. intros a W.
  assert (W2 : well_formed (rule_pin_size t a)).
  { unfold rule_pin_size. destruct (search dual_pin_re t).
    - store_ok.
    - destruct (search pin_re t); [store_ok|assumption]. }
  revert W2. generalize (rule_pin_size t a). clear a W. intros a W.
  assert (W3 : well_formed (rule_weight_class t a)).
  { unfold rule_weight_class. destruct (search weight_class_re t) as [m|] eqn:E; [|assumption].
    destruct (Py.truthy (grp 2 m)).
    - store_ok. store_ok.
    - store_ok; [now apply (weight_class_machine t)|]. store_ok. }
  revert W3. generalize (rule_weight_class t a). clear a W. intros a W.
  assert (W4 : well_formed (rule_coupler t a)).
  { unfold rule_coupler.
    destruct (first_found coupler_patterns t) as [name|] eqn:E.
    - assert (well_formed (Dict.set "Coupler Type" name a)).
      { store_ok. now apply (table_values coupler_patterns t). }
      destruct (_ && _); [store_ok|assumption].
    - destruct (_ && _); [store_ok|assumption]. }
  revert W4. generalize (rule_coupler t a). clear a W. intros a W.
  assert (W5 : well_formed (rule_product_type t a)).
  { unfold rule_product_type.
    destruct (first_found type_patterns t) as [name|] eqn:E; [|assumption].
    store_ok. now apply (table_values type_patterns t). }
  revert W5. generalize (rule_product_type t a). clear a W. intros a W.
  assert (W6 : well_formed (rule_hex t a)).
  { unfold rule_hex. destruct (search _ _); [store_ok|assumption]. }
  revert W6. generalize (rule_hex t a). clear a W. intros a W.
  assert (W7 : well_formed (rule_shim t a)).
  { unfold rule_shim. destruct (rmatch _ _); [|assumption].
    store_ok. }
  revert W7. generalize (rule_shim t a). clear a W. intros a W.
  assert (W8 : well_formed (rule_pin_length t a)).
  { unfold rule_pin_length. destruct (search _ _); [store_ok|assumption]. }
  revert W8. generalize (rule_pin_length t a). clear a W. intros a W.
  assert (W9 : well_formed (rule_fits_to t a)).
  { unfold rule_fits_to. destruct (found _ _); [store_ok|assumption]. }
  revert W9. generalize (rule_fits_to t a). clear a W. intros a W.
  unfold rule_attachment. repeat (destruct (found _ _); [store_ok|]). assumption.
Qed.

(** X9: every attribute [parse_name] returns has one of twelve labels
    and a value that is not the empty text. *)
Theorem parse_name_labels_values (title category k v : string) :
  Dict.get k (parse_name title category) = Some v ->
  k ∈ labels /\ v <> "".
Proof. intros H. apply (parse_name_well_formed title category), get_elem, H. Qed.

Lemma parse_name_labels_values_witness :
  Dict.get "Pin Size" (parse_name "Ditching Bucket 45mm Pins" "") = Some "45mm" /\
  "Pin Size" ∈ labels /\ "45mm" <> "".
Proof.
  assert (H : Dict.get "Pin Size" (parse_name "Ditching Bucket 45mm Pins" "") = Some "45mm")
    by (vm_compute; reflexivity).
  split; [exact H|]. exact (parse_name_labels_values _ _ _ _ H).
Defined.

End ParseNameShape.

(** ** Attributes that come together *)

Section ParseNamePairs.
Import Re Extract.

Lemma has_set_eq {V} (k : string) (v : V) (d : Dict.dict V) : Dict.has k (Dict.set k v d) = true.
Proof. unfold Dict.has. now rewrite get_set_eq. Qed.

Lemma has_set_ne {V} (k k' : string) (v : V) (d : Dict.dict V) :
  k <> k' -> Dict.has k' (Dict.set k v d) = Dict.has k' d.
Proof. intros N. unfold Dict.has. now rewrite get_set_ne. Qed.

Ltac keep_has :=
  intros; repeat case_match; repeat (rewrite has_set_ne by discriminate); reflexivity.

(** The rules after the coupler rule write neither the pins, the coupler,
    the weight class nor the machine. *)
Lemma late_rules_keep (key : string) (t : string) (a : Dict.dict string) :
  key ∈ ["Pin Size"; "Coupler Type"; "Carrier Weight Class"; "Machine Type"] ->
  Dict.has key
    (rule_attachment t (rule_fits_to t (rule_pin_length t (rule_shim t
      (rule_hex t (rule_product_type t a)))))) = Dict.has key a.
Proof.
  intros Hk.
  assert (H1 : forall a, Dict.has key (rule_attachment t a) = Dict.has key a)
    by (unfold rule_attachment; set_unfold; destruct_or!; subst; keep_has).
  assert (H2 : forall a, Dict.has key (rule_fits_to t a) = Dict.has key a)
    by (unfold rule_fits_to; set_unfold; destruct_or!; subst; keep_has).
  assert (H3 : forall a, Dict.has key (rule_pin_length t a) = Dict.has key a)
    by (unfold rule_pin_length; set_unfold; destruct_or!; subst; keep_has).
  assert (H4 : forall a, Dict.has key (rule_shim t a) = Dict.has key a)
    by (unfold rule_shim; set_unfold; destruct_or!; subst; keep_has).
  assert (H5 : forall a, Dict.has key (rule_hex t a) = Dict.has key a)
    by (unfold rule_hex; set_unfold; destruct_or!; subst; keep_has).
  assert (H6 : forall a, Dict.has key (rule_product_type t a) = Dict.has key a)
    by (unfold rule_product_type; set_unfold; destruct_or!; subst; keep_has).
  now rewrite H1, H2, H3, H4, H5, H6.
Qed.

Lemma coupler_rule_keeps (key : string) (t : string) (a : Dict.dict string) :
  key ∈ ["Pin Size"; "Carrier Weight Class"; "Machine Type"] ->
  Dict.has key (rule_coupler t a) = Dict.has key a.
Proof.
  intros Hk. unfold rule_coupler. set_unfold. destruct_or!; subst; try keep_has; contradiction.
Qed.

Lemma coupler_rule_pins (t : string) (a : Dict.dict string) :
  Dict.has "Pin Size" a = true -> Dict.has "Coupler Type" (rule_coupler t a) = true.
Proof.
  intros Hp. unfold rule_coupler.
  destruct (first_found coupler_patterns t) as [name|].
  - rewrite has_set_eq. simpl. apply has_set_eq.
  - rewrite Hp, andb_true_r. destruct (Dict.has "Coupler Type" a) eqn:E; simpl.
    + exact E.
    + apply has_set_eq.
Qed.

Lemma weight_rule_pair (t : string) (a : Dict.dict string) :
  Dict.has "Machine Type" a = Dict.has "Carrier Weight Class" a ->
  Dict.has "Machine Type" (rule_weight_class t a)
  = Dict.has "Carrier Weight Class" (rule_weight_class t a).
Proof.
  intros H. unfold rule_weight_class. destruct (search weight_class_re t); [|exact H].
  destruct (Py.truthy _); rewrite has_set_eq, has_set_ne, has_set_eq by discriminate;
    reflexivity.
Qed.

Lemma early_rules_no_weight (key : string) (t : string) :
  key ∈ ["Carrier Weight Class"; "Machine Type"] ->
  Dict.has key (rule_pin_size t (rule_diameter t (rule_size t []))) = false.
Proof.
  intros Hk. unfold rule_pin_size, rule_diameter, rule_size.
  set_unfold. destruct_or!; subst; try contradiction;
    repeat case_match; repeat (rewrite has_set_ne by discriminate); reflexivity.
Qed.

(** X10: attributes that come together: a name with a pin size always
    has a coupler type, and it has a machine type exactly when it has a
    carrier weight class. *)
Theorem parse_name_pairs (title category : string) :
  let attrs := parse_name title category in
  (Dict.has "Pin Size" attrs = true -> Dict.has "Coupler Type" attrs = true) /\
  Dict.has "Machine Type" attrs = Dict.has "Carrier Weight Class" attrs.
Proof.
  unfold parse_name. destruct (negb (Py.truthy title)); [split; [discriminate|reflexivity]|].
  set (t := Py.strip title). cbv zeta.
  rewrite !late_rules_keep by (set_solver).
  split.
  - rewrite coupler_rule_keeps by set_solver. intros H.
    apply coupler_rule_pins.
    unfold rule_weight_class. unfold rule_weight_class in H.
    destruct (search weight_class_re t); [|exact H].
    destruct (Py.truthy _); rewrite !has_set_ne in H by discriminate;
      rewrite !has_set_ne by discriminate; exact H.
  - rewrite !coupler_rule_keeps by set_solver.
    apply weight_rule_pair. now rewrite !early_rules_no_weight by set_solver.
Qed.

End ParseNamePairs.

(** ** Skid steer titles *)

Section SkidSteer.
Import Re Extract.

Lemma search_from_suffix (r : re) (s : string) :
  forall pos p s' m, search_from r pos s = Some (p, s', m) ->
    try_at r p s' = Some m /\
    exists pre, s = pre +:+ s' /\ p = (pos + String.length pre)%nat.
Proof.
  induction s as [|c t IH]; intros pos p s' m; simpl.
  - destruct (try_at r pos "") eqn:E; [|discriminate]. intros [= <- <- <-].
    split; [exact E|]. exists "". split; [reflexivity|simpl; lia].
  - destruct (try_at r pos (String c t)) eqn:E.
    + intros [= <- <- <-]. split; [exact E|]. exists "". split; [reflexivity|simpl; lia].
    + intros H. apply IH in H as [H (pre & -> & ->)]. split; [exact H|].
      exists (String c pre). split; [reflexivity|simpl; lia].
Qed.

Lemma found_sound (r : re) (s : string) :
  found r s = true ->
  exists pre s' st', s = pre +:+ s' /\ lang r (MState (String.length pre) s' []) st'.
Proof.
  unfold found, search. destruct (search_from r 0 s) as [[[p s'] m]|] eqn:E; [|discriminate].
  intros _. apply search_from_suffix in E as [E (pre & -> & ->)].
  unfold try_at in E. apply run_sound in E as (st' & H & _). eauto.
Qed.

Lemma lang_ilit_app (a b : string) :
  forall st st', lang (ilit (a +:+ b)) st st' ->
                 exists mid, lang (ilit a) st mid /\ lang (ilit b) mid st'.
Proof.
  induction a as [|c a IH]; intros st st' H.
  - rewrite append_nil in H. exists st. split; [reflexivity|exact H].
  - rewrite append_cons in H. destruct H as (m1 & Hc & H).
    apply IH in H as (mid & Ha & Hb). exists mid. split; [|exact Hb].
    exists m1. auto.
Qed.

Lemma lang_space_ws (st st' : mstate) :
  lang (ilit " ") st st' -> lang (Plus ws) st st'.
Proof.
  intros (m1 & (c & Hr & Hc & E) & ->). exists m1. split; [|apply rtc_refl].
  exists c. split; [exact Hr|]. split; [|exact E].
  destruct c as [[] [] [] [] [] [] [] []]; try discriminate Hc; reflexivity.
Qed.

(** Two words with one space between them are two words with white space
    between them. *)
Lemma found_words (a b : string) (t : string) :
  class_stars (seqs [ilit a; Plus ws; ilit b]) = true ->
  found (ilit (a +:+ " " +:+ b)) t = true ->
  found (seqs [ilit a; Plus ws; ilit b]) t = true.
Proof.
  intros C (pre & s' & st' & -> & H)%found_sound.
  apply lang_ilit_app in H as (m1 & Ha & H).
  apply (lang_ilit_app " " b) in H as (m2 & Hs & Hb).
  apply lang_space_ws in Hs.
  apply (found_complete _ pre s' st' C).
  cbn [seqs]. exists m1. split; [exact Ha|]. exists m2. auto.
Qed.

Ltac unchanged :=
  intros; repeat case_match; repeat (rewrite get_set_ne by discriminate); reflexivity.

Lemma early_rules_no_fits (t : string) :
  Dict.get "Fits To"
    (rule_pin_length t (rule_shim t (rule_hex t (rule_product_type t (rule_coupler t
      (rule_weight_class t (rule_pin_size t (rule_diameter t (rule_size t []))))))))) = None.
Proof.
  assert (H3 : forall a, Dict.get "Fits To" (rule_pin_length t a) = Dict.get "Fits To" a)
    by (unfold rule_pin_length; unchanged).
  assert (H4 : forall a, Dict.get "Fits To" (rule_shim t a) = Dict.get "Fits To" a)
    by (unfold rule_shim; unchanged).
  assert (H5 : forall a, Dict.get "Fits To" (rule_hex t a) = Dict.get "Fits To" a)
    by (unfold rule_hex; unchanged).
  assert (H6 : forall a, Dict.get "Fits To" (rule_product_type t a) = Dict.get "Fits To" a)
    by (unfold rule_product_type; unchanged).
  assert (H7 : forall a, Dict.get "Fits To" (rule_coupler t a) = Dict.get "Fits To" a)
    by (unfold rule_coupler; unchanged).
  assert (H8 : forall a, Dict.get "Fits To" (rule_weight_class t a) = Dict.get "Fits To" a)
    by (unfold rule_weight_class; unchanged).
  assert (H9 : forall a, Dict.get "Fits To" (rule_pin_size t a) = Dict.get "Fits To" a)
    by (unfold rule_pin_size; unchanged).
  assert (H10 : forall a, Dict.get "Fits To" (rule_diameter t a) = Dict.get "Fits To" a)
    by (unfold rule_diameter; unchanged).
  assert (H11 : forall a, Dict.get "Fits To" (rule_size t a) = Dict.get "Fits To" a)
    by (unfold rule_size; unchanged).
  now rewrite H3, H4, H5, H6, H7, H8, H9, H10, H11.
Qed.

(** X11: when [parse_name] sets [Fits To], its value is [Skid Steer] and
    the attachment type of the name is [Skid Steer Attachment]. *)
Theorem fits_to_with_attachment (title category v : string) :
  Dict.get "Fits To" (parse_name title category) = Some v ->
  v = "Skid Steer" /\
  Dict.get "Attachment Types" (parse_name title category) = Some "Skid Steer Attachment".
Proof.
  unfold parse_name. destruct (negb (Py.truthy title)); [discriminate|].
  set (t := Py.strip title).
  set (a := rule_pin_length t _).
  assert (Ha : Dict.get "Fits To" a = None) by apply early_rules_no_fits.
  assert (Hk : forall x, Dict.get "Fits To" (rule_attachment t x) = Dict.get "Fits To" x)
    by (unfold rule_attachment; unchanged).
  rewrite Hk. unfold rule_fits_to.
  destruct (found (ilit "Skid Steer") t) eqn:Ef; [|congruence].
  rewrite get_set_eq. intros [= <-]. split; [reflexivity|].
  unfold rule_attachment.
  replace (found (iwords ["Skid"; "Steer"]) t) with true.
  - apply get_set_eq.
  - symmetry. apply (found_words "Skid" "Steer" t eq_refl Ef).
Qed.

Lemma fits_to_with_attachment_witness :
  Dict.get "Fits To" (parse_name "72in SKID STEER Brush Cutter" "") = Some "Skid Steer" /\
  Dict.get "Attachment Types" (parse_name "72in SKID STEER Brush Cutter" "")
    = Some "Skid Steer Attachment".
Proof.
  assert (H : Dict.get "Fits To" (parse_name "72in SKID STEER Brush Cutter" "")
              = Some "Skid Steer") by (vm_compute; reflexivity).
  split; [exact H|]. exact (proj2 (fits_to_with_attachment _ _ _ H)).
Defined.

End SkidSteer.

(** ** Names against attributes *)

Section NameCheckFacts.
Import NameParser Extract NameCheck.

(** X12: a title of white space alone gives no attribute, and no row
    in the report of names against attributes. *)
Theorem blank_title_no_attribute (sku category title : string)
    (web google : Dict.dict string) :
  Py.strip title = "" ->
  parse_name title category = [] /\
  product_rows sku category title web google = [].
Proof.
  intros H.
  assert (E : parse_name title category = []).
  { unfold parse_name. destruct (negb (Py.truthy title)); [reflexivity|].
    rewrite H. vm_compute. reflexivity. }
  split; [exact E|]. unfold product_rows. rewrite E. now destruct (negb _).
Qed.

Lemma blank_title_no_attribute_witness :
  Py.strip "   " = "" /\
  parse_name "   " "Buckets" = [] /\
  product_rows "SKU-1" "Buckets" "   " [("Bucket Size", "12")] [] = [].
Proof.
  split; [reflexivity|].
  apply (blank_title_no_attribute "SKU-1" "Buckets" "   "). reflexivity.
Defined.

Lemma source_match_is_match_value (parsed_val val : string) :
  source_match parsed_val val = _match_value parsed_val val.
Proof.
  unfold source_match. destruct val; [|reflexivity]. simpl.
  symmetry. apply match_value_undefined. now right.
Qed.

(** X13: a parsed attribute gives no row exactly when one source
    confirms it and none contradicts it.  A row says MISMATCH when a
    source contradicts it; it says NOT FOUND when no source has a value to
    compare: the value from the name or both source values normalise to
    the empty text.  The test [if web_val] of the source changes nothing:
    the verdicts are those of [_match_value]. *)
Theorem attribute_row_cases (sku category title : string)
    (web google : Dict.dict string) (parsed_attr parsed_val : string) :
  let web_val := first_value (possible_names parsed_attr) web in
  let google_val := first_value (possible_names parsed_attr) google in
  let verdict_web := _match_value parsed_val web_val in
  let verdict_google := _match_value parsed_val google_val in
  let row := attribute_row sku category title web google (parsed_attr, parsed_val) in
  (row = None <->
     (verdict_web = Some true \/ verdict_google = Some true) /\
     verdict_web <> Some false /\ verdict_google <> Some false) /\
  (forall r, row = Some r ->
     (Dict.get "status" r = Some "MISMATCH" /\
      (verdict_web = Some false \/ verdict_google = Some false)) \/
     (Dict.get "status" r = Some "NOT FOUND" /\
      (_normalize_value parsed_val = "" \/
       (_normalize_value web_val = "" /\ _normalize_value google_val = "")))).
Proof.
  cbv zeta. unfold attribute_row. cbn [fst snd].
  rewrite !source_match_is_match_value.
  set (web_val := first_value _ web). set (google_val := first_value _ google).
  pose proof (match_value_undefined parsed_val web_val) as Nw.
  pose proof (match_value_undefined parsed_val google_val) as Ng.
  destruct (_match_value parsed_val web_val) as [[]|];
    destruct (_match_value parsed_val google_val) as [[]|]; cbn [issue];
    (split; [split; [try discriminate; intros _; repeat split; auto; discriminate
                    | intros ([?|?] & ? & ?); congruence]
            | intros r; try discriminate; intros [= <-]; cbn;
              first [ left; split; [reflexivity|auto; fail]
                    | right; split; [reflexivity|] ] ]).
  destruct (proj1 Nw eq_refl) as [?|?]; [now left|].
  destruct (proj1 Ng eq_refl) as [?|?]; [now left|]. now right.
Qed.

End NameCheckFacts.

(** ** Missing products *)

Section MissingFacts.
Import Comparator.

Lemma in_cell (sources : Dict.dict frame) (k S : string) (df : frame) :
  NoDup (Dict.keys sources) -> (S, df) ∈ sources ->
  Dict.get ("in_" +:+ S) (merged_row sources k) = Some (VBool (holds k df)).
Proof.
  intros Hn Hin. unfold merged_row. apply (merged_cell k _ _ S df); try assumption.
  unfold holds, source_columns. destruct (first_with_sku k df) as [p|].
  - rewrite bool_decide_eq_true_2 by eauto. set_solver.
  - rewrite bool_decide_eq_false_2 by (intros [? ?]; discriminate). set_solver.
Qed.

Lemma filter_map_fst {A} (P : string -> Prop) `{!forall s, Decision (P s)}
    (Q : string * A -> Prop) `{!forall e, Decision (Q e)} (l : list (string * A)) :
  (forall e, e ∈ l -> P (fst e) <-> Q e) ->
  filter P (map fst l) = map fst (filter Q l).
Proof.
  induction l as [|e l IH]; intros Hl; [reflexivity|].
  simpl. rewrite !filter_cons.
  pose proof (Hl e ltac:(left)) as He.
  rewrite IH by (intros e' He'; apply Hl; now right).
  destruct (decide (P e.1)), (decide (Q e)); try reflexivity; tauto.
Qed.

Lemma present_in_holders (sources : Dict.dict frame) (k : string) :
  NoDup (Dict.keys sources) ->
  present_in (Dict.keys sources) (merged_row sources k) = holders k sources.
Proof.
  intros Hn. unfold present_in, holders, Dict.keys. apply filter_map_fst.
  intros [S df] He. cbn [fst snd]. unfold row_get. rewrite (in_cell sources k S df Hn He). reflexivity.
Qed.

Lemma absent_from_lackers (sources : Dict.dict frame) (k : string) :
  NoDup (Dict.keys sources) ->
  absent_from (Dict.keys sources) (merged_row sources k) = lackers k sources.
Proof.
  intros Hn. unfold absent_from, lackers, Dict.keys. apply filter_map_fst.
  intros [S df] He. cbn [fst snd]. unfold row_get. rewrite (in_cell sources k S df Hn He). simpl.
  apply negb_true_iff.
Qed.

Lemma holders_nonempty (sources : Dict.dict frame) (k : string) :
  k ∈ all_skus sources -> holders k sources <> [].
Proof.
  intros (_ & S & df & p & Hin & Hp & Hk)%elem_of_all_skus.
  assert (H : S ∈ holders k sources).
  { unfold holders. apply (list_elem_of_fmap_2 fst _ (S, df)).
    apply list_elem_of_filter. split; [|exact Hin].
    unfold holds. apply bool_decide_eq_true_2. apply first_with_sku_some. eauto. }
  intros E. rewrite E in H. inversion H.
Qed.

Lemma example_sources_nodup : NoDup (Dict.keys example_sources).
Proof.
  unfold Dict.keys. simpl.
  repeat (apply NoDup_cons; split;
          [rewrite ?not_elem_of_cons; repeat split;
           try apply not_elem_of_nil; congruence|]).
  apply NoDup_nil. exact I.
Qed.

Lemma missing_of_merged (sources : Dict.dict frame) (k : string) :
  NoDup (Dict.keys sources) ->
  missing_row (Dict.keys sources) (merged_row sources k) =
  match lackers k sources with
  | [] => None
  | _ :: _ =>
      Some [("sku", VStr k);
            ("product_name", first_name (holders k sources) (merged_row sources k));
            ("present_in", VStr (Py.join ", " (holders k sources)));
            ("absent_from", VStr (Py.join ", " (lackers k sources)));
            ("zoho_status",
             or_empty (row_get "status_zoho" (VStr "") (merged_row sources k)))]
  end.
Proof.
  intros Hn. unfold missing_row.
  rewrite (present_in_holders sources k Hn), (absent_from_lackers sources k Hn).
  unfold row_get at 1. rewrite merged_row_sku. reflexivity.
Qed.

(** X14: [find_missing] on the merged frame reports, in ascending order
    of SKU and once each, exactly the products that some source lacks;
    each row lists the sources that hold the product, of which there is at
    least one, and the sources that lack it. *)
Theorem find_missing_of_merge (sources : Dict.dict frame) :
  NoDup (Dict.keys sources) ->
  let missing := find_missing (merge_by_sku sources) sources in
  map (Dict.get "sku") missing
  = map (fun k => Some (VStr k))
        (filter (fun k => lackers k sources <> []) (sorted (all_skus sources))) /\
  forall r, r ∈ missing ->
    exists k, k ∈ all_skus sources /\
      Dict.get "sku" r = Some (VStr k) /\
      Dict.get "present_in" r = Some (VStr (Py.join ", " (holders k sources))) /\
      Dict.get "absent_from" r = Some (VStr (Py.join ", " (lackers k sources))) /\
      holders k sources <> [] /\ lackers k sources <> [].
Proof.
  intros Hn. cbv zeta. unfold find_missing. rewrite merge_by_sku_rows. split.
  - induction (sorted (all_skus sources)) as [|k ks IH]; [reflexivity|].
    rewrite filter_cons. cbn [map omap list_omap]. 
    rewrite (missing_of_merged sources k Hn).
    destruct (lackers k sources) eqn:E.
    + rewrite decide_False by auto. exact IH.
    + rewrite decide_True by discriminate. cbn [map]. now rewrite <- IH.
  - intros r (r0 & Hr0 & Hr)%list_elem_of_omap.
    apply list_elem_of_fmap in Hr0 as (k & -> & Hk).
    apply elem_of_sorted in Hk. exists k. split; [exact Hk|].
    rewrite (missing_of_merged sources k Hn) in Hr.
    destruct (lackers k sources) eqn:E; [discriminate|]. injection Hr as <-.
    repeat (split; [reflexivity|]). split; [now apply holders_nonempty|discriminate].
Qed.

Lemma find_missing_of_merge_witness :
  NoDup (Dict.keys example_sources) /\
  map (Dict.get "present_in") (find_missing (merge_by_sku example_sources) example_sources)
  = [Some (VStr "website"); Some (VStr "zoho, website")] /\
  map (Dict.get "sku") (find_missing (merge_by_sku example_sources) example_sources)
  = map (fun k => Some (VStr k))
        (filter (fun k => lackers k example_sources <> [])
                (sorted (all_skus example_sources))).
Proof.
  pose proof example_sources_nodup as Hn.
  split; [exact Hn|]. split; [vm_compute; reflexivity|].
  exact (proj1 (find_missing_of_merge example_sources Hn)).
Defined.

End MissingFacts.

(** ** Products of a single source *)

Section DetectorFacts.
Import Comparator.
Variable fuzz_ratio : string -> string -> Z.

Lemma filter_and_length (P Q : string -> Prop) `{!forall s, Decision (P s)}
    `{!forall s, Decision (Q s)} (l : list string) :
  (forall s, P s -> Q s) -> (length (filter P l) <= length (filter Q l))%nat.
Proof.
  intros Himp. induction l as [|s l IH]; [reflexivity|].
  rewrite !filter_cons. destruct (decide (P s)) as [p|n].
  - rewrite decide_True by auto. simpl. lia.
  - destruct (decide (Q s)); simpl; lia.
Qed.

Lemma prices_within_present (source_names : list string) (r : row) :
  (length (row_prices source_names r) <= length (present_in source_names r))%nat.
Proof.
  rewrite row_prices_length. unfold present_in. apply filter_and_length.
  intros s. unfold has_price. now intros [Hin _]%andb_prop.
Qed.

Lemma names_within_present (source_names : list string) (r : row) :
  (length (row_names source_names r) <= length (present_in source_names r))%nat.
Proof.
  rewrite <- (length_map fst). change (map fst (row_names source_names r))
    with (Dict.keys (row_names source_names r)).
  rewrite row_names_keys. unfold present_in. apply filter_and_length.
  intros s. unfold has_name. now intros [Hin _]%andb_prop.
Qed.

(** X15: a product that fewer than two sources hold gives no row in the
    price report, the name report or the attribute report. *)
Theorem single_source_no_difference (cfg : config) (sources : Dict.dict frame)
    (zoho_attrs web_attrs google_attrs : cache) (k : string) :
  NoDup (Dict.keys sources) ->
  (length (holders k sources) < 2)%nat ->
  let r := merged_row sources k in
  price_difference cfg (Dict.keys sources) r = None /\
  name_difference fuzz_ratio cfg (Dict.keys sources) r = None /\
  attribute_differences (Dict.keys sources) zoho_attrs web_attrs google_attrs r = [].
Proof.
  intros Hn Hlt r.
  pose proof (present_in_holders sources k Hn) as Hp. fold r in Hp.
  pose proof (prices_within_present (Dict.keys sources) r) as H1.
  pose proof (names_within_present (Dict.keys sources) r) as H2.
  rewrite Hp in H1, H2.
  split; [|split].
  - unfold price_difference.
    destruct (Nat.ltb_spec (length (row_prices (Dict.keys sources) r)) 2); [reflexivity|lia].
  - unfold name_difference.
    destruct (Nat.ltb_spec (length (row_names (Dict.keys sources) r)) 2); [reflexivity|lia].
  - unfold attribute_differences. fold (present_in (Dict.keys sources) r). rewrite Hp.
    destruct (Nat.ltb_spec (length (holders k sources)) 2); [reflexivity|lia].
Qed.

End DetectorFacts.

Lemma single_source_no_difference_witness :
  NoDup (Dict.keys Comparator.example_sources) /\
  (length (Comparator.holders "AB-7" Comparator.example_sources) < 2)%nat /\
  Comparator.price_difference Comparator.example_config
    (Dict.keys Comparator.example_sources)
    (Comparator.merged_row Comparator.example_sources "AB-7") = None.
Proof.
  pose proof example_sources_nodup as Hn.
  assert (Hl : (length (Comparator.holders "AB-7" Comparator.example_sources) < 2)%nat)
    by (vm_compute; lia).
  split; [exact Hn|]. split; [exact Hl|].
  exact (proj1 (single_source_no_difference (fun _ _ => 100%Z) Comparator.example_config
                  Comparator.example_sources ∅ ∅ ∅ "AB-7" Hn Hl)).
Defined.

(** ** The order of the reports *)

Section ReportOrder.
Import Comparator.
Variable fuzz_ratio : string -> string -> Z.

Lemma fold_columns_keep_sku (key_of : string -> string) (val : string -> pyval)
    (names : list string) :
  (forall s, key_of s <> "sku") ->
  forall d : row,
    Dict.get "sku" (fold_left (fun d s => Dict.set (key_of s) (val s) d) names d)
    = Dict.get "sku" d.
Proof.
  intros Hk. induction names as [|s names IH]; intros d; [reflexivity|].
  simpl. rewrite IH. apply get_set_ne, Hk.
Qed.

Lemma price_row_sku (cfg : config) (names : list string) (r d : row) :
  price_difference cfg names r = Some d ->
  Dict.get "sku" d = Some (row_get "sku" VNone r).
Proof.
  unfold price_difference. repeat case_match; try discriminate. intros [= <-].
  rewrite (fold_columns_keep_sku (fun s => "price_" +:+ s)
             (fun s => of_price (Dict.get s (row_prices names r)))).
  - reflexivity.
  - intros s. rewrite append_cons. discriminate.
Qed.

Lemma name_row_sku (cfg : config) (names : list string) (r d : row) :
  name_difference fuzz_ratio cfg names r = Some d ->
  Dict.get "sku" d = Some (row_get "sku" VNone r).
Proof.
  unfold name_difference. repeat case_match; try discriminate. intros [= <-].
  rewrite (fold_columns_keep_sku (fun s => "name_" +:+ s)
             (fun s => VStr (default "" (Dict.get s (row_names names r))))).
  - reflexivity.
  - intros s. rewrite append_cons. discriminate.
Qed.

Lemma rows_by_sku (f : row -> option row) (sources : Dict.dict frame) (ks : list string) :
  (forall r d, f r = Some d -> Dict.get "sku" d = Some (row_get "sku" VNone r)) ->
  map (Dict.get "sku") (omap f (map (merged_row sources) ks))
  = map (fun k => Some (VStr k))
        (filter (fun k => is_Some (f (merged_row sources k))) ks).
Proof.
  intros Hf. induction ks as [|k ks IH]; [reflexivity|].
  rewrite filter_cons. cbn [map omap list_omap].
  destruct (f (merged_row sources k)) as [d|] eqn:E.
  - rewrite decide_True by eauto. cbn [map]. rewrite IH. f_equal.
    rewrite (Hf _ _ E). unfold row_get. now rewrite merged_row_sku.
  - rewrite decide_False by (intros [? ?]; discriminate). exact IH.
Qed.

Lemma StronglySorted_filter {A} (R : relation A) (P : A -> Prop)
    `{!forall x, Decision (P x)} (l : list A) :
  StronglySorted R l -> StronglySorted R (filter P l).
Proof.
  induction 1 as [|x l Hs IH Hall]; [constructor|].
  rewrite filter_cons. destruct (decide (P x)); [|exact IH].
  constructor; [exact IH|]. rewrite Forall_forall in *.
  intros y [_ Hy]%list_elem_of_filter. auto.
Qed.

(** X16: the price report and the name report on the merged frame have
    at most one row for a SKU, in ascending order of SKU: their SKUs are
    those of the merged frame for which the detector gives a row. *)
Theorem reports_follow_merge (cfg : config) (sources : Dict.dict frame) :
  let merged := merge_by_sku sources in
  let names := Dict.keys sources in
  exists kp kn : list string,
    map (Dict.get "sku") (find_price_differences cfg merged sources)
      = map (fun k => Some (VStr k)) kp /\
    map (Dict.get "sku") (find_name_differences fuzz_ratio cfg merged sources)
      = map (fun k => Some (VStr k)) kn /\
    kp = filter (fun k => is_Some (price_difference cfg names (merged_row sources k)))
                (sorted (all_skus sources)) /\
    kn = filter (fun k => is_Some (name_difference fuzz_ratio cfg names
                                     (merged_row sources k)))
                (sorted (all_skus sources)) /\
    NoDup kp /\ StronglySorted str_le kp /\ NoDup kn /\ StronglySorted str_le kn.
Proof.
  cbv zeta. eexists _, _.
  unfold find_price_differences, find_name_differences. rewrite merge_by_sku_rows.
  split; [apply rows_by_sku, price_row_sku|].
  split; [apply rows_by_sku, name_row_sku|].
  split; [reflexivity|]. split; [reflexivity|].
  repeat split; try (apply NoDup_filter, sorted_nodup);
    apply StronglySorted_filter, sorted_ascending.
Qed.

End ReportOrder.

(** ** The columns of the merged frame *)

Section Columns.
Import Comparator.

Lemma keys_set_fresh {V} (k : string) (v : V) (d : Dict.dict V) :
  k ∉ Dict.keys d -> Dict.keys (Dict.set k v d) = (Dict.keys d ++ [k])%list.
Proof.
  induction d as [|[k' v'] d IH]; intros Hk; [reflexivity|].
  simpl in *. apply not_elem_of_cons in Hk as [N Hk].
  destruct (String.eqb_spec k' k); [congruence|]. simpl. now rewrite IH.
Qed.

Lemma fold_store_keys (kvs : list (string * pyval)) :
  forall r : row,
    NoDup (map fst kvs) -> (forall key, key ∈ map fst kvs -> key ∉ Dict.keys r) ->
    Dict.keys (fold_left store kvs r) = (Dict.keys r ++ map fst kvs)%list.
Proof.
  induction kvs as [|[key v] kvs IH]; intros r Hn Hf.
  - simpl. now rewrite app_nil_r.
  - simpl in *. apply NoDup_cons in Hn as [Hk Hn].
    rewrite IH; [| exact Hn |].
    + unfold store. simpl. rewrite keys_set_fresh by (apply Hf; left).
      now rewrite <- app_assoc.
    + intros key' Hk'. unfold store. simpl.
      rewrite keys_set_fresh by (apply Hf; left).
      intros [H|H%list_elem_of_singleton]%elem_of_app.
      * apply (Hf key'); [now right|exact H].
      * subst. contradiction.
Qed.

Lemma merged_columns (k : string) (sources : Dict.dict frame) :
  forall r : row,
    NoDup (Dict.keys sources) ->
    (forall e pre, e ∈ sources -> pre ∈ column_prefixes -> pre +:+ fst e ∉ Dict.keys r) ->
    Dict.keys (fold_left (add_source k) sources r)
    = (Dict.keys r ++
       flat_map (fun e => map (fun pre => pre +:+ fst e) column_prefixes) sources)%list.
Proof.
  induction sources as [|e sources IH]; intros r Hn Hf.
  - simpl. now rewrite app_nil_r.
  - unfold Dict.keys in Hn. simpl in Hn. apply NoDup_cons in Hn as [He Hn].
    assert (E : Dict.keys (add_source k r e)
                = (Dict.keys r ++ map (fun pre => pre +:+ fst e) column_prefixes)%list).
    { rewrite add_source_columns, fold_store_keys.
      - now rewrite source_columns_keys.
      - apply source_columns_nodup.
      - rewrite source_columns_keys. intros key (pre & -> & Hpre)%list_elem_of_fmap.
        apply Hf; [left|exact Hpre]. }
    cbn [fold_left flat_map]. rewrite IH; [| exact Hn |].
    + now rewrite E, <- app_assoc.
    + intros e' pre He' Hpre. rewrite E.
      intros [H|H]%elem_of_app.
      * revert H. apply Hf; [now right|exact Hpre].
      * apply list_elem_of_fmap in H as (pre' & Heq & Hpre').
        revert Heq. apply column_other_source; try assumption.
        intros Heq. apply He. rewrite <- Heq. now apply list_elem_of_fmap_2.
Qed.

(** X17: every row of the merged frame has the same columns in the same
    order: [sku], then for each source in turn its name, price, sale price,
    category, status and presence flag. *)
Theorem merged_rows_same_columns (sources : Dict.dict frame) (r : row) :
  NoDup (Dict.keys sources) ->
  r ∈ merge_by_sku sources ->
  Dict.keys r
  = "sku" :: flat_map (fun e => map (fun pre => pre +:+ fst e)
                                    ["name_"; "price_"; "sale_price_"; "category_";
                                     "status_"; "in_"]) sources.
Proof.
  intros Hn. rewrite merge_by_sku_rows. intros (k & -> & _)%list_elem_of_fmap.
  unfold merged_row. rewrite merged_columns; [reflexivity|exact Hn|].
  intros e pre _ Hpre. simpl. intros H%list_elem_of_singleton.
  revert H. now apply column_not_sku.
Qed.

Lemma merged_rows_same_columns_witness :
  NoDup (Dict.keys example_sources) /\
  merged_row example_sources "AB-7" ∈ merge_by_sku example_sources /\
  Dict.keys (merged_row example_sources "AB-7")
  = ["sku"; "name_zoho"; "price_zoho"; "sale_price_zoho"; "category_zoho";
     "status_zoho"; "in_zoho"; "name_website"; "price_website"; "sale_price_website";
     "category_website"; "status_website"; "in_website"; "name_google"; "price_google";
     "sale_price_google"; "category_google"; "status_google"; "in_google"].
Proof.
  pose proof example_sources_nodup as Hn.
  assert (Hr : merged_row example_sources "AB-7" ∈ merge_by_sku example_sources).
  { apply list_elem_of_In. vm_compute. left. reflexivity. }
  split; [exact Hn|]. split; [exact Hr|].
  exact (merged_rows_same_columns example_sources _ Hn Hr).
Defined.

End Columns.

(** ** The extra columns of the grid *)

Section GridColumns.
Import GridView.

Lemma sublist_In {A} (l1 l2 : list A) (x : A) : sublist l1 l2 -> x ∈ l1 -> x ∈ l2.
Proof.
  induction 1 as [|y l1 l2 _ IH|y l1 l2 _ IH]; intros Hx.
  - exact Hx.
  - apply elem_of_cons in Hx as [->|Hx]; [left|right; auto].
  - right; auto.
Qed.

Lemma StronglySorted_sublist {A} (R : relation A) (l1 l2 : list A) :
  sublist l1 l2 -> StronglySorted R l2 -> StronglySorted R l1.
Proof.
  induction 1 as [|y l1 l2 Hs IH|y l1 l2 Hs IH]; intros H2.
  - constructor.
  - apply StronglySorted_inv in H2 as [H2 Hall]. constructor; [auto|].
    rewrite Forall_forall in *. intros x Hx. apply Hall. eapply sublist_In; eassumption.
  - apply StronglySorted_inv in H2 as [H2 _]. auto.
Qed.

Lemma selected_snoc (ac l : list string) (key : string) :
  selected ac (l ++ [key]) = filter_step ac (selected ac l) key.
Proof. unfold selected. now rewrite fold_left_app. Qed.

Lemma selected_sublist (ac l : list string) : sublist (selected ac l) l.
Proof.
  induction l as [|key l IH] using rev_ind; [constructor|].
  rewrite selected_snoc. unfold filter_step.
  destruct (skipped key); [now apply sublist_inserts_r|].
  destruct (covered _ _ _); [now apply sublist_inserts_r|].
  apply sublist_app; [exact IH|reflexivity].
Qed.

Lemma covered_false (ac res : list string) (key : string) :
  covered ac res key = false <->
  forall e, e ∈ (ac ++ res)%list -> overlaps e key = false.
Proof.
  unfold covered. split.
  - intros H e He. destruct (overlaps e key) eqn:E; [|reflexivity].
    rewrite <- H. symmetry. apply existsb_exists. exists e.
    split; [now apply list_elem_of_In|exact E].
  - intros H. destruct (existsb _ _) eqn:E; [|reflexivity].
    apply existsb_exists in E as (e & He & E). apply list_elem_of_In in He.
    now rewrite (H e He) in E.
Qed.

Lemma selected_sound (ac l : list string) :
  (forall key, key ∈ selected ac l ->
     skipped key = false /\ forall e, e ∈ ac -> overlaps e key = false) /\
  (forall i j a b, (i < j)%nat -> selected ac l !! i = Some a ->
     selected ac l !! j = Some b -> overlaps a b = false).
Proof.
  induction l as [|key l [IH1 IH2]] using rev_ind.
  - split; [intros key H; inversion H|intros i j a b _ H; discriminate H].
  - rewrite selected_snoc. unfold filter_step.
    destruct (skipped key) eqn:Es; [now split|].
    destruct (covered ac (selected ac l) key) eqn:Ec; [now split|].
    pose proof (proj1 (covered_false _ _ _) Ec) as Hc. split.
    + intros k [Hk|Hk%list_elem_of_singleton]%elem_of_app; [now apply IH1|].
      subst k. split; [exact Es|]. intros e He. apply Hc, elem_of_app. now left.
    + intros i j a b Hij Ha Hb.
      destruct (decide (j < length (selected ac l))%nat) as [Hj|Hj].
      * rewrite lookup_app_l in Ha, Hb by lia. eauto.
      * rewrite lookup_app_r in Hb by lia.
        destruct (j - length (selected ac l))%nat as [|n] eqn:En; [|now destruct n].
        injection Hb as <-.
        assert (Hi : (i < length (selected ac l))%nat) by lia.
        rewrite lookup_app_l in Ha by lia.
        apply Hc, elem_of_app. right. eapply list_elem_of_lookup_2, Ha.
Qed.

Lemma selected_complete (ac l : list string) (key : string) :
  key ∈ l -> key ∉ selected ac l ->
  skipped key = true \/ exists e, e ∈ (ac ++ selected ac l)%list /\ overlaps e key = true.
Proof.
  induction l as [|x l IH] using rev_ind; [intros H; inversion H|].
  rewrite selected_snoc.
  assert (Hmono : forall e, e ∈ (ac ++ selected ac l)%list ->
                            e ∈ (ac ++ filter_step ac (selected ac l) x)%list).
  { intros e [He|He]%elem_of_app; apply elem_of_app; [now left|right].
    unfold filter_step. destruct (skipped x); [exact He|].
    destruct (covered _ _ _); [exact He|]. apply elem_of_app. now left. }
  intros [Hk|Hk%list_elem_of_singleton]%elem_of_app Hn.
  - destruct IH as [Hs|(e & He & Ho)]; [exact Hk| |now left|right; eauto].
    intros Hin. apply Hn. unfold filter_step. destruct (skipped x); [exact Hin|].
    destruct (covered _ _ _); [exact Hin|]. apply elem_of_app. now left.
  - subst x. unfold filter_step in Hn. destruct (skipped key) eqn:Es; [now left|].
    destruct (covered ac (selected ac l) key) eqn:Ec.
    + right. unfold covered in Ec. apply existsb_exists in Ec as (e & He & Ho).
      exists e. split; [|exact Ho]. apply Hmono. now apply list_elem_of_In.
    + exfalso. apply Hn, elem_of_app. right. left.
Qed.

(** X18: the extra columns [_filter_important_attrs] selects: at most
    fifteen keys of the set, in ascending order, none of them matching a
    skip pattern, none with a base that equals, holds or lies in the base
    of a column already covered or of another selected key.  When fewer
    than fifteen are selected, every key left out matches a skip pattern
    or has such a base. *)
Theorem filter_important_attrs_spec (all_keys : gset string) (already_covered : list string) :
  let res := _filter_important_attrs all_keys already_covered in
  (length res <= 15)%nat /\
  StronglySorted Comparator.str_le res /\
  (forall key, key ∈ res ->
     key ∈ all_keys /\ skipped key = false /\
     forall e, e ∈ already_covered -> overlaps e key = false) /\
  (forall i j a b, (i < j)%nat -> res !! i = Some a -> res !! j = Some b ->
     overlaps a b = false) /\
  ((length res < 15)%nat ->
   forall key, key ∈ all_keys -> key ∉ res ->
     skipped key = true \/
     exists e, e ∈ (already_covered ++ res)%list /\ overlaps e key = true).
Proof.
  cbv zeta. unfold _filter_important_attrs.
  set (l := Comparator.sorted all_keys). set (full := selected already_covered l).
  pose proof (selected_sound already_covered l) as [S1 S2]. fold full in S1, S2.
  assert (Hsub : sublist (take 15 full) l).
  { etransitivity; [apply sublist_take|apply selected_sublist]. }
  split; [rewrite length_take; lia|].
  split; [apply (StronglySorted_sublist _ _ l Hsub), sorted_ascending|].
  split.
  { intros key Hk. split.
    - apply elem_of_sorted. eapply sublist_In; eassumption.
    - apply S1. eapply sublist_In; [apply sublist_take|exact Hk]. }
  split.
  { intros i j a b Hij Ha Hb.
    apply lookup_take_Some in Ha as [Ha _]. apply lookup_take_Some in Hb as [Hb _]. eauto. }
  intros Hlt. rewrite length_take in Hlt.
  rewrite take_ge by lia. intros key Hk Hn.
  apply selected_complete; [now apply elem_of_sorted|exact Hn].
Qed.

End GridColumns.

(** ** The value of the name in the grid *)

Section GridLookup.
Import Extract GridView.

Lemma contains_refl (s : string) : Py.contains s s = true.
Proof.
  assert (H : Py.starts_with s s = true).
  { induction s as [|c s IH]; [reflexivity|]. simpl. now rewrite Ascii.eqb_refl. }
  destruct s; simpl in *; [reflexivity|]. now rewrite H.
Qed.

(** X19: [_find_parsed_value] on the attributes of a name returns the
    empty text exactly when no label of the name matches the column (is
    equal to it, holds it or lies in it, without regard to case); a text
    it returns that is not empty is the value of a label that matches. *)
Theorem find_parsed_value_of_name (title category attr_name : string) :
  let parsed := parse_name title category in
  let v := _find_parsed_value parsed attr_name in
  (v = "" <-> forall k, k ∈ Dict.keys parsed -> label_matches attr_name k = false) /\
  (v <> "" -> exists k, (k, v) ∈ parsed /\ label_matches attr_name k = true).
Proof.
  cbv zeta. pose proof (parse_name_well_formed title category) as W.
  set (parsed := parse_name title category) in *.
  unfold _find_parsed_value.
  assert (Hself : label_matches attr_name attr_name = true).
  { unfold label_matches. now rewrite contains_refl. }
  destruct (Dict.get attr_name parsed) as [v|] eqn:Eg.
  - apply get_elem in Eg. destruct (W _ _ Eg) as [_ Hv]. split.
    + split; [contradiction|]. intros H. exfalso.
      assert (Hk : attr_name ∈ Dict.keys parsed)
        by (apply (list_elem_of_fmap_2 fst _ (attr_name, v)), Eg).
      specialize (H _ Hk). congruence.
    + intros _. eauto.
  - destruct (find _ parsed) as [[k v]|] eqn:Ef.
    + apply find_some in Ef as [Hin Hm]. apply list_elem_of_In in Hin.
      destruct (W _ _ Hin) as [_ Hv]. cbn [fst snd] in *. split.
      * split; [contradiction|]. intros H. exfalso.
        assert (Hk : k ∈ Dict.keys parsed)
          by (apply (list_elem_of_fmap_2 fst _ (k, v)), Hin).
        specialize (H _ Hk). congruence.
      * intros _. eauto.
    + split; [|congruence]. split; [|reflexivity]. intros _ k Hk.
      apply list_elem_of_fmap in Hk as ([k' v'] & -> & Hin).
      apply list_elem_of_In in Hin. apply (find_none _ _ Ef _ Hin).
Qed.

End GridLookup.

(** ** Sources that agree *)

Section Agreement.
Import Comparator.
Variable fuzz_ratio : string -> string -> Z.

Lemma sub_self_zero (x : Fl.float) :
  Fl.is_finite x = true -> exists s, Fl.sub x x = S754_zero s.
Proof.
  destruct x as [s|s| |s m e]; try discriminate; intros _; unfold Fl.sub; simpl.
  - destruct s; simpl; eauto.
  - rewrite Z.sub_diag. simpl. eauto.
Qed.

Lemma zero_leb (s : bool) (t : Fl.float) :
  Fl.leb (S754_zero false) t = true -> Fl.leb (S754_zero s) t = true.
Proof. destruct t as [st|st| |st m e]; intros H; exact H. Qed.

Lemma has_diff_equal (cfg : config) (names : list string) (n : string) :
  (forall s, fuzz_ratio s s = 100%Z) ->
  (forall m, m ∈ names -> Py.lower m = Py.lower n) ->
  has_diff fuzz_ratio cfg names = false.
Proof.
  intros Hr. induction names as [|x names IH]; intros Hall; [reflexivity|].
  simpl. rewrite IH by (intros m Hm; apply Hall; now right).
  rewrite orb_false_r. apply not_true_is_false. intros H.
  apply existsb_exists in H as (y & Hy & Hc). apply list_elem_of_In in Hy.
  unfold close_not_equal in Hc.
  rewrite (Hall x) in Hc by left. rewrite (Hall y) in Hc by now right.
  rewrite Hr in Hc. discriminate Hc.
Qed.

(** A row whose prices are one and the same number gives no price row. *)
Lemma equal_prices_no_row (cfg : config) (source_names : list string) (r : row)
    (X : Fl.float) :
  Fl.is_finite X = true ->
  Fl.leb zero (PRICE_TOLERANCE cfg) = true ->
  (forall f, f ∈ Dict.values (row_prices source_names r) -> f = X) ->
  price_difference cfg source_names r = None.
Proof.
  intros HX Htol Hp. unfold price_difference.
  destruct (length (row_prices source_names r) <? 2)%nat eqn:El; [reflexivity|].
  assert (Hne : Dict.values (row_prices source_names r) <> []).
  { intros E. apply (f_equal length) in E. unfold Dict.values in E.
    rewrite length_map in E. apply Nat.ltb_ge in El. simpl in E. lia. }
  destruct (all_equal_extremes X _ Hne Hp) as [-> ->].
  destruct (sub_self_zero X HX) as [s ->].
  now rewrite (zero_leb s _ Htol).
Qed.

(** A row whose names are equal up to case gives no name row. *)
Lemma equal_names_no_row (cfg : config) (source_names : list string) (r : row)
    (n : string) :
  (forall s, fuzz_ratio s s = 100%Z) ->
  (forall m, m ∈ Dict.values (row_names source_names r) -> Py.lower m = Py.lower n) ->
  name_difference fuzz_ratio cfg source_names r = None.
Proof.
  intros Hr Hn. unfold name_difference.
  destruct (length (row_names source_names r) <? 2)%nat; [reflexivity|].
  now rewrite (has_diff_equal cfg _ n Hr Hn).
Qed.

End Agreement.

(** ** The first number of a text *)

Section FirstNumber.
Import Re Comparator.

Lemma take_while_split (p : ascii -> bool) (s : string) :
  exists rest, s = Py.take_while p s +:+ rest /\
               Py.all_chars p (Py.take_while p s) = true /\
               (forall c r, rest = String c r -> p c = false).
Proof.
  induction s as [|c t (rest & E & Hall & Hr)]; simpl.
  - exists "". repeat split. intros c r H. discriminate H.
  - destruct (p c) eqn:Pc.
    + exists rest. rewrite append_cons, <- E. simpl. rewrite Pc, Hall.
      repeat split. exact Hr.
    + exists (String c t). repeat split. intros c' r [= <- _]. exact Pc.
Qed.

Lemma run_chr {A} (p : ascii -> bool) (k : mstate -> option A) (st : mstate) :
  run (Chr p) k st =
  match m_rest st with
  | String c t => if p c then k (advance st t) else None
  | "" => None
  end.
Proof. reflexivity. Qed.

(** A greedy repetition of a class, followed by a continuation that
    accepts, goes over the whole run. *)
Lemma star_class_greedy {A} (p : ascii -> bool) (g : mstate -> A) (d rest : string) :
  Py.all_chars p d = true ->
  (forall c r, rest = String c r -> p c = false) ->
  forall pos caps,
    run (Star (Chr p)) (fun st' => Some (g st')) (MState pos (d +:+ rest) caps)
    = Some (g (MState (pos + String.length d) rest caps)).
Proof.
  intros Hall Hrest pos caps. simpl.
  assert (G : forall fuel d pos, Py.all_chars p d = true -> (String.length d <= fuel)%nat ->
    (fix loop (fuel : nat) (st : mstate) : option A :=
       match fuel with
       | O => Some (g st)
       | S fuel' =>
           orelse
             (run (Chr p) (fun st' => if (m_pos st <? m_pos st')%nat
                                      then loop fuel' st' else None) st)
             (Some (g st))
       end) fuel (MState pos (d +:+ rest) caps)
    = Some (g (MState (pos + String.length d) rest caps))).
  { clear d pos Hall. induction fuel as [|fuel IH]; intros d pos Hall Hf.
    - destruct d; [|simpl in Hf; lia]. rewrite append_nil. simpl. now rewrite Nat.add_0_r.
    - destruct d as [|c d].
      + rewrite append_nil, run_chr. cbn [m_rest String.length]. rewrite Nat.add_0_r.
        destruct rest as [|c r]; [reflexivity|]. now rewrite (Hrest c r eq_refl).
      + rewrite append_cons. simpl in Hall. apply andb_prop in Hall as [Pc Hall].
        rewrite run_chr. cbn [m_rest]. rewrite Pc. cbn [advance m_pos m_caps].
        destruct (Nat.ltb_spec pos (S pos)); [|lia].
        unfold advance. cbn [m_pos m_caps].
        rewrite IH by (assumption || (simpl in Hf; lia)).
        cbn [orelse String.length]. now rewrite Nat.add_succ_r. }
  apply G; [exact Hall|]. rewrite length_append_s. lia.
Qed.

Lemma search_first_run (p : ascii -> bool) (s : string) :
  forall pos,
    match search_from (Grp 1 (Plus (Chr p))) pos s with
    | Some (_, _, m) => group 1 (m_caps m) = Some (Py.first_run p s)
    | None => Py.first_run p s = ""
    end.
Proof.
  induction s as [|c t IH]; intros pos; [reflexivity|].
  cbn [search_from]. unfold try_at.
  change (run (Grp 1 (Plus (Chr p))) Some (MState pos (String c t) []))
    with (run (Chr p)
            (run (Star (Chr p))
               (fun st' => Some (capture 1 (MState pos (String c t) []) st')))
            (MState pos (String c t) [])).
  rewrite run_chr. cbn [m_rest]. unfold Py.first_run. cbn [Py.drop_until].
  destruct (p c) eqn:Pc.
  - destruct (take_while_split p t) as (rest & E & Hall & Hr).
    unfold advance. cbn [m_pos m_caps Py.take_while]. rewrite Pc. clear IH.
    generalize dependent (Py.take_while p t). intros d E Hall. subst t.
    rewrite (star_class_greedy p _ d rest Hall Hr).
    cbn [capture m_caps m_pos m_rest group Nat.eqb].
    replace (S pos + String.length d - pos)%nat with (S (String.length d)) by lia.
    cbn [Py.take_str]. now rewrite take_str_app.
  - specialize (IH (S pos)). exact IH.
Qed.

(** X21: on plain text [_parse_weight] reads the weight from the first
    run of digits and dots of the text (stripped, in lower case, its commas
    removed) and from nothing after it, but for the unit: with [kg]
    anywhere in the text the number is converted to pounds.  Where that
    run is not a number the result is [None]. *)
Theorem parse_weight_first_number (v : string) :
  Py.plain v = true ->
  v <> "" ->
  let s := Py.replace "," "" (Py.lower (Py.strip v)) in
  _parse_weight (Some v) =
  match Fl.of_token (Py.first_run (fun c => Py.is_digit c || Ascii.eqb c ".") s) with
  | Some w =>
      Some (Fl.round2 (if Py.contains "kg" s then Fl.round2 (Fl.mul w kg_to_lb) else w))
  | None => None
  end.
Proof.
  intros _ Hv s. unfold _parse_weight. apply truthy_nonempty in Hv. rewrite Hv. cbn [negb].
  fold s. unfold search, number_group_re.
  pose proof (search_first_run (fun c => Py.is_digit c || Ascii.eqb c ".") s 0) as H.
  destruct (search_from _ 0 s) as [[[p0 s0] m]|]; cbn [option_map snd].
  - rewrite H. reflexivity.
  - rewrite H. reflexivity.
Qed.

Lemma parse_weight_first_number_witness :
  Py.plain "12.5 kg (27 lb)" = true /\
  "12.5 kg (27 lb)" <> "" /\
  _parse_weight (Some "12.5 kg (27 lb)") = Some (Fl.of_decimal 2756 2).
Proof.
  split; [vm_compute; reflexivity|]. split; [discriminate|].
  rewrite (parse_weight_first_number "12.5 kg (27 lb)");
    [|vm_compute; reflexivity|discriminate].
  vm_compute. reflexivity.
Defined.

End FirstNumber.

(** ** The numeric attributes of a name *)

Section NumericValues.
Import Re Extract.

(** What a group of digits adds to the captures. *)
Lemma digit_group (n : nat) (st st' : mstate) :
  lang (Grp n (Plus digit)) st st' ->
  exists d, digits d /\ m_caps st' = (n, d) :: m_caps st.
Proof.
  intros (mid & H & ->). apply lang_plus_class in H as (d & Ed & Hall & Hne & Pd & Hc).
  exists d. split.
  - split; [now rewrite all_digits_chars|exact Hne].
  - rewrite (capture_text n st mid d Ed Pd). now rewrite Hc.
Qed.

Lemma rule_size_frame (k t : string) (a : Dict.dict string) :
  k <> "Bucket Size" -> Dict.get k (rule_size t a) = Dict.get k a.
Proof. intros N. unfold rule_size. case_match; [|reflexivity]. apply get_set_ne. congruence. Qed.

Lemma rule_diameter_frame (k t : string) (a : Dict.dict string) :
  k <> "Diameter (mm)" -> Dict.get k (rule_diameter t a) = Dict.get k a.
Proof. intros N. unfold rule_diameter. case_match; [|reflexivity]. apply get_set_ne. congruence. Qed.

Lemma rule_pin_size_frame (k t : string) (a : Dict.dict string) :
  k <> "Pin Size" -> Dict.get k (rule_pin_size t a) = Dict.get k a.
Proof.
  intros N. unfold rule_pin_size. repeat case_match; try reflexivity;
    apply get_set_ne; congruence.
Qed.

Lemma rule_weight_class_frame (k t : string) (a : Dict.dict string) :
  k <> "Carrier Weight Class" -> k <> "Machine Type" ->
  Dict.get k (rule_weight_class t a) = Dict.get k a.
Proof.
  intros N1 N2. unfold rule_weight_class. repeat case_match; try reflexivity;
    rewrite !get_set_ne by congruence; reflexivity.
Qed.

Lemma rule_coupler_frame (k t : string) (a : Dict.dict string) :
  k <> "Coupler Type" -> Dict.get k (rule_coupler t a) = Dict.get k a.
Proof.
  intros N. unfold rule_coupler. repeat case_match; try reflexivity;
    rewrite !get_set_ne by congruence; reflexivity.
Qed.

Lemma rule_product_type_frame (k t : string) (a : Dict.dict string) :
  k <> "Product Type" -> Dict.get k (rule_product_type t a) = Dict.get k a.
Proof.
  intros N. unfold rule_product_type. case_match; [|reflexivity]. apply get_set_ne. congruence.
Qed.

Lemma rule_hex_frame (k t : string) (a : Dict.dict string) :
  k <> "Hex Size" -> Dict.get k (rule_hex t a) = Dict.get k a.
Proof. intros N. unfold rule_hex. case_match; [|reflexivity]. apply get_set_ne. congruence. Qed.

Lemma rule_shim_frame (k t : string) (a : Dict.dict string) :
  k <> "Dimensions (mm)" -> Dict.get k (rule_shim t a) = Dict.get k a.
Proof. intros N. unfold rule_shim. case_match; [|reflexivity]. apply get_set_ne. congruence. Qed.

Lemma rule_pin_length_frame (k t : string) (a : Dict.dict string) :
  k <> "Length (mm)" -> Dict.get k (rule_pin_length t a) = Dict.get k a.
Proof.
  intros N. unfold rule_pin_length. case_match; [|reflexivity]. apply get_set_ne. congruence.
Qed.

Lemma rule_fits_to_frame (k t : string) (a : Dict.dict string) :
  k <> "Fits To" -> Dict.get k (rule_fits_to t a) = Dict.get k a.
Proof. intros N. unfold rule_fits_to. case_match; [|reflexivity]. apply get_set_ne. congruence. Qed.

Lemma rule_attachment_frame (k t : string) (a : Dict.dict string) :
  k <> "Attachment Types" -> Dict.get k (rule_attachment t a) = Dict.get k a.
Proof.
  intros N. unfold rule_attachment. repeat case_match; try reflexivity;
    apply get_set_ne; congruence.
Qed.

Ltac same_caps H :=
  match type of H with
  | lang ?r _ _ => apply (lang_keeps_caps r eq_refl) in H
  end.

Ltac frames :=
  rewrite ?rule_attachment_frame, ?rule_fits_to_frame, ?rule_pin_length_frame,
    ?rule_shim_frame, ?rule_hex_frame, ?rule_product_type_frame, ?rule_coupler_frame,
    ?rule_weight_class_frame, ?rule_pin_size_frame, ?rule_diameter_frame,
    ?rule_size_frame by discriminate.

Lemma diameter_value (t : string) (m : mstate) :
  rmatch diameter_re t = Some m -> exists d, digits d /\ grp 1 m = d.
Proof.
  intros H. apply rmatch_sound in H. unfold diameter_re in H. cbn [seqs] in H.
  destruct H as (s1 & (_ & ->) & s2 & Hg & Hrest).
  apply digit_group in Hg as (d & Hd & Hc).
  same_caps Hrest.
  exists d. split; [exact Hd|]. unfold grp. rewrite Hrest, Hc. reflexivity.
Qed.

Lemma pin_value (t : string) (m : mstate) :
  search pin_re t = Some m -> exists d, digits d /\ grp 1 m = d.
Proof.
  intros H. apply search_sound in H as (pos & s' & H). unfold pin_re in H. cbn [seqs] in H.
  destruct H as (s2 & Hg & Hrest).
  apply digit_group in Hg as (d & Hd & Hc).
  same_caps Hrest.
  exists d. split; [exact Hd|]. unfold grp. rewrite Hrest, Hc. reflexivity.
Qed.

Lemma dual_pin_value (t : string) (m : mstate) :
  search dual_pin_re t = Some m ->
  exists d1 d2, digits d1 /\ digits d2 /\ grp 1 m = d1 /\ grp 2 m = d2.
Proof.
  intros H. apply search_sound in H as (pos & s' & H).
  unfold dual_pin_re in H. cbn [seqs] in H.
  destruct H as (s1 & Hg1 & s2 & H2 & s3 & H3 & s4 & H4 & s5 & H5 & s6 & H6
                 & s7 & Hg2 & Hrest).
  apply digit_group in Hg1 as (d1 & Hd1 & Hc1).
  apply digit_group in Hg2 as (d2 & Hd2 & Hc2).
  same_caps H2. same_caps H3. same_caps H4. same_caps H5. same_caps H6. same_caps Hrest.
  exists d1, d2. repeat (split; [assumption|]).
  unfold grp. rewrite Hrest, Hc2, H6, H5, H4, H3, H2, Hc1. split; reflexivity.
Qed.

Lemma hex_value (t : string) (m : mstate) :
  search hex_re t = Some m -> exists d, digits d /\ grp 1 m = d.
Proof.
  intros H. apply search_sound in H as (pos & s' & H). unfold hex_re in H. cbn [seqs] in H.
  destruct H as (s2 & Hg & Hrest).
  apply digit_group in Hg as (d & Hd & Hc).
  same_caps Hrest.
  exists d. split; [exact Hd|]. unfold grp. rewrite Hrest, Hc. reflexivity.
Qed.

Lemma shim_value (t : string) (m : mstate) :
  rmatch shim_re t = Some m ->
  exists d1 d2 d3, digits d1 /\ digits d2 /\ digits d3 /\
                   grp 1 m = d1 /\ grp 2 m = d2 /\ grp 3 m = d3.
Proof.
  intros H. apply rmatch_sound in H. unfold shim_re in H. cbn [seqs] in H.
  destruct H as (s0 & (_ & ->) & s1 & Hg1 & s2 & H2 & s3 & H3 & s4 & H4 & s5 & Hg2
                 & s6 & H6 & s7 & H7 & s8 & H8 & s9 & Hg3 & Hrest).
  apply digit_group in Hg1 as (d1 & Hd1 & Hc1).
  apply digit_group in Hg2 as (d2 & Hd2 & Hc2).
  apply digit_group in Hg3 as (d3 & Hd3 & Hc3).
  same_caps H2. same_caps H3. same_caps H4. same_caps H6. same_caps H7. same_caps H8. same_caps Hrest.
  exists d1, d2, d3. repeat (split; [assumption|]).
  unfold grp. rewrite Hrest, Hc3, H8, H7, H6, Hc2, H4, H3, H2, Hc1. repeat split.
Qed.

Lemma pin_length_value (t : string) (m : mstate) :
  search pin_length_re t = Some m -> exists d, digits d /\ grp 1 m = d.
Proof.
  intros H. apply search_sound in H as (pos & s' & H).
  unfold pin_length_re in H. cbn [seqs] in H.
  destruct H as (s1 & H1 & s2 & H2 & s3 & Hg & Hrest).
  apply digit_group in Hg as (d & Hd & Hc).
  same_caps H1. same_caps H2. same_caps Hrest.
  exists d. split; [exact Hd|]. unfold grp. rewrite Hrest, Hc, H2, H1. reflexivity.
Qed.

(** X22: the numeric attributes [parse_name] returns for a plain title are
    made of digits of the title: a diameter and a length are [d mm], a pin
    size is [dmm] or [dmm | dmm], a hex size is [d] and a straight double
    quote, the dimensions are [d x d x d mm], each [d] a text of one ASCII
    digit or more. *)
Theorem numeric_attribute_values (title category : string) :
  Py.plain title = true ->
  let attrs := parse_name title category in
  (forall v, Dict.get "Diameter (mm)" attrs = Some v ->
     exists d, digits d /\ v = d +:+ " mm") /\
  (forall v, Dict.get "Pin Size" attrs = Some v ->
     exists d1, digits d1 /\
       (v = d1 +:+ "mm" \/ exists d2, digits d2 /\ v = d1 +:+ "mm | " +:+ d2 +:+ "mm")) /\
  (forall v, Dict.get "Hex Size" attrs = Some v ->
     exists d, digits d /\ v = d +:+ Py.chr Py.dq) /\
  (forall v, Dict.get "Dimensions (mm)" attrs = Some v ->
     exists d1 d2 d3, digits d1 /\ digits d2 /\ digits d3 /\
       v = d1 +:+ " x " +:+ d2 +:+ " x " +:+ d3 +:+ " mm") /\
  (forall v, Dict.get "Length (mm)" attrs = Some v ->
     exists d, digits d /\ v = d +:+ " mm").
Proof.
  intros _. cbv zeta. unfold parse_name.
  destruct (negb (Py.truthy title)); [repeat split; intros v H; discriminate H|].
  set (t := Py.strip title).
  split; [|split; [|split; [|split]]]; intros v; frames.
  - unfold rule_diameter. destruct (rmatch diameter_re t) as [m|] eqn:E.
    + rewrite get_set_eq. intros [= <-].
      apply diameter_value in E as (d & Hd & ->). eauto.
    + frames. discriminate.
  - unfold rule_pin_size. destruct (search dual_pin_re t) as [m|] eqn:E.
    + rewrite get_set_eq. intros [= <-].
      apply dual_pin_value in E as (d1 & d2 & Hd1 & Hd2 & -> & ->). eauto 8.
    + destruct (search pin_re t) as [m|] eqn:E2.
      * rewrite get_set_eq. intros [= <-].
        apply pin_value in E2 as (d & Hd & ->). eauto.
      * frames. discriminate.
  - unfold rule_hex. destruct (search hex_re t) as [m|] eqn:E.
    + rewrite get_set_eq. intros [= <-].
      apply hex_value in E as (d & Hd & ->). eauto.
    + frames. discriminate.
  - unfold rule_shim. destruct (rmatch shim_re t) as [m|] eqn:E.
    + rewrite get_set_eq. intros [= <-].
      apply shim_value in E as (d1 & d2 & d3 & Hd1 & Hd2 & Hd3 & -> & -> & ->). eauto 10.
    + frames. discriminate.
  - unfold rule_pin_length. destruct (search pin_length_re t) as [m|] eqn:E.
    + rewrite get_set_eq. intros [= <-].
      apply pin_length_value in E as (d & Hd & ->). eauto.
    + frames. discriminate.
Qed.

Lemma numeric_attribute_values_witness :
  let title := "60 mm Diameter Bucket Pin with 250 mm Length" in
  Py.plain title = true /\
  Dict.get "Diameter (mm)" (parse_name title "") = Some "60 mm" /\
  exists d, digits d /\ "60 mm" = d +:+ " mm".
Proof.
  intros title. split; [vm_compute; reflexivity|]. split; [vm_compute; reflexivity|].
  destruct (numeric_attribute_values title "") as [H _]; [vm_compute; reflexivity|].
  apply H. vm_compute. reflexivity.
Defined.

End NumericValues.

(** ** The order of the floats *)

Section FloatOrder.
Import Fl.

Lemma compare_key (x y : float) :
  is_nan x = false -> is_nan y = false ->
  SFcompare x y = Some (key_cmp (key x) (key y)).
Proof.
  destruct x as [sx|sx| |sx mx ex], y as [sy|sy| |sy my ey]; try discriminate;
    intros _ _; simpl; try (destruct sx; reflexivity); try (destruct sy; reflexivity);
    try (destruct sx, sy; reflexivity).
  destruct sx, sy; try reflexivity; unfold key_cmp; simpl.
  rewrite Z.compare_opp, (Z.compare_antisym ex ey).
  destruct (ex ?= ey)%Z; simpl; reflexivity.
Qed.

Lemma key_cmp_le (a b : Z * Z * Z) : key_cmp a b <> Gt <-> key_le a b.
Proof.
  unfold key_cmp, key_le.
  destruct (Z.compare_spec a.1.1 b.1.1), (Z.compare_spec a.1.2 b.1.2),
    (Z.compare_spec a.2 b.2); split; try congruence; try lia; intros _; discriminate.
Qed.

Lemma key_cmp_lt (a b : Z * Z * Z) : key_cmp a b = Lt <-> key_lt a b.
Proof.
  unfold key_cmp, key_lt.
  destruct (Z.compare_spec a.1.1 b.1.1), (Z.compare_spec a.1.2 b.1.2),
    (Z.compare_spec a.2 b.2); split; try congruence; try lia; intros _; reflexivity.
Qed.

Lemma leb_not_nan (x y : float) : leb x y = true -> is_nan x = false /\ is_nan y = false.
Proof. destruct x, y; try discriminate; auto. Qed.

Lemma ltb_not_nan (x y : float) : ltb x y = true -> is_nan x = false /\ is_nan y = false.
Proof. destruct x, y; try discriminate; auto. Qed.

Lemma leb_key (x y : float) :
  leb x y = true <-> is_nan x = false /\ is_nan y = false /\ key_le (key x) (key y).
Proof.
  split.
  - intros H. destruct (leb_not_nan _ _ H) as [Hx Hy]. repeat split; try assumption.
    apply key_cmp_le. unfold leb, SFleb in H. rewrite (compare_key x y Hx Hy) in H.
    now destruct (key_cmp _ _).
  - intros (Hx & Hy & H). apply key_cmp_le in H. unfold leb, SFleb.
    rewrite (compare_key x y Hx Hy). now destruct (key_cmp _ _).
Qed.

Lemma ltb_key (x y : float) :
  ltb x y = true <-> is_nan x = false /\ is_nan y = false /\ key_lt (key x) (key y).
Proof.
  split.
  - intros H. destruct (ltb_not_nan _ _ H) as [Hx Hy]. repeat split; try assumption.
    apply key_cmp_lt. unfold ltb, SFltb in H. rewrite (compare_key x y Hx Hy) in H.
    now destruct (key_cmp _ _).
  - intros (Hx & Hy & H). apply key_cmp_lt in H. unfold ltb, SFltb.
    rewrite (compare_key x y Hx Hy). now rewrite H.
Qed.

Lemma leb_refl (x : float) : is_nan x = false -> leb x x = true.
Proof. intros H. apply leb_key. repeat split; try assumption. unfold key_le. lia. Qed.

Lemma leb_trans (x y z : float) : leb x y = true -> leb y z = true -> leb x z = true.
Proof.
  rewrite !leb_key. unfold key_le. intros (Hx & Hy & H1) (_ & Hz & H2).
  repeat split; try assumption. lia.
Qed.

Lemma ltb_leb (x y : float) : ltb x y = true -> leb x y = true.
Proof.
  rewrite ltb_key, leb_key. unfold key_le, key_lt. intros (Hx & Hy & H).
  repeat split; try assumption. lia.
Qed.

Lemma not_ltb_leb (x y : float) :
  is_nan x = false -> is_nan y = false -> ltb y x = false -> leb x y = true.
Proof.
  intros Hx Hy H. apply leb_key. repeat split; try assumption.
  assert (N : ~ key_lt (key y) (key x)).
  { intros K. assert (ltb y x = true) by (apply ltb_key; auto). congruence. }
  unfold key_le, key_lt in *. lia.
Qed.

(** Two floats that compare equal are the same float, or two zeros. *)
Lemma leb_antisym (x y : float) :
  leb x y = true -> leb y x = true ->
  x = y \/ exists s s', x = S754_zero s /\ y = S754_zero s'.
Proof.
  rewrite !leb_key. unfold key_le. intros (Hx & Hy & H1) (_ & _ & H2).
  assert (E : key x = key y).
  { destruct (key x) as [[a b] c], (key y) as [[a' b'] c']. simpl in *.
    f_equal; [f_equal|]; lia. }
  destruct x as [sx|sx| |sx mx ex], y as [sy|sy| |sy my ey]; try discriminate;
    try (destruct sx; discriminate E); try (destruct sy; discriminate E);
    try (destruct sx, sy; discriminate E).
  - right. eauto.
  - left. destruct sx, sy; try discriminate E; reflexivity.
  - left. destruct sx, sy; try discriminate E; injection E as E1 E2.
    + assert (ex = ey) as -> by lia. now subst.
    + now subst.
Qed.

(** [min] and [max] of a list without NaN are a least and a greatest
    element of it. *)
Lemma py_min_least (l : list float) :
  forall x, (forall y, y ∈ x :: l -> is_nan y = false) ->
  forall seen, (forall y, y ∈ seen -> leb x y = true) ->
  forall y, y ∈ (seen ++ l)%list -> leb (py_min x l) y = true.
Proof.
  unfold py_min. induction l as [|z l IH]; intros x Hn seen Hs y Hy.
  - rewrite app_nil_r in Hy. simpl. auto.
  - simpl. assert (Hz : is_nan z = false) by (apply Hn; right; left).
    assert (Hx : is_nan x = false) by (apply Hn; left).
    assert (Hn' : forall y, y ∈ (if ltb z x then z else x) :: l -> is_nan y = false).
    { intros y' [->|Hy']%elem_of_cons; [now destruct (ltb z x)|].
      apply Hn. right. now right. }
    apply (IH _ Hn' (seen ++ [z])%list).
    + intros y' [Hy'|Hy']%elem_of_app.
      * destruct (ltb z x) eqn:E; [|auto].
        apply (leb_trans _ x); [now apply ltb_leb|auto].
      * apply list_elem_of_singleton in Hy' as ->.
        destruct (ltb z x) eqn:E; [now apply leb_refl|now apply not_ltb_leb].
    + now rewrite <- app_assoc.
Qed.

Lemma py_max_greatest (l : list float) :
  forall x, (forall y, y ∈ x :: l -> is_nan y = false) ->
  forall seen, (forall y, y ∈ seen -> leb y x = true) ->
  forall y, y ∈ (seen ++ l)%list -> leb y (py_max x l) = true.
Proof.
  unfold py_max, gtb. induction l as [|z l IH]; intros x Hn seen Hs y Hy.
  - rewrite app_nil_r in Hy. simpl. auto.
  - simpl. assert (Hz : is_nan z = false) by (apply Hn; right; left).
    assert (Hx : is_nan x = false) by (apply Hn; left).
    assert (Hn' : forall y, y ∈ (if SFltb x z then z else x) :: l -> is_nan y = false).
    { intros y' [->|Hy']%elem_of_cons; [now destruct (SFltb x z)|].
      apply Hn. right. now right. }
    apply (IH _ Hn' (seen ++ [z])%list).
    + intros y' [Hy'|Hy']%elem_of_app.
      * destruct (SFltb x z) eqn:E; [|auto].
        apply (leb_trans _ x); [auto|now apply ltb_leb].
      * apply list_elem_of_singleton in Hy' as ->.
        destruct (SFltb x z) eqn:E; [now apply leb_refl|now apply not_ltb_leb].
    + now rewrite <- app_assoc.
Qed.

Lemma min_of_least (l : list float) :
  l <> [] -> (forall y, y ∈ l -> is_nan y = false) -> Comparator.least (min_of l) l.
Proof.
  intros Hne Hn. split; [now apply min_of_in|].
  destruct l as [|x l]; [congruence|]. intros y Hy. simpl.
  apply (py_min_least l x Hn [x]).
  - intros y' ->%list_elem_of_singleton. apply leb_refl, Hn. left.
  - exact Hy.
Qed.

Lemma max_of_greatest (l : list float) :
  l <> [] -> (forall y, y ∈ l -> is_nan y = false) -> Comparator.greatest (max_of l) l.
Proof.
  intros Hne Hn. split; [now apply max_of_in|].
  destruct l as [|x l]; [congruence|]. intros y Hy. simpl.
  apply (py_max_greatest l x Hn [x]).
  - intros y' ->%list_elem_of_singleton. apply leb_refl, Hn. left.
  - exact Hy.
Qed.

(** Two least elements of a list differ at most in the sign of a zero;
    so do two greatest elements. *)
Lemma least_unique (lo lo' : float) (l : list float) :
  Comparator.least lo l -> Comparator.least lo' l ->
  lo = lo' \/ exists s s', lo = S754_zero s /\ lo' = S754_zero s'.
Proof. intros [H1 H2] [H3 H4]. apply leb_antisym; auto. Qed.

Lemma greatest_unique (hi hi' : float) (l : list float) :
  Comparator.greatest hi l -> Comparator.greatest hi' l ->
  hi = hi' \/ exists s s', hi = S754_zero s /\ hi' = S754_zero s'.
Proof. intros [H1 H2] [H3 H4]. apply leb_antisym; auto. Qed.

(** The spread of two such pairs is the same float, or a zero in both. *)
Lemma spread_unique (lo lo' hi hi' : float) :
  (lo = lo' \/ exists s s', lo = S754_zero s /\ lo' = S754_zero s') ->
  (hi = hi' \/ exists s s', hi = S754_zero s /\ hi' = S754_zero s') ->
  sub hi lo = sub hi' lo' \/
  exists s s', sub hi lo = S754_zero s /\ sub hi' lo' = S754_zero s'.
Proof.
  intros [->|(s1 & s1' & -> & ->)] [->|(s2 & s2' & -> & ->)]; [now left| | |].
  - destruct lo' as [s|s| |s m e]; simpl; try (now left).
    right. unfold sub. simpl. destruct s2, s2', s; simpl; eauto.
  - destruct hi' as [s|s| |s m e]; simpl; try (now left).
    right. unfold sub. simpl. destruct s1, s1', s; simpl; eauto.
  - right. unfold sub. simpl. destruct s1, s1', s2, s2'; simpl; eauto.
Qed.

Lemma leb_zero_any (s s' : bool) (t : float) : leb (S754_zero s) t = leb (S754_zero s') t.
Proof. now destruct t. Qed.

Lemma positive_above (lo hi : float) :
  gtb lo (S754_zero false) = true -> leb lo hi = true ->
  forall s, lo <> S754_zero s /\ hi <> S754_zero s.
Proof.
  intros Hp Hl s. split; intros ->; [discriminate Hp|].
  destruct lo as [s0|s0| |s0 m e]; try discriminate; destruct s0; discriminate.
Qed.

End FloatOrder.

(** ** What the sources state and what the merged row holds *)

Section Stated.
Import Comparator.

Lemma record_of_first (k : string) (df : frame) : record_of k df = first_with_sku k df.
Proof.
  unfold first_with_sku. induction df as [|p df IH]; [reflexivity|].
  simpl. now rewrite IH.
Qed.

Lemma price_cell (sources : Dict.dict frame) (k S : string) (df : frame) :
  NoDup (Dict.keys sources) -> (S, df) ∈ sources ->
  Dict.get ("price_" +:+ S) (merged_row sources k)
  = Some (match first_with_sku k df with
          | Some p => of_price (price p)
          | None => VNone
          end).
Proof.
  intros Hn Hin. unfold merged_row. apply (merged_cell k _ _ S df); try assumption.
  unfold source_columns. destruct (first_with_sku k df) as [p|]; set_solver.
Qed.

Lemma name_cell (sources : Dict.dict frame) (k S : string) (df : frame) :
  NoDup (Dict.keys sources) -> (S, df) ∈ sources ->
  Dict.get ("name_" +:+ S) (merged_row sources k)
  = Some (match first_with_sku k df with
          | Some p => VStr (product_name p)
          | None => VNone
          end).
Proof.
  intros Hn Hin. unfold merged_row. apply (merged_cell k _ _ S df); try assumption.
  unfold source_columns. destruct (first_with_sku k df) as [p|]; set_solver.
Qed.

(** The prices the detector collects from the merged row of [k] are the
    prices the sources state for [k]. *)
Lemma row_prices_stated (sources : Dict.dict frame) (k : string) :
  NoDup (Dict.keys sources) ->
  Dict.values (row_prices (Dict.keys sources) (merged_row sources k))
  = stated_prices k sources.
Proof.
  intros Hn. unfold stated_prices, Dict.keys.
  assert (G : forall l, (forall e, e ∈ l -> e ∈ sources) ->
            Dict.values (row_prices (map fst l) (merged_row sources k))
            = omap (fun e => stated_price k (snd e)) l).
  { induction l as [|[S df] l IH]; intros Hl; [reflexivity|].
    assert (He : (S, df) ∈ sources) by (apply Hl; left).
    specialize (IH ltac:(intros e He'; apply Hl; now right)).
    cbn [map fst row_prices omap list_omap snd]. unfold row_get.
    rewrite (in_cell sources k S df Hn He), (price_cell sources k S df Hn He).
    unfold stated_price, holds. rewrite record_of_first.
    destruct (first_with_sku k df) as [p|]; simpl.
    - destruct (price p) as [f|]; simpl; [|exact IH].
      destruct (Fl.is_nan f); [exact IH|]. unfold Dict.values in *. simpl. now rewrite IH.
    - exact IH. }
  now apply G.
Qed.

(** And so are the names. *)
Lemma row_names_stated (sources : Dict.dict frame) (k : string) :
  NoDup (Dict.keys sources) ->
  Dict.values (row_names (Dict.keys sources) (merged_row sources k))
  = stated_names k sources.
Proof.
  intros Hn. unfold stated_names, Dict.keys.
  assert (G : forall l, (forall e, e ∈ l -> e ∈ sources) ->
            Dict.values (row_names (map fst l) (merged_row sources k))
            = omap (fun e => stated_name k (snd e)) l).
  { induction l as [|[S df] l IH]; intros Hl; [reflexivity|].
    assert (He : (S, df) ∈ sources) by (apply Hl; left).
    specialize (IH ltac:(intros e He'; apply Hl; now right)).
    cbn [map fst row_names omap list_omap snd]. unfold row_get.
    rewrite (in_cell sources k S df Hn He), (name_cell sources k S df Hn He).
    unfold stated_name, holds. rewrite record_of_first.
    destruct (first_with_sku k df) as [p|]; simpl; [|exact IH].
    destruct (product_name p) as [|c n]; simpl; [exact IH|].
    unfold Dict.values in *. simpl. now rewrite IH. }
  now apply G.
Qed.

Lemma stated_prices_not_nan (sources : Dict.dict frame) (k : string) (f : Fl.float) :
  f ∈ stated_prices k sources -> Fl.is_nan f = false.
Proof.
  unfold stated_prices. intros ([S df] & _ & H)%list_elem_of_omap.
  unfold stated_price in H. simpl in H.
  destruct (record_of k df) as [p|]; [|discriminate].
  destruct (price p) as [g|]; [|discriminate].
  destruct (Fl.is_nan g) eqn:E; [discriminate|]. now injection H as <-.
Qed.

(** A source that states a price or a name has a record with the SKU. *)
Lemma stated_prices_in_skus (sources : Dict.dict frame) (k : string) :
  k <> "" -> stated_prices k sources <> [] -> k ∈ all_skus sources.
Proof.
  intros Hk Hne. destruct (stated_prices k sources) as [|f l] eqn:E; [congruence|].
  assert (Hf : f ∈ stated_prices k sources) by (rewrite E; left).
  unfold stated_prices in Hf. apply list_elem_of_omap in Hf as ([S df] & Hin & H).
  unfold stated_price in H. simpl in H. rewrite record_of_first in H.
  destruct (first_with_sku k df) as [p|] eqn:Ep; [|discriminate].
  apply elem_of_all_skus. split; [assumption|].
  assert (Hs : is_Some (first_with_sku k df)) by eauto.
  apply first_with_sku_some in Hs as (q & Hq & Hqk). eauto 6.
Qed.

Lemma stated_names_in_skus (sources : Dict.dict frame) (k : string) :
  k <> "" -> stated_names k sources <> [] -> k ∈ all_skus sources.
Proof.
  intros Hk Hne. destruct (stated_names k sources) as [|f l] eqn:E; [congruence|].
  assert (Hf : f ∈ stated_names k sources) by (rewrite E; left).
  unfold stated_names in Hf. apply list_elem_of_omap in Hf as ([S df] & Hin & H).
  unfold stated_name in H. simpl in H. rewrite record_of_first in H.
  destruct (first_with_sku k df) as [p|] eqn:Ep; [|discriminate].
  apply elem_of_all_skus. split; [assumption|].
  assert (Hs : is_Some (first_with_sku k df)) by eauto.
  apply first_with_sku_some in Hs as (q & Hq & Hqk). eauto 6.
Qed.

(** The rows of a report on the merged frame, by SKU. *)
Lemma reported_iff (f : row -> option row) (sources : Dict.dict frame) (k : string) (d : row) :
  (forall r d, f r = Some d -> Dict.get "sku" d = Some (row_get "sku" VNone r)) ->
  reported k (omap f (merge_by_sku sources)) d <->
  k ∈ all_skus sources /\ f (merged_row sources k) = Some d.
Proof.
  intros Hf. unfold reported. rewrite merge_by_sku_rows. split.
  - intros [(r & Hr & Hd)%list_elem_of_omap Hk].
    apply list_elem_of_fmap in Hr as (k' & -> & Hk').
    apply elem_of_sorted in Hk'.
    pose proof (Hf _ _ Hd) as Hs. unfold row_get in Hs.
    rewrite merged_row_sku in Hs. simpl in Hs.
    assert (k' = k) as -> by congruence. auto.
  - intros [Hk Hd]. split.
    + apply list_elem_of_omap. exists (merged_row sources k). split; [|exact Hd].
      apply list_elem_of_fmap. exists k. split; [reflexivity|]. now apply elem_of_sorted.
    + rewrite (Hf _ _ Hd). unfold row_get. now rewrite merged_row_sku.
Qed.

Lemma two_sources_nodup (a b : frame) : NoDup (Dict.keys [("A", a); ("B", b)]).
Proof.
  unfold Dict.keys. simpl.
  repeat (apply NoDup_cons; split;
          [rewrite ?not_elem_of_cons; repeat split;
           try apply not_elem_of_nil; congruence|]).
  apply NoDup_nil. exact I.
Qed.

End Stated.

(** ** The price report *)

Section PriceReport.
Import Comparator.

(** Whether the spread is beyond the tolerances does not depend on the
    choice of the minimum and the maximum. *)
Lemma beyond_unique (cfg : config) (l : list Fl.float) (lo lo' hi hi' : Fl.float) :
  least lo l -> greatest hi l -> least lo' l -> greatest hi' l ->
  beyond_tolerance cfg lo hi -> beyond_tolerance cfg lo' hi'.
Proof.
  intros Hlo Hhi Hlo' Hhi' [Ha Hp].
  pose proof (least_unique _ _ _ Hlo Hlo') as Ul.
  pose proof (greatest_unique _ _ _ Hhi Hhi') as Uh.
  split.
  - destruct (spread_unique _ _ _ _ Ul Uh) as [<-|(s & s' & E & E')]; [exact Ha|].
    rewrite E in Ha. rewrite E'. now rewrite (leb_zero_any s' s).
  - intros Hpct Hpos.
    assert (Hle : Fl.leb lo' hi' = true) by (apply Hlo', Hhi').
    pose proof (positive_above _ _ Hpos Hle) as Hnz.
    destruct Ul as [->|(s & s' & _ & E)]; [|now apply (Hnz s') in E].
    destruct Uh as [->|(s & s' & _ & E)]; [|now apply (Hnz s') in E].
    auto.
Qed.

(** For prices that are numbers and tolerances that are not NaN, beyond
    the tolerances is exceeding them. *)
Lemma beyond_exceeds (cfg : config) (lo hi : Fl.float) :
  Fl.is_finite lo = true -> Fl.is_finite hi = true ->
  Fl.is_nan (PRICE_TOLERANCE cfg) = false ->
  Fl.is_nan (PRICE_TOLERANCE_PERCENT cfg) = false ->
  beyond_tolerance cfg lo hi <-> exceeds_tolerance cfg lo hi.
Proof.
  intros Hlo Hhi Htol Hpct. unfold beyond_tolerance, exceeds_tolerance.
  assert (Hd : Fl.is_nan (Fl.sub hi lo) = false) by now apply sub_not_nan.
  rewrite (leb_false_gtb _ _ Hd Htol).
  split; intros [Ha Hp]; (split; [exact Ha|]); intros H1 H2; specialize (Hp H1 H2);
    assert (Hq : Fl.is_nan (Fl.mul (Fl.div (Fl.sub hi lo) lo) (Fl.of_Z 100)) = false)
      by (apply mul_not_nan; now apply div_not_nan);
    now apply (leb_false_gtb _ _ Hq Hpct).
Qed.

(** The detector on the merged row of [k], in terms of the prices the
    sources state for [k]. *)
Lemma price_difference_stated (cfg : config) (sources : Dict.dict frame) (k : string) :
  NoDup (Dict.keys sources) ->
  let prices := stated_prices k sources in
  (is_Some (price_difference cfg (Dict.keys sources) (merged_row sources k)) <->
     (2 <= length prices)%nat /\
     exists lo hi, least lo prices /\ greatest hi prices /\ beyond_tolerance cfg lo hi) /\
  (forall d, price_difference cfg (Dict.keys sources) (merged_row sources k) = Some d ->
     "diff" ∉ Dict.keys sources ->
     exists lo hi, least lo prices /\ greatest hi prices /\
       Dict.get "price_diff" d = Some (VFloat (Fl.round2 (Fl.sub hi lo)))).
Proof.
  intros Hn prices. unfold price_difference.
  rewrite (row_prices_stated sources k Hn). fold prices.
  replace (length (row_prices (Dict.keys sources) (merged_row sources k)))
    with (length prices)
    by (unfold prices; rewrite <- (row_prices_stated sources k Hn);
        unfold Dict.values; now rewrite length_map).
  destruct (length prices <? 2)%nat eqn:E2.
  { apply Nat.ltb_lt in E2. split; [|discriminate].
    split; [intros [? [=]]|intros [? _]; lia]. }
  apply Nat.ltb_ge in E2.
  assert (Hne : prices <> []) by (intros E; rewrite E in E2; simpl in E2; lia).
  assert (Hnan : forall y, y ∈ prices -> Fl.is_nan y = false)
    by (intros y; apply stated_prices_not_nan).
  pose proof (min_of_least prices Hne Hnan) as Hmin.
  pose proof (max_of_greatest prices Hne Hnan) as Hmax.
  set (lo := Fl.min_of prices) in *. set (hi := Fl.max_of prices) in *.
  assert (Hcode : (if Fl.leb (Fl.sub hi lo) (PRICE_TOLERANCE cfg) then false
                   else negb (Fl.gtb (PRICE_TOLERANCE_PERCENT cfg) zero && Fl.gtb lo zero
                              && Fl.leb (pct_diff (Fl.sub hi lo) lo)
                                        (PRICE_TOLERANCE_PERCENT cfg))) = true
                  <-> beyond_tolerance cfg lo hi).
  { unfold beyond_tolerance, pct_diff, hundred, zero.
    destruct (Fl.leb (Fl.sub hi lo) (PRICE_TOLERANCE cfg)).
    { split; [discriminate|]. now intros [? _]. }
    destruct (Fl.gtb (PRICE_TOLERANCE_PERCENT cfg) (S754_zero false)),
      (Fl.gtb lo (S754_zero false)); simpl;
      try (split; [intros _; split; [reflexivity|intros; congruence]|reflexivity]).
    destruct (Fl.leb _ (PRICE_TOLERANCE_PERCENT cfg)); simpl.
    - split; [discriminate|]. intros [_ H]. specialize (H eq_refl eq_refl). discriminate H.
    - split; [intros _; split; auto|reflexivity]. }
  destruct (Fl.leb (Fl.sub hi lo) (PRICE_TOLERANCE cfg)) eqn:Ea.
  { split; [|discriminate]. split; [intros [? [=]]|].
    intros (_ & lo' & hi' & Hlo' & Hhi' & Hb).
    apply (beyond_unique cfg prices lo' lo hi' hi) in Hb; try assumption.
    apply Hcode in Hb. discriminate Hb. }
  destruct (Fl.gtb (PRICE_TOLERANCE_PERCENT cfg) zero && Fl.gtb lo zero
            && Fl.leb (pct_diff (Fl.sub hi lo) lo) (PRICE_TOLERANCE_PERCENT cfg)) eqn:Eb.
  { split; [|discriminate]. split; [intros [? [=]]|].
    intros (_ & lo' & hi' & Hlo' & Hhi' & Hb).
    apply (beyond_unique cfg prices lo' lo hi' hi) in Hb; try assumption.
    apply Hcode in Hb. discriminate Hb. }
  split.
  - split; [intros _|intros _; eauto].
    split; [assumption|]. exists lo, hi. repeat split; try apply Hmin; try apply Hmax.
    + now apply Hcode.
    + now apply Hcode.
  - intros d [= <-] Hd. exists lo, hi. split; [exact Hmin|]. split; [exact Hmax|].
    now rewrite price_columns_keep_diff.
Qed.

(** C2 (as stated): a row can be emitted although [max - min] does not
    exceed the tolerance.  Two sources whose price text overflows both
    state the price infinity; the spread [inf - inf] is NaN, which neither
    exceeds the tolerance nor is within it, and [find_price_differences]
    emits a row, with the [price_diff] NaN. *)
Lemma C2_equal_infinite_prices :
  let sources := two_prices overflowing_price overflowing_price in
  stated_prices "K-1" sources = [S754_infinity false; S754_infinity false] /\
  Fl.gtb (Fl.sub (S754_infinity false) (S754_infinity false))
         (PRICE_TOLERANCE example_config) = false /\
  price_diffs example_config sources = [Some (VFloat S754_nan)].
Proof. vm_compute. repeat split; reflexivity. Qed.

(** C2 (amended): for every SKU [k] of the merged frame,
    [find_price_differences] emits a row for [k] exactly when at least two
    sources state a price for [k] (a record with that SKU whose price is
    not null) and the spread [max - min] of these prices is beyond the
    tolerances: it is not less than or equal to [PRICE_TOLERANCE] and,
    when [PRICE_TOLERANCE_PERCENT] is positive and [min] is positive,
    [(max - min) / min * 100] is not less than or equal to
    [PRICE_TOLERANCE_PERCENT].  The emitted [price_diff] is
    [round(max - min, 2)], where no source is called [diff] (the column of
    such a source would take its place).  For prices that are numbers and
    tolerances that are not NaN, [not less than or equal] is [exceeds].
    The examples: prices 100.00 and 100.005 with the absolute tolerance
    0.01 give no row, prices 100.00 and 101.00 give a row with the
    difference 1.00; with a percent tolerance of 5, prices 200.00 and
    208.00 (4 percent) give no row and prices 10.00 and 10.80 (8 percent)
    give the difference 0.8; of three prices 12.00, 10.00 and 11.00 the
    difference is 2.0; and the difference of 100.10 and 100.40 is rounded
    to 0.3. *)
Theorem C2_price_difference :
  (forall (cfg : config) (sources : Dict.dict frame) (k : string),
     NoDup (Dict.keys sources) -> k <> "" ->
     let prices := stated_prices k sources in
     let report := find_price_differences cfg (merge_by_sku sources) sources in
     ((exists d, reported k report d) <->
        (2 <= length prices)%nat /\
        exists lo hi, least lo prices /\ greatest hi prices /\ beyond_tolerance cfg lo hi) /\
     (forall d, reported k report d -> "diff" ∉ Dict.keys sources ->
        exists lo hi, least lo prices /\ greatest hi prices /\
          Dict.get "price_diff" d = Some (VFloat (Fl.round2 (Fl.sub hi lo))))) /\
  (forall (cfg : config) (lo hi : Fl.float),
     Fl.is_finite lo = true -> Fl.is_finite hi = true ->
     Fl.is_nan (PRICE_TOLERANCE cfg) = false ->
     Fl.is_nan (PRICE_TOLERANCE_PERCENT cfg) = false ->
     (beyond_tolerance cfg lo hi <-> exceeds_tolerance cfg lo hi)) /\
  price_diffs example_config (two_prices "100.00" "100.005") = [] /\
  price_diffs example_config (two_prices "100.00" "101.00")
    = [Some (VFloat (Fl.of_decimal 100 2))] /\
  price_diffs percent_config (two_prices "200.00" "208.00") = [] /\
  price_diffs percent_config (two_prices "10.00" "10.80")
    = [Some (VFloat (Fl.of_decimal 80 2))] /\
  price_diffs example_config (three_prices "12.00" "10.00" "11.00")
    = [Some (VFloat (Fl.of_decimal 200 2))] /\
  price_diffs example_config (two_prices "100.10" "100.40")
    = [Some (VFloat (Fl.of_decimal 30 2))].
Proof.
  split; [|split; [exact beyond_exceeds|repeat split; vm_compute; reflexivity]].
  intros cfg sources k Hn Hk prices report.
  destruct (price_difference_stated cfg sources k Hn) as [Hiff Hval].
  fold prices in Hiff, Hval.
  assert (Hrep : forall d, reported k report d <->
            k ∈ all_skus sources /\
            price_difference cfg (Dict.keys sources) (merged_row sources k) = Some d).
  { intros d. unfold report, find_price_differences.
    apply reported_iff. intros r d'. apply price_row_sku. }
  split.
  - rewrite <- Hiff. split.
    + intros [d Hd]. apply Hrep in Hd as [_ Hd]. eauto.
    + intros [d Hd]. exists d. apply Hrep. split; [|exact Hd].
      apply stated_prices_in_skus; [exact Hk|].
      assert (H2 : (2 <= length prices)%nat) by (apply Hiff; eauto).
      intros E. fold prices in E. rewrite E in H2. simpl in H2. lia.
  - intros d Hd. apply Hrep in Hd as [_ Hd]. now apply Hval.
Qed.

Lemma C2_price_difference_witness :
  let sources := two_prices "200.00" "208.00" in
  NoDup (Dict.keys sources) /\ "K-1" <> "" /\
  stated_prices "K-1" sources = [Fl.of_Z 200; Fl.of_Z 208] /\
  ~ exists d, reported "K-1"
                (find_price_differences percent_config (merge_by_sku sources) sources) d.
Proof.
  intros sources.
  assert (Hn : NoDup (Dict.keys sources)) by apply two_sources_nodup.
  assert (Hp : stated_prices "K-1" sources = [Fl.of_Z 200; Fl.of_Z 208])
    by (vm_compute; reflexivity).
  split; [exact Hn|]. split; [discriminate|]. split; [exact Hp|].
  destruct C2_price_difference as [Hgen _].
  destruct (Hgen percent_config sources "K-1" Hn ltac:(discriminate)) as [Hiff _].
  rewrite Hiff. intros (_ & lo & hi & [Hlo _] & [Hhi _] & _ & Hb).
  rewrite Hp in Hlo, Hhi.
  assert (Hgt : Fl.gtb (PRICE_TOLERANCE_PERCENT percent_config) (S754_zero false) = true)
    by (vm_compute; reflexivity).
  specialize (Hb Hgt).
  repeat (apply elem_of_cons in Hlo as [->|Hlo]);
    repeat (apply elem_of_cons in Hhi as [->|Hhi]);
    try (now apply elem_of_nil in Hlo); try (now apply elem_of_nil in Hhi);
    specialize (Hb ltac:(vm_compute; reflexivity)); vm_compute in Hb; discriminate Hb.
Defined.

End PriceReport.

(** ** The name report *)

Section NameReport.
Import Comparator.



(** X20: a product for which the sources state one and the same finite
    price gives no price row, when the absolute tolerance is not
    negative; and, apart from the prices, a product for which the sources
    state names that are equal up to the case of their ASCII letters gives
    no name row, when the similarity of a text to itself is 100. *)
Theorem agreeing_sources_not_reported (fuzz_ratio : string -> string -> Z)
    (cfg : config) (sources : Dict.dict frame) (k : string) :
  NoDup (Dict.keys sources) ->
  (forall X : Fl.float,
     Fl.is_finite X = true ->
     Fl.leb zero (PRICE_TOLERANCE cfg) = true ->
     (forall f, f ∈ stated_prices k sources -> f = X) ->
     ~ exists d, reported k (find_price_differences cfg (merge_by_sku sources) sources) d) /\
  (forall n : string,
     (forall s, fuzz_ratio s s = 100%Z) ->
     (forall m, m ∈ stated_names k sources -> Py.lower m = Py.lower n) ->
     ~ exists d, reported k (find_name_differences fuzz_ratio cfg
                               (merge_by_sku sources) sources) d).
Proof.
  intros Hn. split.
  - intros X HX Htol Hp [d Hd].
    apply (reported_iff (price_difference cfg (Dict.keys sources))) in Hd as [_ Hd];
      [|intros r d'; apply price_row_sku].
    rewrite (equal_prices_no_row cfg _ _ X HX Htol) in Hd; [discriminate|].
    now rewrite (row_prices_stated sources k Hn).
  - intros n Hr Hm [d Hd].
    apply (reported_iff (name_difference fuzz_ratio cfg (Dict.keys sources))) in Hd
      as [_ Hd]; [|intros r d'; apply name_row_sku].
    rewrite (equal_names_no_row fuzz_ratio cfg _ _ n Hr) in Hd; [discriminate|].
    now rewrite (row_names_stated sources k Hn).
Qed.

Lemma agreeing_sources_not_reported_witness :
  let sources :=
    [("A", [Comparator.Product "Rock Bucket" "K-1" (Fl.of_token "100.00") None "" ""]);
     ("B", [Comparator.Product "ROCK BUCKET" "K-1" (Fl.of_token "100.00") None "" ""])] in
  NoDup (Dict.keys sources) /\
  stated_prices "K-1" sources = [Fl.of_Z 100; Fl.of_Z 100] /\
  stated_names "K-1" sources = ["Rock Bucket"; "ROCK BUCKET"] /\
  (~ exists d, reported "K-1"
                 (find_price_differences example_config (merge_by_sku sources) sources) d) /\
  (~ exists d, reported "K-1"
                 (find_name_differences (fun a b => if String.eqb a b then 100%Z else 90%Z)
                    example_config (merge_by_sku sources) sources) d).
Proof.
  intros sources.
  assert (Hn : NoDup (Dict.keys sources)) by apply two_sources_nodup.
  assert (Hp : stated_prices "K-1" sources = [Fl.of_Z 100; Fl.of_Z 100])
    by (vm_compute; reflexivity).
  assert (Hs : stated_names "K-1" sources = ["Rock Bucket"; "ROCK BUCKET"])
    by (vm_compute; reflexivity).
  split; [exact Hn|]. split; [exact Hp|]. split; [exact Hs|].
  destruct (agreeing_sources_not_reported
              (fun a b => if String.eqb a b then 100%Z else 90%Z)
              example_config sources "K-1" Hn) as [H1 H2].
  split.
  - apply (H1 (Fl.of_Z 100)); [vm_compute; reflexivity|vm_compute; reflexivity|].
    rewrite Hp. intros f Hf.
    repeat (apply elem_of_cons in Hf as [->|Hf]; [reflexivity|]). inversion Hf.
  - apply (H2 "rock bucket").
    + intros s. now rewrite String.eqb_refl.
    + rewrite Hs. intros m Hm.
      repeat (apply elem_of_cons in Hm as [->|Hm]; [reflexivity|]). inversion Hm.
Defined.

End NameReport.

(** ** More about strings *)

Section MoreStrings.

Lemma starts_with_iff (p s : string) :
  Py.starts_with p s = true <-> exists rest, s = p +:+ rest.
Proof.
  revert s. induction p as [|a p IH]; intros s; simpl.
  - split; [intros _; exists s; now rewrite append_nil|reflexivity].
  - destruct s as [|b s]; [split; [discriminate|intros [r H]; discriminate H]|].
    rewrite andb_true_iff, IH. split.
    + intros [->%Ascii.eqb_eq [rest ->]]. exists rest. reflexivity.
    + intros [rest H]. rewrite append_cons in H. injection H as -> ->.
      split; [apply Ascii.eqb_refl|eauto].
Qed.

Lemma contains_app (sub s : string) :
  Py.contains sub s = true <-> exists pre post, s = pre +:+ sub +:+ post.
Proof.
  induction s as [|c t IH].
  - simpl. rewrite orb_false_r, starts_with_iff. split.
    + intros [rest H]. exists "", rest. now rewrite append_nil.
    + intros (pre & post & H). destruct pre as [|x pre]; [|discriminate H].
      rewrite append_nil in H. eauto.
  - cbn [Py.contains]. rewrite orb_true_iff, starts_with_iff, IH. split.
    + intros [[rest H]|(pre & post & H)].
      * exists "", rest. now rewrite append_nil.
      * exists (String c pre), post. rewrite append_cons. now rewrite H.
    + intros (pre & post & H). destruct pre as [|x pre].
      * left. rewrite append_nil in H. eauto.
      * right. rewrite append_cons in H. injection H as _ H. eauto.
Qed.

Lemma ends_with_app (u s : string) :
  Py.ends_with u s = true <-> exists pre, s = pre +:+ u.
Proof.
  induction s as [|c t IH].
  - cbn [Py.ends_with]. rewrite orb_false_r, String.eqb_eq. split.
    + intros <-. exists "". reflexivity.
    + intros [pre H]. destruct pre; [now rewrite append_nil in H|discriminate H].
  - cbn [Py.ends_with]. rewrite orb_true_iff, String.eqb_eq, IH. split.
    + intros [<-|[pre ->]]; [exists ""; now rewrite append_nil|exists (String c pre); reflexivity].
    + intros [pre H]. destruct pre as [|x pre].
      * left. now rewrite append_nil in H.
      * right. rewrite append_cons in H. injection H as _ H. eauto.
Qed.

Lemma all_chars_app (p : ascii -> bool) (a b : string) :
  Py.all_chars p (a +:+ b) = Py.all_chars p a && Py.all_chars p b.
Proof.
  induction a as [|c a IH]; [now rewrite append_nil|].
  rewrite append_cons. simpl. now rewrite IH, andb_assoc.
Qed.

Lemma all_chars_absent (c : ascii) (s : string) :
  Py.all_chars (fun x => negb (Ascii.eqb c x)) s = negb (Py.contains (Py.chr c) s).
Proof.
  induction s as [|x t IH]; [reflexivity|].
  rewrite contains_chr_cons. simpl Py.all_chars. rewrite IH. now rewrite negb_orb.
Qed.

(** *** Strips *)

Lemma length_lstrip (p : ascii -> bool) (s : string) :
  (String.length (Py.lstrip_with p s) <= String.length s)%nat.
Proof.
  induction s as [|c t IH]; [reflexivity|]. simpl. destruct (p c); simpl; lia.
Qed.

Lemma lstrip_same_length (p : ascii -> bool) (s : string) :
  String.length (Py.lstrip_with p s) = String.length s -> Py.lstrip_with p s = s.
Proof.
  destruct s as [|c t]; [reflexivity|]. simpl. destruct (p c); [|reflexivity].
  pose proof (length_lstrip p t). simpl. lia.
Qed.

Lemma lstrip_id (p : ascii -> bool) (s : string) :
  Py.lstrip_with p s = s <-> forall c t, s = String c t -> p c = false.
Proof.
  destruct s as [|c t]; simpl.
  - split; [intros _ c t H; discriminate H|reflexivity].
  - destruct (p c) eqn:Pc.
    + split.
      * intros H. pose proof (length_lstrip p t) as L. rewrite H in L. simpl in L. lia.
      * intros H. specialize (H c t eq_refl). congruence.
    + split; [|reflexivity]. intros _ c' t' [= <- _]. exact Pc.
Qed.

Lemma length_rstrip (p : ascii -> bool) (s : string) :
  (String.length (Py.rstrip_with p s) <= String.length s)%nat.
Proof.
  induction s as [|c t IH]; [reflexivity|]. simpl.
  destruct (Py.rstrip_with p t) as [|y u]; [destruct (p c); simpl; lia|].
  simpl in *. lia.
Qed.

Lemma rstrip_same_length (p : ascii -> bool) (s : string) :
  String.length (Py.rstrip_with p s) = String.length s -> Py.rstrip_with p s = s.
Proof.
  induction s as [|c t IH]; [reflexivity|]. simpl.
  pose proof (length_rstrip p t) as L.
  destruct (Py.rstrip_with p t) as [|y u] eqn:E.
  - destruct (p c); simpl; [lia|]. intros H. simpl in L.
    assert (String.length t = 0%nat) by lia. destruct t; [reflexivity|discriminate].
  - simpl. intros H. rewrite IH; [reflexivity|]. simpl in *. lia.
Qed.

Lemma rstrip_cons_id (p : ascii -> bool) (c : ascii) (t : string) :
  t <> "" ->
  (Py.rstrip_with p (String c t) = String c t <-> Py.rstrip_with p t = t).
Proof.
  intros Ht. simpl. destruct (Py.rstrip_with p t) as [|y u] eqn:E.
  - split.
    + destruct (p c); [discriminate|]. intros [= <-]. congruence.
    + intros <-. congruence.
  - split; [now intros [= ->]|now intros ->].
Qed.

Lemma ends_with_chr_cons (x c : ascii) (t : string) :
  t <> "" -> Py.ends_with (Py.chr x) (String c t) = Py.ends_with (Py.chr x) t.
Proof.
  intros Ht. cbn [Py.ends_with]. unfold Py.chr at 1. simpl String.eqb.
  destruct t as [|d t']; [congruence|]. now destruct (Ascii.eqb c x).
Qed.

Lemma rstrip_id (p : ascii -> bool) (s : string) :
  Py.rstrip_with p s = s <-> forall c, Py.ends_with (Py.chr c) s = true -> p c = false.
Proof.
  induction s as [|c t IH].
  - simpl. split; [intros _ c H; discriminate H|reflexivity].
  - destruct t as [|d t'].
    + simpl. split.
      * intros H x Hx. unfold Py.chr in Hx. simpl in Hx. rewrite orb_false_r in Hx.
        destruct (Ascii.eqb_spec c x); [subst x|discriminate Hx].
        destruct (p c); [discriminate H|reflexivity].
      * intros H. rewrite (H c); [reflexivity|].
        unfold Py.chr. simpl. now rewrite Ascii.eqb_refl.
    + rewrite rstrip_cons_id by discriminate. rewrite IH.
      split; intros H x Hx; apply H.
      * now rewrite ends_with_chr_cons in Hx by discriminate.
      * now rewrite ends_with_chr_cons by discriminate.
Qed.

Lemma length_strip (s : string) : (String.length (Py.strip s) <= String.length s)%nat.
Proof.
  unfold Py.strip. pose proof (length_rstrip Py.is_space (Py.lstrip_with Py.is_space s)).
  pose proof (length_lstrip Py.is_space s). lia.
Qed.

Lemma strip_same_length (s : string) :
  String.length (Py.strip s) = String.length s ->
  Py.strip s = s /\ Py.lstrip_with Py.is_space s = s /\ Py.rstrip_with Py.is_space s = s.
Proof.
  unfold Py.strip. intros H.
  pose proof (length_rstrip Py.is_space (Py.lstrip_with Py.is_space s)).
  pose proof (length_lstrip Py.is_space s).
  assert (E1 : Py.lstrip_with Py.is_space s = s) by (apply lstrip_same_length; lia).
  rewrite E1 in *. assert (E2 : Py.rstrip_with Py.is_space s = s) by now apply rstrip_same_length.
  now rewrite E2.
Qed.

(** *** Lower case *)

Lemma length_lower (s : string) : String.length (Py.lower s) = String.length s.
Proof. induction s as [|c t IH]; [reflexivity|]. simpl. now rewrite IH. Qed.

Lemma lower_char_not_upper (c : ascii) : Py.is_upper (Py.lower_char c) = false.
Proof.
  unfold Py.lower_char. destruct (Py.is_upper c) eqn:E; [|exact E].
  unfold Py.is_upper, Py.in_range in *. apply andb_prop in E as [E1 E2].
  apply Nat.leb_le in E1. apply Nat.leb_le in E2.
  rewrite nat_ascii_embedding by lia.
  apply andb_false_iff. right. apply Nat.leb_gt. lia.
Qed.

Lemma lower_not_upper (s : string) :
  Py.all_chars (fun c => negb (Py.is_upper c)) (Py.lower s) = true.
Proof.
  induction s as [|c t IH]; [reflexivity|]. simpl. now rewrite lower_char_not_upper, IH.
Qed.

Lemma lower_id (s : string) :
  Py.all_chars (fun c => negb (Py.is_upper c)) s = true -> Py.lower s = s.
Proof.
  induction s as [|c t IH]; [reflexivity|]. simpl. intros [Hc Ht]%andb_prop.
  unfold Py.lower_char. apply negb_true_iff in Hc. rewrite Hc. now rewrite IH.
Qed.

(** *** Replacement *)

Lemma starts_with_length (p s : string) :
  Py.starts_with p s = true -> (String.length p <= String.length s)%nat.
Proof.
  intros [rest ->]%starts_with_iff. rewrite length_append_s. lia.
Qed.

Lemma length_replace_from (old new : string) :
  (String.length new <= String.length old)%nat -> (1 <= String.length old)%nat ->
  forall s k, (k <= String.length s)%nat ->
    (String.length (Py.replace_from old new s k) + k <= String.length s)%nat.
Proof.
  intros Hn Ho. induction s as [|c t IH]; intros k Hk; simpl in *; [lia|].
  destruct k as [|k].
  - destruct (Py.starts_with old (String c t)) eqn:E.
    + apply starts_with_length in E. simpl in E.
      rewrite length_append_s.
      specialize (IH (String.length old - 1)%nat ltac:(lia)). lia.
    + simpl. specialize (IH 0%nat ltac:(lia)). lia.
  - specialize (IH k ltac:(lia)). lia.
Qed.

Lemma length_replace (old new s : string) :
  (String.length new <= String.length old)%nat -> (1 <= String.length old)%nat ->
  (String.length (Py.replace old new s) <= String.length s)%nat.
Proof.
  intros Hn Ho. unfold Py.replace.
  pose proof (length_replace_from old new Hn Ho s 0 ltac:(lia)). lia.
Qed.

Lemma replace_absent (old new s : string) :
  Py.contains old s = false -> Py.replace old new s = s.
Proof.
  unfold Py.replace. induction s as [|c t IH]; [reflexivity|].
  cbn [Py.contains]. intros [H1 H2]%orb_false_iff.
  cbn [Py.replace_from]. rewrite H1. now rewrite IH.
Qed.

Lemma replace_shorter (old new : string) :
  (String.length new < String.length old)%nat ->
  forall s, Py.contains old s = true ->
    (String.length (Py.replace old new s) < String.length s)%nat.
Proof.
  intros Hn. unfold Py.replace. induction s as [|c t IH].
  - simpl. rewrite orb_false_r. intros E%starts_with_length. simpl in E. lia.
  - cbn [Py.contains Py.replace_from]. destruct (Py.starts_with old (String c t)) eqn:E.
    + intros _. apply starts_with_length in E. simpl in E.
      rewrite length_append_s.
      pose proof (length_replace_from old new ltac:(lia) ltac:(lia) t
                    (String.length old - 1)%nat ltac:(lia)). simpl. lia.
    + simpl. intros H. specialize (IH H). lia.
Qed.

(** A replacement by a shorter text that keeps the length changes nothing. *)
Lemma replace_same_length (old new s : string) :
  (String.length new < String.length old)%nat ->
  String.length (Py.replace old new s) = String.length s ->
  Py.contains old s = false /\ Py.replace old new s = s.
Proof.
  intros Hn H. destruct (Py.contains old s) eqn:E.
  - pose proof (replace_shorter old new Hn s E). lia.
  - split; [reflexivity|now apply replace_absent].
Qed.

Lemma replace_all_chars (q : ascii -> bool) (old new : string) :
  Py.all_chars q new = true ->
  forall s k, Py.all_chars q s = true -> Py.all_chars q (Py.replace_from old new s k) = true.
Proof.
  intros Hn. induction s as [|c t IH]; intros k; [reflexivity|].
  simpl. intros [Hc Ht]%andb_prop. destruct k as [|k]; [|now apply IH].
  destruct (Py.starts_with old (String c t)).
  - rewrite all_chars_app, Hn. now apply IH.
  - simpl. rewrite Hc. now apply IH.
Qed.

Lemma rstrip_all_chars (q p : ascii -> bool) (s : string) :
  Py.all_chars q s = true -> Py.all_chars q (Py.rstrip_with p s) = true.
Proof.
  induction s as [|c t IH]; [reflexivity|]. simpl. intros [Hc Ht]%andb_prop.
  specialize (IH Ht). destruct (Py.rstrip_with p t) as [|y u].
  - destruct (p c); [reflexivity|]. simpl. now rewrite Hc.
  - simpl in *. now rewrite Hc.
Qed.

End MoreStrings.

(** ** Substitution by a pattern *)

Section Substitution.
Import Re.

Lemma take_drop_str (k : nat) (s : string) : Py.take_str k s +:+ Py.drop_str k s = s.
Proof.
  revert s. induction k as [|k IH]; intros s; [now destruct s|].
  destruct s as [|c t]; [reflexivity|].
  cbn [Py.take_str Py.drop_str]. now rewrite append_cons, IH.
Qed.

Lemma drop_str_drop (i j : nat) (s : string) :
  Py.drop_str i (Py.drop_str j s) = Py.drop_str (j + i) s.
Proof.
  revert s. induction j as [|j IH]; intros s; [reflexivity|].
  destruct s as [|c t]; [now destruct i|]. simpl. apply IH.
Qed.

Lemma drop_str_nil (k : nat) : Py.drop_str k "" = "".
Proof. now destruct k. Qed.

Variable r : re.
Variable repl : list (nat * string) -> string.

Hypothesis Hshrink : shrinking r repl.


Lemma length_sub_from (s : string) :
  forall pos skip, (skip <= String.length s)%nat ->
    (String.length (sub_from r repl pos s skip) + skip <= String.length s)%nat.
Proof.
  induction s as [|c t IH]; intros pos skip Hk.
  - simpl in Hk. assert (skip = 0%nat) as -> by lia. simpl.
    destruct (try_at r pos "") as [st|] eqn:E; [|simpl; lia].
    apply Hshrink in E as (H1 & H2 & _). simpl in H2. lia.
  - destruct skip as [|k]; simpl.
    + destruct (try_at r pos (String c t)) as [st|] eqn:E.
      * apply Hshrink in E as (H1 & H2 & H3). simpl in H2.
        destruct (m_pos st - pos)%nat as [|k] eqn:EL; [lia|].
        rewrite length_append_s. specialize (IH (S pos) k ltac:(lia)). lia.
      * simpl. specialize (IH (S pos) 0%nat ltac:(lia)). lia.
    + simpl in Hk. specialize (IH (S pos) k ltac:(lia)). lia.
Qed.

(** Where every match is replaced by its own text, nothing changes. *)
Lemma sub_from_same (s : string) :
  (forall j pos st, try_at r pos (Py.drop_str j s) = Some st ->
     repl (m_caps st) = Py.take_str (m_pos st - pos) (Py.drop_str j s)) ->
  forall pos skip, sub_from r repl pos s skip = Py.drop_str skip s.
Proof.
  induction s as [|c t IH]; intros Hs pos skip.
  - rewrite drop_str_nil. destruct skip; [|reflexivity]. simpl.
    destruct (try_at r pos "") as [st|] eqn:E; [|reflexivity].
    apply Hshrink in E as (H1 & H2 & _). simpl in H2. lia.
  - assert (Ht : forall j pos st, try_at r pos (Py.drop_str j t) = Some st ->
                 repl (m_caps st) = Py.take_str (m_pos st - pos) (Py.drop_str j t))
      by (intros j; apply (Hs (S j))).
    destruct skip as [|k]; simpl; [|now apply IH].
    destruct (try_at r pos (String c t)) as [st|] eqn:E.
    + rewrite (Hs 0%nat pos st E). apply Hshrink in E as (H1 & H2 & H3).
      destruct (m_pos st - pos)%nat as [|k] eqn:EL; [lia|].
      rewrite (IH Ht). cbn [Py.take_str Py.drop_str].
      now rewrite append_cons, take_drop_str.
    + now rewrite (IH Ht).
Qed.

(** Where some match is replaced by a shorter text, and no match of the
    same length as its replacement reaches over such a match, the result
    is shorter. *)
Lemma sub_from_shorter (s : string) :
  (forall j pos st, try_at r pos (Py.drop_str j s) = Some st ->
     String.length (repl (m_caps st)) = (m_pos st - pos)%nat ->
     forall i, (0 < i < m_pos st - pos)%nat -> ~ shortens r repl (Py.drop_str (j + i) s)) ->
  forall pos skip j, (skip <= j)%nat -> shortens r repl (Py.drop_str j s) ->
    (String.length (sub_from r repl pos s skip) + skip < String.length s)%nat.
Proof.
  induction s as [|c t IH]; intros Hs pos skip j Hj Hbad.
  - rewrite drop_str_nil in Hbad. destruct (Hbad 0%nat) as (st & E & Hlt).
    apply Hshrink in E as (H1 & H2 & _). simpl in H2. lia.
  - assert (Ht : forall j pos st, try_at r pos (Py.drop_str j t) = Some st ->
                 String.length (repl (m_caps st)) = (m_pos st - pos)%nat ->
                 forall i, (0 < i < m_pos st - pos)%nat ->
                 ~ shortens r repl (Py.drop_str (j + i) t))
      by (intros j'; apply (Hs (S j'))).
    destruct skip as [|k]; simpl.
    + destruct (try_at r pos (String c t)) as [st|] eqn:E.
      * pose proof (Hshrink _ _ _ E) as (H1 & H2 & H3). simpl in H2.
        destruct (m_pos st - pos)%nat as [|k] eqn:EL; [lia|].
        rewrite length_append_s.
        pose proof (length_sub_from t (S pos) k ltac:(lia)) as Hle.
        destruct (Nat.eq_dec (String.length (repl (m_caps st))) (S k)) as [En|Hn]; [|lia].
        destruct j as [|j].
        { destruct (Hbad pos) as (st' & E' & Hlt). simpl in E'.
          rewrite E in E'. injection E' as <-. lia. }
        destruct (Nat.lt_ge_cases j k) as [Hlt|Hge].
        { exfalso. apply (Hs 0%nat pos st E ltac:(lia) (S j) ltac:(lia)). exact Hbad. }
        specialize (IH Ht (S pos) k j Hge Hbad). lia.
      * destruct j as [|j].
        { destruct (Hbad pos) as (st' & E' & _). simpl in E'. congruence. }
        specialize (IH Ht (S pos) 0%nat j ltac:(lia) Hbad). simpl. lia.
    + destruct j as [|j]; [lia|].
      specialize (IH Ht (S pos) k j ltac:(lia) Hbad). lia.
Qed.

(** The characters of the result: those of the replacements, and those of
    the subject at which the pattern has no match. *)
Lemma sub_from_all_chars (q : ascii -> bool) (s : string) :
  (forall pos s' st, try_at r pos s' = Some st -> Py.all_chars q (repl (m_caps st)) = true) ->
  (forall j c t pos, Py.drop_str j s = String c t ->
     try_at r pos (String c t) = None -> q c = true) ->
  forall pos skip, Py.all_chars q (sub_from r repl pos s skip) = true.
Proof.
  intros Hr. induction s as [|c t IH]; intros Hs pos skip.
  - destruct skip; simpl; [|reflexivity].
    destruct (try_at r pos "") as [st|] eqn:E; [|reflexivity].
    apply Hshrink in E as (H1 & H2 & _). simpl in H2. lia.
  - assert (Ht : forall j c' t' pos, Py.drop_str j t = String c' t' ->
                 try_at r pos (String c' t') = None -> q c' = true)
      by (intros j'; apply (Hs (S j'))).
    destruct skip as [|k]; simpl; [|now apply IH].
    destruct (try_at r pos (String c t)) as [st|] eqn:E.
    + rewrite all_chars_app, (Hr _ _ _ E).
      apply Hshrink in E as (H1 & H2 & H3).
      destruct (m_pos st - pos)%nat as [|k] eqn:EL; [lia|]. now apply IH.
    + simpl. rewrite (Hs 0%nat c t pos eq_refl E). now apply IH.
Qed.

End Substitution.

(** ** The patterns of the normaliser *)

Section Patterns.
Import Re NameParser.

Lemma lang_lit_pos (u : string) (st st' : mstate) :
  lang (lit u) st st' ->
  m_rest st = u +:+ m_rest st' /\ m_pos st' = (m_pos st + String.length u)%nat /\
  m_caps st' = m_caps st.
Proof.
  revert st. induction u as [|c t IH]; intros st H; simpl in H.
  - subst. simpl. auto.
  - destruct H as (mid & (c' & Hr & Hc & ->) & Ht).
    apply IH in Ht as (E & P & C). simpl in E, P, C. apply Ascii.eqb_eq in Hc. subst c'.
    rewrite Hr, E, P, C. repeat split. simpl. lia.
Qed.

(** *** The trailing unit *)

Lemma trailing_unit_sound (pos : nat) (s : string) (st : mstate) :
  try_at trailing_unit_re pos s = Some st ->
  exists w1 u w2,
    s = w1 +:+ u +:+ w2 +:+ m_rest st /\
    Py.all_chars Py.is_space w1 = true /\ Py.all_chars Py.is_space w2 = true /\
    (u ∈ unit_words \/ u = Py.chr Py.dq) /\
    at_eol (m_rest st) = true /\
    m_pos st = (pos + String.length w1 + String.length u + String.length w2)%nat.
Proof.
  unfold try_at. intros H. apply run_sound in H as (st' & H & [= ->]).
  unfold trailing_unit_re in H. cbn [seqs] in H.
  destruct H as (s1 & H1 & s2 & (mid & Hg & ->) & s3 & H3 & He & ->).
  apply lang_star_class in H1 as (w1 & E1 & A1 & P1 & _).
  apply lang_star_class in H3 as (w2 & E3 & A3 & P3 & _).
  simpl in E1, P1, E3, P3.
  assert (G : exists u, (u ∈ unit_words \/ u = Py.chr Py.dq) /\
                        m_rest s1 = u +:+ m_rest mid /\
                        m_pos mid = (m_pos s1 + String.length u)%nat).
  { cbn [alts] in Hg. unfold unit_words.
    destruct Hg as [Hg|[Hg|[Hg|[Hg|[Hg|Hg]]]]].
    - apply lang_lit_pos in Hg as (E & P & _). exists "mm". split; [left; set_solver|auto].
    - destruct Hg as (m1 & Hl & [Ho|Ho]).
      + apply lang_lit_pos in Hl as (E & P & _).
        destruct Ho as (c & Hr & Hc & ->). apply Ascii.eqb_eq in Hc. subst c.
        exists "tons". split; [left; set_solver|]. simpl in *. rewrite E, Hr, P.
        split; [reflexivity|lia].
      + simpl in Ho. subst m1. apply lang_lit_pos in Hl as (E & P & _).
        exists "ton". split; [left; set_solver|auto].
    - destruct Hg as (m1 & Hl & [Ho|Ho]).
      + apply lang_lit_pos in Hl as (E & P & _).
        destruct Ho as (c & Hr & Hc & ->). apply Ascii.eqb_eq in Hc. subst c.
        exists "lbs". split; [left; set_solver|]. simpl in *. rewrite E, Hr, P.
        split; [reflexivity|lia].
      + simpl in Ho. subst m1. apply lang_lit_pos in Hl as (E & P & _).
        exists "lb". split; [left; set_solver|auto].
    - apply lang_lit_pos in Hg as (E & P & _). exists "in". split; [left; set_solver|auto].
    - apply lang_lit_pos in Hg as (E & P & _). exists "inches". split; [left; set_solver|auto].
    - destruct Hg as (c & Hr & Hc & ->). apply Ascii.eqb_eq in Hc. subst c.
      exists (Py.chr Py.dq). split; [now right|]. simpl. rewrite Hr. split; [reflexivity|lia]. }
  destruct G as (u & Hu & Eu & Pu).
  exists w1, u, w2. repeat split; try assumption.
  - rewrite E1, Eu. simpl in E3. rewrite E3. reflexivity.
  - simpl in P3. lia.
Qed.

Lemma unit_word_lang (u : string) (pos : nat) :
  u ∈ unit_words ->
  exists mid,
    lang (alts [lit "mm";
                Seq (lit "ton") (Opt (one "s"));
                Seq (lit "lb") (Opt (one "s"));
                lit "in";
                lit "inches";
                one Py.dq]) (MState pos u []) mid /\ m_rest mid = "".
Proof.
  assert (A : forall a b (st : mstate), m_rest st = a +:+ b ->
             lang (lit a) st (MState (m_pos st + String.length a) b (m_caps st)))
    by (intros a b st E; now apply lang_lit_intro).
  intros Hu. unfold unit_words in Hu. cbn [alts].
  repeat (apply elem_of_cons in Hu as [->|Hu]); [..|now apply elem_of_nil in Hu].
  - exists (MState (pos + 2) "" []). split; [|reflexivity].
    left. apply (A "mm" "" (MState pos "mm" []) eq_refl).
  - exists (MState (pos + 3) "" []). split; [|reflexivity].
    right. left. exists (MState (pos + 3) "" []). split.
    + apply (A "ton" "" (MState pos "ton" []) eq_refl).
    + right. reflexivity.
  - exists (MState (S (pos + 3)) "" []). split; [|reflexivity].
    right. left. exists (MState (pos + 3) "s" []). split.
    + apply (A "ton" "s" (MState pos "tons" []) eq_refl).
    + left. exists "s"%char. simpl. repeat split.
  - exists (MState (pos + 2) "" []). split; [|reflexivity].
    right. right. left. exists (MState (pos + 2) "" []). split.
    + apply (A "lb" "" (MState pos "lb" []) eq_refl).
    + right. reflexivity.
  - exists (MState (S (pos + 2)) "" []). split; [|reflexivity].
    right. right. left. exists (MState (pos + 2) "s" []). split.
    + apply (A "lb" "s" (MState pos "lbs" []) eq_refl).
    + left. exists "s"%char. simpl. repeat split.
  - exists (MState (pos + 2) "" []). split; [|reflexivity].
    right. right. right. left. apply (A "in" "" (MState pos "in" []) eq_refl).
  - exists (MState (pos + 6) "" []). split; [|reflexivity].
    right. right. right. right. left.
    apply (A "inches" "" (MState pos "inches" []) eq_refl).
Qed.

Lemma trailing_unit_complete (u : string) (pos : nat) :
  u ∈ unit_words -> is_Some (try_at trailing_unit_re pos u).
Proof.
  intros Hu. destruct (unit_word_lang u pos Hu) as (mid & L & E).
  unfold try_at.
  apply (run_complete trailing_unit_re eq_refl Some (MState pos u [])
           (capture 1 (MState pos u []) mid)); [|eauto].
  unfold trailing_unit_re. cbn [seqs].
  exists (MState pos u []). split; [apply rtc_refl|].
  exists (capture 1 (MState pos u []) mid). split; [exists mid; auto|].
  exists (capture 1 (MState pos u []) mid). split; [apply rtc_refl|].
  simpl. rewrite E. auto.
Qed.

(** *** A digit, white space, [mm] *)

Lemma digit_mm_sound (pos : nat) (s : string) (st : mstate) :
  try_at digit_mm_re pos s = Some st ->
  exists d w,
    s = String d (w +:+ "mm" +:+ m_rest st) /\
    Py.is_digit d = true /\ Py.all_chars Py.is_space w = true /\
    m_pos st = (pos + 3 + String.length w)%nat /\
    digit_mm_repl (m_caps st) = String d "mm".
Proof.
  unfold try_at. intros H. apply run_sound in H as (st' & H & [= ->]).
  unfold digit_mm_re in H. cbn [seqs] in H.
  destruct H as (s1 & (mid & (d & Hr & Hd & ->) & ->) & s2 & H2 & H3).
  apply lang_star_class in H2 as (w & E2 & A2 & P2 & C2).
  apply lang_lit_pos in H3 as (E3 & P3 & C3).
  simpl in Hr, E2, P2, C2. exists d, w. repeat split; try assumption.
  - rewrite Hr, E2, E3. reflexivity.
  - rewrite P3, P2. simpl. lia.
  - unfold digit_mm_repl. rewrite C3, C2. simpl.
    replace (S pos - pos)%nat with 1%nat by lia. now rewrite Hr.
Qed.

Lemma digit_mm_complete (d : ascii) (w rest : string) (pos : nat) :
  Py.is_digit d = true -> Py.all_chars Py.is_space w = true ->
  is_Some (try_at digit_mm_re pos (String d (w +:+ "mm" +:+ rest))).
Proof.
  intros Hd Hw. unfold try_at.
  set (st0 := MState pos (String d (w +:+ "mm" +:+ rest)) []).
  set (mid := advance st0 (w +:+ "mm" +:+ rest)).
  set (s1 := capture 1 st0 mid).
  set (s2 := MState (m_pos s1 + String.length w) ("mm" +:+ rest) (m_caps s1)).
  apply (run_complete digit_mm_re eq_refl Some st0
           (MState (m_pos s2 + String.length "mm") rest (m_caps s2))); [|eauto].
  unfold digit_mm_re. cbn [seqs].
  exists s1. split.
  { exists mid. split; [|reflexivity]. exists d. simpl. auto. }
  exists s2. split.
  { apply (lang_star_intro Py.is_space w ("mm" +:+ rest) Hw s1). reflexivity. }
  apply (lang_lit_intro "mm" rest s2). reflexivity.
Qed.

(** *** Runs of white space *)

Lemma spaces_sound (pos : nat) (s : string) (st : mstate) :
  try_at spaces_re pos s = Some st ->
  exists w, s = w +:+ m_rest st /\ w <> "" /\ Py.all_chars Py.is_space w = true /\
            m_pos st = (pos + String.length w)%nat.
Proof.
  unfold try_at. intros H. apply run_sound in H as (st' & H & [= ->]).
  apply lang_plus_class in H as (w & E & A & N & P & _). simpl in E, P. eauto 6.
Qed.

(** At a white-space character the pattern matches the whole run. *)
Lemma spaces_at_space (pos : nat) (c : ascii) (t : string) :
  Py.is_space c = true ->
  exists rest,
    t = Py.take_while Py.is_space t +:+ rest /\
    try_at spaces_re pos (String c t)
    = Some (MState (S pos + String.length (Py.take_while Py.is_space t)) rest []).
Proof.
  intros Hc. destruct (take_while_split Py.is_space t) as (rest & E & Hall & Hr).
  exists rest. split; [exact E|]. unfold try_at, spaces_re, Plus, ws.
  change (run (Seq (Chr Py.is_space) (Star (Chr Py.is_space))) Some
            (MState pos (String c t) []))
    with (run (Chr Py.is_space) (run (Star (Chr Py.is_space)) (fun st' => Some st'))
            (MState pos (String c t) [])).
  rewrite run_chr. cbn [m_rest]. rewrite Hc. unfold advance. cbn [m_pos m_caps].
  generalize dependent (Py.take_while Py.is_space t). intros d E Hall. subst t.
  apply (star_class_greedy Py.is_space (fun st => st) d rest Hall Hr).
Qed.

Lemma spaces_none (pos : nat) (c : ascii) (t : string) :
  try_at spaces_re pos (String c t) = None -> Py.is_space c = false.
Proof.
  intros H. destruct (Py.is_space c) eqn:E; [|reflexivity].
  destruct (spaces_at_space pos c t E) as (rest & _ & H'). congruence.
Qed.

End Patterns.

(** ** Tidy texts and the normaliser *)

Section Tidy.
Import Re NameParser.

Lemma append_nil_r (s : string) : s +:+ "" = s.
Proof. induction s as [|c s IH]; [reflexivity|]. rewrite append_cons. now rewrite IH. Qed.

Lemma all_chars_drop (q : ascii -> bool) (j : nat) (s : string) :
  Py.all_chars q s = true -> Py.all_chars q (Py.drop_str j s) = true.
Proof.
  revert s. induction j as [|j IH]; intros s H; [now destruct s|].
  destruct s as [|c t]; [reflexivity|]. simpl in *. apply andb_prop in H as [_ H]. now apply IH.
Qed.

Lemma drop_str_suffix (j : nat) (s : string) : exists pre, s = pre +:+ Py.drop_str j s.
Proof. exists (Py.take_str j s). now rewrite take_drop_str. Qed.

Lemma all_chars_in (q : ascii -> bool) (pre post : string) (c : ascii) (s : string) :
  Py.all_chars q s = true -> s = pre +:+ String c post -> q c = true.
Proof.
  intros H ->. rewrite all_chars_app in H. apply andb_prop in H as [_ H].
  simpl in H. now apply andb_prop in H as [H _].
Qed.

Lemma last_char (w : string) : w <> "" -> exists a c, w = a +:+ String c "".
Proof.
  induction w as [|x w IH]; [congruence|]. intros _. destruct w as [|y w].
  - exists "", x. reflexivity.
  - destruct (IH ltac:(discriminate)) as (a & c & E). exists (String x a), c.
    rewrite append_cons. now rewrite E.
Qed.

Lemma tidy_space (c : ascii) : tidy_char c = true -> Py.is_space c = true -> c = " "%char.
Proof.
  unfold tidy_char. intros H Hs. rewrite Hs in H. simpl in H.
  rewrite !andb_true_iff in H. destruct H as (_ & H). now apply Ascii.eqb_eq.
Qed.

Lemma digit_space_mm_app (pre rest : string) (d : ascii) :
  Py.is_digit d = true -> digit_space_mm (pre +:+ String d (" mm" +:+ rest)) = true.
Proof.
  intros Hd. induction pre as [|c pre IH].
  - rewrite append_nil. cbn [digit_space_mm]. rewrite Hd.
    assert (Py.starts_with " mm" (" mm" +:+ rest) = true) as ->
      by (apply starts_with_iff; eauto). reflexivity.
  - rewrite append_cons. cbn [digit_space_mm]. rewrite IH. apply orb_true_r.
Qed.

Lemma digit_space_mm_split (s : string) :
  digit_space_mm s = true ->
  exists j d rest, Py.drop_str j s = String d (" mm" +:+ rest) /\ Py.is_digit d = true.
Proof.
  induction s as [|c t IH]; [discriminate|]. cbn [digit_space_mm].
  intros [[Hd [rest ->]%starts_with_iff]%andb_prop|H]%orb_prop.
  - exists 0%nat, c, rest. auto.
  - destruct (IH H) as (j & d & rest & E & Hd). exists (S j), d, rest. auto.
Qed.

Lemma contains_split (sub s : string) :
  Py.contains sub s = true -> exists j rest, Py.drop_str j s = sub +:+ rest.
Proof.
  induction s as [|c t IH]; cbn [Py.contains].
  - rewrite orb_false_r. intros [rest E]%starts_with_iff. exists 0%nat, rest. exact E.
  - intros [[rest E]%starts_with_iff|H]%orb_prop.
    + exists 0%nat, rest. exact E.
    + destruct (IH H) as (j & rest & E). exists (S j), rest. exact E.
Qed.

(** The three patterns of the normaliser shrink the text. *)
Lemma trailing_shrinking : shrinking trailing_unit_re (fun _ => "").
Proof.
  intros pos s st H. apply trailing_unit_sound in H as (w1 & u & w2 & E & _ & _ & Hu & _ & P).
  assert (1 <= String.length u)%nat.
  { destruct Hu as [Hu| ->]; [|simpl; lia]. unfold unit_words in Hu.
    repeat (apply elem_of_cons in Hu as [->|Hu]); simpl; try lia. now apply elem_of_nil in Hu. }
  rewrite E, !length_append_s. simpl. lia.
Qed.

Lemma digit_mm_shrinking : shrinking digit_mm_re digit_mm_repl.
Proof.
  intros pos s st H. apply digit_mm_sound in H as (d & w & E & _ & _ & P & R).
  rewrite R, E. simpl. rewrite !length_append_s. simpl. lia.
Qed.

Lemma spaces_shrinking : shrinking spaces_re (fun _ => " ").
Proof.
  intros pos s st H. apply spaces_sound in H as (w & E & N & _ & P).
  rewrite E, length_append_s. destruct w; [congruence|]. simpl in *. lia.
Qed.

(** *** A tidy text is left as it is *)

Section Keeps.
Variable n : string.
Hypothesis Hc : Py.all_chars tidy_char n = true.

Lemma tidy_suffix_char (j : nat) (c : ascii) (t : string) :
  Py.drop_str j n = String c t -> tidy_char c = true.
Proof.
  intros E. pose proof (all_chars_drop _ j _ Hc) as H. rewrite E in H. simpl in H.
  now apply andb_prop in H as [H _].
Qed.

Lemma tidy_ends_char (c : ascii) :
  Py.ends_with (Py.chr c) n = true -> tidy_char c = true.
Proof.
  intros [pre E]%ends_with_app. apply (all_chars_in _ pre "" c n Hc E).
Qed.

Lemma trailing_keeps :
  Py.ends_with " " n = false ->
  forallb (fun u => negb (Py.ends_with u n)) unit_words = true ->
  sub trailing_unit_re (fun _ => "") n = n.
Proof.
  intros Hs Hu. unfold sub.
  rewrite (sub_from_same _ _ trailing_shrinking n); [reflexivity|].
  intros j pos st H. exfalso.
  apply trailing_unit_sound in H as (w1 & u & w2 & E & _ & A2 & Hin & He & _).
  destruct (drop_str_suffix j n) as [pre En]. rewrite E in En.
  assert (Hr : m_rest st = "").
  { destruct (m_rest st) as [|x [|y r]] eqn:Er; [reflexivity| |discriminate He].
    simpl in He. apply Ascii.eqb_eq in He. subst x.
    assert (T : tidy_char "010"%char = true).
    { apply (all_chars_in _ (pre +:+ w1 +:+ u +:+ w2) "" _ n Hc).
      rewrite En, !append_assoc_s. reflexivity. }
    discriminate T. }
  rewrite Hr in En.
  assert (Hw : w2 = "").
  { destruct (string_dec w2 "") as [|Hn]; [assumption|].
    destruct (last_char w2 Hn) as (a & c & ->).
    rewrite all_chars_app in A2. apply andb_prop in A2 as [_ A2]. simpl in A2.
    rewrite andb_true_r in A2.
    assert (Hend : Py.ends_with (Py.chr c) n = true).
    { apply ends_with_app. exists (pre +:+ w1 +:+ u +:+ a).
      rewrite En, !append_assoc_s. unfold Py.chr. reflexivity. }
    pose proof (tidy_space c (tidy_ends_char c Hend) A2) as ->.
    unfold Py.chr in Hend. congruence. }
  subst w2. rewrite !append_nil, ?append_assoc_s in En.
  assert (Hend : Py.ends_with u n = true).
  { apply ends_with_app. exists (pre +:+ w1). rewrite En.
    rewrite append_nil_r. now rewrite append_assoc_s. }
  destruct Hin as [Hin| ->].
  - rewrite forallb_forall in Hu. specialize (Hu u ltac:(now apply list_elem_of_In)).
    rewrite Hend in Hu. discriminate Hu.
  - apply tidy_ends_char in Hend. discriminate Hend.
Qed.

Lemma digit_mm_keeps :
  Py.contains "  " n = false -> digit_space_mm n = false ->
  sub digit_mm_re digit_mm_repl n = n.
Proof.
  intros Hd Hm. unfold sub.
  rewrite (sub_from_same _ _ digit_mm_shrinking n); [reflexivity|].
  intros j pos st H.
  apply digit_mm_sound in H as (d & w & E & Dd & A & P & R). rewrite R, P, E.
  destruct (drop_str_suffix j n) as [pre En]. rewrite E in En.
  destruct w as [|c w].
  - replace (pos + 3 + String.length "" - pos)%nat with 3%nat by (simpl; lia). reflexivity.
  - exfalso. simpl in A. apply andb_prop in A as [Ac A].
    assert (c = " "%char) as ->.
    { apply tidy_space; [|exact Ac].
      apply (all_chars_in _ (pre +:+ String d "") (w +:+ "mm" +:+ m_rest st) c n Hc).
      rewrite En, append_assoc_s. reflexivity. }
    destruct w as [|c' w].
    + assert (digit_space_mm n = true); [|congruence].
      rewrite En. apply (digit_space_mm_app pre (m_rest st) d Dd).
    + simpl in A. apply andb_prop in A as [Ac' _].
      assert (c' = " "%char) as ->.
      { apply tidy_space; [|exact Ac'].
        apply (all_chars_in _ (pre +:+ String d " ") (w +:+ "mm" +:+ m_rest st) c' n Hc).
        rewrite En, append_assoc_s. reflexivity. }
      assert (Py.contains "  " n = true); [|congruence].
      apply contains_app. exists (pre +:+ String d ""), (w +:+ "mm" +:+ m_rest st).
      rewrite En, !append_assoc_s. reflexivity.
Qed.

Lemma spaces_keeps :
  Py.contains "  " n = false -> sub spaces_re (fun _ => " ") n = n.
Proof.
  intros Hd. unfold sub.
  rewrite (sub_from_same _ _ spaces_shrinking n); [reflexivity|].
  intros j pos st H.
  apply spaces_sound in H as (w & E & N & A & P). rewrite P, E.
  destruct (drop_str_suffix j n) as [pre En]. rewrite E in En.
  destruct w as [|c w]; [congruence|]. simpl in A. apply andb_prop in A as [Ac A].
  assert (c = " "%char) as ->.
  { apply tidy_space; [|exact Ac].
    apply (all_chars_in _ pre (w +:+ m_rest st) c n Hc). rewrite En. reflexivity. }
  destruct w as [|c' w].
  - replace (pos + String.length " " - pos)%nat with 1%nat by (simpl; lia). reflexivity.
  - exfalso. simpl in A. apply andb_prop in A as [Ac' _].
    assert (c' = " "%char) as ->.
    { apply tidy_space; [|exact Ac'].
      apply (all_chars_in _ (pre +:+ " ") (w +:+ m_rest st) c' n Hc).
      rewrite En, append_assoc_s. reflexivity. }
    assert (Py.contains "  " n = true); [|congruence].
    apply contains_app. exists pre, (w +:+ m_rest st). rewrite En. reflexivity.
Qed.

End Keeps.

End Tidy.

(** *** A tidy text is a fixed point *)

Section Fixed.
Import Re NameParser.

Lemma tidy_parts (n : string) :
  tidy n = true ->
  Py.all_chars tidy_char n = true /\
  forallb (fun g => negb (Py.contains g n)) mapped_glyphs = true /\
  Py.starts_with " " n = false /\ Py.ends_with " " n = false /\
  Py.contains "  " n = false /\
  forallb (fun u => negb (Py.ends_with u n)) unit_words = true /\
  digit_space_mm n = false /\ Py.ends_with "/" n = false.
Proof.
  unfold tidy. rewrite !andb_true_iff, !negb_true_iff. tauto.
Qed.

Lemma tidy_char_parts (n : string) :
  Py.all_chars tidy_char n = true ->
  Py.all_chars (fun c => negb (Py.is_upper c)) n = true /\
  Py.contains (Py.chr Py.comma) n = false /\
  Py.contains (Py.chr Py.dq) n = false /\
  Py.contains (Py.chr Py.sq) n = false.
Proof.
  intros H. repeat split.
  - revert H. apply all_chars_impl. unfold tidy_char. intros c.
    rewrite !andb_true_iff. tauto.
  - apply negb_true_iff. rewrite <- all_chars_absent. revert H. apply all_chars_impl.
    unfold tidy_char. intros c. rewrite !andb_true_iff. tauto.
  - apply negb_true_iff. rewrite <- all_chars_absent. revert H. apply all_chars_impl.
    unfold tidy_char. intros c. rewrite !andb_true_iff. tauto.
  - apply negb_true_iff. rewrite <- all_chars_absent. revert H. apply all_chars_impl.
    unfold tidy_char. intros c. rewrite !andb_true_iff. tauto.
Qed.

Lemma strip_keeps (n : string) :
  Py.all_chars tidy_char n = true ->
  Py.starts_with " " n = false -> Py.ends_with " " n = false -> Py.strip n = n.
Proof.
  intros Hc Hs He. unfold Py.strip.
  assert (E1 : Py.lstrip_with Py.is_space n = n).
  { apply lstrip_id. intros c t ->. destruct (Py.is_space c) eqn:E; [|reflexivity].
    simpl in Hc. apply andb_prop in Hc as [Hc _].
    pose proof (tidy_space c Hc E) as ->. simpl in Hs. discriminate Hs. }
  rewrite E1. apply rstrip_id. intros c Hend.
  destruct (Py.is_space c) eqn:E; [|reflexivity].
  pose proof (tidy_space c (tidy_ends_char n Hc c Hend) E) as ->.
  unfold Py.chr in Hend. congruence.
Qed.

(** A tidy text is a fixed point of the normaliser. *)
Lemma tidy_fixed (n : string) : tidy n = true -> _normalize_value n = n.
Proof.
  intros H. apply tidy_parts in H as (Hc & Hg & Hs & He & Hd & Hu & Hm & Hsl).
  destruct (tidy_char_parts n Hc) as (Hup & Hcomma & Hdq & Hsq).
  unfold _normalize_value. destruct n as [|c0 n0] eqn:En; [reflexivity|]. rewrite <- En in *.
  replace (Py.truthy n) with true by now rewrite En. cbn [negb].
  rewrite (strip_keeps n Hc Hs He), (lower_id n Hup).
  unfold mapped_glyphs in Hg. cbn [forallb] in Hg.
  rewrite !andb_true_iff, !negb_true_iff in Hg.
  destruct Hg as (G1 & G2 & G3 & G4 & G5 & G6 & G7 & G8 & _).
  rewrite (replace_absent Py.u201c _ n G1), (replace_absent Py.u201d _ n G2),
    (replace_absent Py.u2033 _ n G3), (replace_absent Py.u2018 _ n G4),
    (replace_absent Py.u2019 _ n G5), (replace_absent Py.u2032 _ n G6),
    (replace_absent Py.u2013 _ n G7), (replace_absent Py.u2014 _ n G8).
  rewrite (trailing_keeps n Hc He Hu), (digit_mm_keeps n Hc Hd Hm), (spaces_keeps n Hc Hd).
  rewrite replace_pair_absent by exact Hcomma.
  unfold Py.chr. rewrite !replace_chr_empty.
  rewrite (remove_char_id ","%char n Hcomma), (remove_char_id Py.dq n Hdq),
    (remove_char_id Py.sq n Hsq).
  unfold Py.rstrip_char. apply rstrip_id. intros c Hend.
  destruct (Ascii.eqb_spec Py.slash c) as [<-|]; [|reflexivity].
  unfold Py.chr, Py.slash in Hend. congruence.
Qed.

End Fixed.

(** *** The characters of a normal form *)

Section Range.
Import Re NameParser.

Lemma all_chars_andb (p q : ascii -> bool) (s : string) :
  Py.all_chars (fun c => p c && q c) s = Py.all_chars p s && Py.all_chars q s.
Proof.
  induction s as [|c t IH]; [reflexivity|]. simpl. rewrite IH.
  destruct (p c), (q c), (Py.all_chars p t); reflexivity.
Qed.

Lemma sub_keeps_chars (q : ascii -> bool) (r : re) (repl : list (nat * string) -> string) :
  shrinking r repl ->
  (forall pos s st, try_at r pos s = Some st -> Py.all_chars q (repl (m_caps st)) = true) ->
  forall s, Py.all_chars q s = true -> Py.all_chars q (sub r repl s) = true.
Proof.
  intros Hs Hr s Hq. unfold sub. apply (sub_from_all_chars r repl Hs q s Hr).
  intros j c t pos E _. pose proof (all_chars_drop q j s Hq) as H. rewrite E in H.
  simpl in H. now apply andb_prop in H as [H _].
Qed.

Lemma digit_not_upper (d : ascii) : Py.is_digit d = true -> Py.is_upper d = false.
Proof.
  unfold Py.is_digit, Py.is_upper, Py.in_range. intros [H1 H2]%andb_prop.
  apply Nat.leb_le in H2. apply andb_false_iff. left. apply Nat.leb_gt. lia.
Qed.

Lemma front_not_upper (s : string) : Py.all_chars not_upper (normalize_front s) = true.
Proof.
  unfold normalize_front.
  apply (sub_keeps_chars _ _ _ spaces_shrinking); [reflexivity|].
  apply (sub_keeps_chars _ _ _ digit_mm_shrinking).
  { intros pos s' st H. apply digit_mm_sound in H as (d & w & _ & Hd & _ & _ & ->).
    simpl. unfold not_upper at 1. now rewrite (digit_not_upper d Hd). }
  apply (sub_keeps_chars _ _ _ trailing_shrinking); [reflexivity|].
  unfold Py.replace. repeat (apply replace_all_chars; [reflexivity|]).
  apply lower_not_upper.
Qed.

Lemma front_space_or_not (s : string) : Py.all_chars space_or_not (normalize_front s) = true.
Proof.
  unfold normalize_front, sub.
  apply (sub_from_all_chars _ _ spaces_shrinking); [reflexivity|].
  intros j c t pos _ H. unfold space_or_not. now rewrite (spaces_none pos c t H).
Qed.

Lemma back_keeps_chars (q : ascii -> bool) (s : string) :
  q ","%char = true ->
  Py.all_chars q s = true -> Py.all_chars q (normalize_back s) = true.
Proof.
  intros Hq H. unfold normalize_back, Py.rstrip_char. apply rstrip_all_chars.
  unfold Py.replace. repeat (apply replace_all_chars; [reflexivity|]).
  apply replace_all_chars; [simpl; now rewrite Hq|exact H].
Qed.

(** Every normal form is made of the characters of a tidy text. *)
Lemma normalize_tidy_chars (s : string) :
  Py.all_chars tidy_char (_normalize_value s) = true.
Proof.
  assert (E : forall c, tidy_char c =
            (not_upper c && space_or_not c)
            && (negb (Ascii.eqb Py.comma c) && (negb (Ascii.eqb Py.dq c)
                && negb (Ascii.eqb Py.sq c)))).
  { intros c. unfold tidy_char, not_upper, space_or_not.
    destruct (Py.is_upper c), (Ascii.eqb Py.comma c), (Ascii.eqb Py.dq c),
      (Ascii.eqb Py.sq c), (negb (Py.is_space c) || Ascii.eqb c " "); reflexivity. }
  rewrite (all_chars_impl _ tidy_char _ (fun c H => eq_trans (E c) H)); [reflexivity|].
  rewrite !all_chars_andb, !all_chars_absent, !normalize_no_char by auto.
  rewrite normalize_phases.
  rewrite (back_keeps_chars not_upper _ eq_refl (front_not_upper s)).
  now rewrite (back_keeps_chars space_or_not _ eq_refl (front_space_or_not s)).
Qed.

End Range.

(** *** What a step that keeps the length tells *)

Section Converse.
Import Re NameParser.

Lemma length_sub (r : re) (repl : list (nat * string) -> string) (s : string) :
  shrinking r repl -> (String.length (sub r repl s) <= String.length s)%nat.
Proof.
  intros H. unfold sub. pose proof (length_sub_from r repl H s 0 0 ltac:(lia)). lia.
Qed.

Lemma drop_str_at (pre suf : string) : Py.drop_str (String.length pre) (pre +:+ suf) = suf.
Proof. apply drop_str_app. Qed.

(** A text that ends with a unit word loses it. *)
Lemma trailing_same_length (n : string) :
  String.length (sub trailing_unit_re (fun _ => "") n) = String.length n ->
  forallb (fun u => negb (Py.ends_with u n)) unit_words = true.
Proof.
  intros H. apply forallb_forall. intros u Hu%list_elem_of_In.
  apply negb_true_iff. destruct (Py.ends_with u n) eqn:E; [|reflexivity]. exfalso.
  apply ends_with_app in E as [pre ->].
  assert (S : (String.length (sub trailing_unit_re (fun _ => "") (pre +:+ u)) + 0
               < String.length (pre +:+ u))%nat); [|lia].
  unfold sub. apply (sub_from_shorter _ _ trailing_shrinking _) with (j := String.length pre).
  - intros j pos st Hm Hl. apply trailing_shrinking in Hm as (H1 & _). simpl in Hl. lia.
  - lia.
  - rewrite drop_str_at. intros pos.
    destruct (trailing_unit_complete u pos Hu) as [st Hst]. exists st. split; [exact Hst|].
    apply trailing_shrinking in Hst as (H1 & _). simpl. lia.
Qed.

(** A text in which white space stands between a digit and [mm] loses it. *)
Lemma digit_mm_same_length (n : string) :
  String.length (sub digit_mm_re digit_mm_repl n) = String.length n ->
  forall j d w rest,
    Py.drop_str j n = String d (w +:+ "mm" +:+ rest) ->
    Py.is_digit d = true -> Py.all_chars Py.is_space w = true -> w = "".
Proof.
  intros H j d w rest E Hd Hw. destruct w as [|c w]; [reflexivity|]. exfalso.
  simpl in Hw. apply andb_prop in Hw as [Hc Hw].
  assert (S : (String.length (sub digit_mm_re digit_mm_repl n) + 0 < String.length n)%nat);
    [|lia].
  unfold sub. apply (sub_from_shorter _ _ digit_mm_shrinking _) with (j := j).
  - intros j' pos st Hm Hl i Hi Hbad.
    apply digit_mm_sound in Hm as (d' & w' & E' & _ & _ & P' & R').
    rewrite R' in Hl. simpl in Hl.
    assert (w' = "") as -> by (destruct w'; [reflexivity|simpl in *; lia]).
    destruct (Hbad 0%nat) as (st' & Hm' & _).
    apply digit_mm_sound in Hm' as (d'' & w'' & E'' & Hd'' & _).
    rewrite <- drop_str_drop, E' in E''.
    assert (i = 1 \/ i = 2)%nat as [-> | ->] by lia; simpl in E''; injection E'' as <- _;
      vm_compute in Hd''; discriminate Hd''.
  - lia.
  - rewrite E. intros pos.
    destruct (digit_mm_complete d (String c w) rest pos Hd) as [st Hst];
      [simpl; now rewrite Hc, Hw|].
    exists st. split; [exact Hst|].
    apply digit_mm_sound in Hst as (d' & w' & E' & _ & Hw' & P' & ->).
    rewrite P'. destruct w' as [|c' w'].
    + rewrite append_cons in E'. simpl in E'. injection E' as _ -> _.
      vm_compute in Hc. discriminate Hc.
    + simpl. lia.
Qed.

(** A text with two white-space characters in a row loses one. *)
Lemma spaces_same_length (n : string) :
  String.length (sub spaces_re (fun _ => " ") n) = String.length n ->
  Py.contains "  " n = false.
Proof.
  intros H. destruct (Py.contains "  " n) eqn:E; [|reflexivity]. exfalso.
  apply contains_split in E as (j & rest & E).
  assert (S : (String.length (sub spaces_re (fun _ => " ") n) + 0 < String.length n)%nat);
    [|lia].
  unfold sub. apply (sub_from_shorter _ _ spaces_shrinking _) with (j := j).
  - intros j' pos st Hm Hl i Hi. simpl in Hl. lia.
  - lia.
  - rewrite E. intros pos.
    destruct (spaces_at_space pos " " (String " " rest) eq_refl) as (rest' & _ & Hst).
    eexists. split; [exact Hst|]. simpl. lia.
Qed.

End Converse.

(** *** The fixed points of the normaliser *)

Section FixedPoints.
Import Re NameParser.

(** A fixed point of the normaliser is tidy. *)
Lemma fixed_tidy (n : string) : _normalize_value n = n -> tidy n = true.
Proof.
  intros Hfix.
  pose proof (normalize_tidy_chars n) as Hc. rewrite Hfix in Hc.
  destruct (tidy_char_parts n Hc) as (Hup & Hcomma & Hdq & Hsq).
  destruct n as [|c0 n0] eqn:En; [reflexivity|]. rewrite <- En in *.
  unfold _normalize_value in Hfix.
  replace (Py.truthy n) with true in Hfix by now rewrite En. cbn [negb] in Hfix.
  unfold Py.rstrip_char in Hfix.
  (* the lengths along the pipeline *)
  set (a := Py.strip n) in *. set (b := Py.lower a) in *.
  set (c1 := Py.replace Py.u201c (Py.chr Py.dq) b) in *.
  set (c2 := Py.replace Py.u201d (Py.chr Py.dq) c1) in *.
  set (c3 := Py.replace Py.u2033 (Py.chr Py.dq) c2) in *.
  set (c4 := Py.replace Py.u2018 (Py.chr Py.sq) c3) in *.
  set (c5 := Py.replace Py.u2019 (Py.chr Py.sq) c4) in *.
  set (c6 := Py.replace Py.u2032 (Py.chr Py.sq) c5) in *.
  set (c7 := Py.replace Py.u2013 "-" c6) in *.
  set (c8 := Py.replace Py.u2014 "-" c7) in *.
  set (d := sub trailing_unit_re (fun _ => "") c8) in *.
  set (e := sub digit_mm_re digit_mm_repl d) in *.
  set (f := sub spaces_re (fun _ => " ") e) in *.
  set (g := Py.replace (String Py.bs ",") "," f) in *.
  set (h1 := Py.replace "," "" g) in *.
  set (h2 := Py.replace (Py.chr Py.dq) "" h1) in *.
  set (h3 := Py.replace (Py.chr Py.sq) "" h2) in *.
  pose proof (length_strip n) as La. fold a in La.
  pose proof (length_lower a) as Lb. fold b in Lb.
  pose proof (length_replace Py.u201c (Py.chr Py.dq) b ltac:(simpl; lia) ltac:(simpl; lia)) as L1.
  pose proof (length_replace Py.u201d (Py.chr Py.dq) c1 ltac:(simpl; lia) ltac:(simpl; lia)) as L2.
  pose proof (length_replace Py.u2033 (Py.chr Py.dq) c2 ltac:(simpl; lia) ltac:(simpl; lia)) as L3.
  pose proof (length_replace Py.u2018 (Py.chr Py.sq) c3 ltac:(simpl; lia) ltac:(simpl; lia)) as L4.
  pose proof (length_replace Py.u2019 (Py.chr Py.sq) c4 ltac:(simpl; lia) ltac:(simpl; lia)) as L5.
  pose proof (length_replace Py.u2032 (Py.chr Py.sq) c5 ltac:(simpl; lia) ltac:(simpl; lia)) as L6.
  pose proof (length_replace Py.u2013 "-" c6 ltac:(simpl; lia) ltac:(simpl; lia)) as L7.
  pose proof (length_replace Py.u2014 "-" c7 ltac:(simpl; lia) ltac:(simpl; lia)) as L8.
  pose proof (length_sub _ _ c8 trailing_shrinking) as Ld.
  pose proof (length_sub _ _ d digit_mm_shrinking) as Le.
  pose proof (length_sub _ _ e spaces_shrinking) as Lf.
  pose proof (length_replace (String Py.bs ",") "," f ltac:(simpl; lia) ltac:(simpl; lia)) as Lg.
  pose proof (length_replace "," "" g ltac:(simpl; lia) ltac:(simpl; lia)) as Lh1.
  pose proof (length_replace (Py.chr Py.dq) "" h1 ltac:(simpl; lia) ltac:(simpl; lia)) as Lh2.
  pose proof (length_replace (Py.chr Py.sq) "" h2 ltac:(simpl; lia) ltac:(simpl; lia)) as Lh3.
  pose proof (length_rstrip (Ascii.eqb Py.slash) h3) as Lz.
  fold c1 in L1. fold c2 in L2. fold c3 in L3. fold c4 in L4. fold c5 in L5.
  fold c6 in L6. fold c7 in L7. fold c8 in L8. fold d in Ld. fold e in Le. fold f in Lf.
  fold g in Lg. fold h1 in Lh1. fold h2 in Lh2. fold h3 in Lh3.
  pose proof (f_equal String.length Hfix) as Lfix.
  (* the steps, one after the other *)
  destruct (strip_same_length n ltac:(fold a; lia)) as (Ea & El & Er). fold a in Ea.
  assert (Eb : b = n) by (unfold b; rewrite Ea; now apply lower_id).
  destruct (replace_same_length Py.u201c (Py.chr Py.dq) b ltac:(simpl; lia)
              ltac:(fold c1; lia)) as [G1 E1]. fold c1 in E1. rewrite Eb in G1, E1.
  destruct (replace_same_length Py.u201d (Py.chr Py.dq) c1 ltac:(simpl; lia)
              ltac:(fold c2; lia)) as [G2 E2]. fold c2 in E2. rewrite E1 in G2, E2.
  destruct (replace_same_length Py.u2033 (Py.chr Py.dq) c2 ltac:(simpl; lia)
              ltac:(fold c3; lia)) as [G3 E3]. fold c3 in E3. rewrite E2 in G3, E3.
  destruct (replace_same_length Py.u2018 (Py.chr Py.sq) c3 ltac:(simpl; lia)
              ltac:(fold c4; lia)) as [G4 E4]. fold c4 in E4. rewrite E3 in G4, E4.
  destruct (replace_same_length Py.u2019 (Py.chr Py.sq) c4 ltac:(simpl; lia)
              ltac:(fold c5; lia)) as [G5 E5]. fold c5 in E5. rewrite E4 in G5, E5.
  destruct (replace_same_length Py.u2032 (Py.chr Py.sq) c5 ltac:(simpl; lia)
              ltac:(fold c6; lia)) as [G6 E6]. fold c6 in E6. rewrite E5 in G6, E6.
  destruct (replace_same_length Py.u2013 "-" c6 ltac:(simpl; lia)
              ltac:(fold c7; lia)) as [G7 E7]. fold c7 in E7. rewrite E6 in G7, E7.
  destruct (replace_same_length Py.u2014 "-" c7 ltac:(simpl; lia)
              ltac:(fold c8; lia)) as [G8 E8]. fold c8 in E8. rewrite E7 in G8, E8.
  assert (He : Py.ends_with " " n = false).
  { destruct (Py.ends_with " " n) eqn:E; [|reflexivity].
    apply (proj1 (rstrip_id Py.is_space n) Er " "%char) in E. discriminate E. }
  assert (Hs : Py.starts_with " " n = false).
  { destruct (Py.starts_with " " n) eqn:E; [|reflexivity].
    apply starts_with_iff in E as [rest E].
    apply (proj1 (lstrip_id Py.is_space n) El " "%char rest) in E. discriminate E. }
  assert (Hu : forallb (fun u => negb (Py.ends_with u n)) unit_words = true).
  { apply trailing_same_length. rewrite <- E8. fold d. lia. }
  assert (Ed : d = n) by (unfold d; rewrite E8; now apply trailing_keeps).
  assert (Hw : forall j x w rest, Py.drop_str j n = String x (w +:+ "mm" +:+ rest) ->
                 Py.is_digit x = true -> Py.all_chars Py.is_space w = true -> w = "").
  { apply digit_mm_same_length. rewrite <- Ed. fold e. lia. }
  assert (Hm : digit_space_mm n = false).
  { destruct (digit_space_mm n) eqn:E; [|reflexivity].
    apply digit_space_mm_split in E as (j & x & rest & E & Hx).
    discriminate (Hw j x " " rest E Hx eq_refl). }
  assert (Ee : e = n).
  { unfold e. rewrite Ed. unfold sub.
    rewrite (sub_from_same _ _ digit_mm_shrinking n); [reflexivity|].
    intros j pos st H. pose proof H as H'.
    apply digit_mm_sound in H as (x & w & E & Hx & Hws & P & R).
    assert (w = "") as -> by exact (Hw j x w (m_rest st) E Hx Hws). rewrite R, P, E.
    replace (pos + 3 + String.length "" - pos)%nat with 3%nat by (simpl; lia). reflexivity. }
  assert (Hd : Py.contains "  " n = false).
  { apply spaces_same_length. rewrite <- Ee. fold f. lia. }
  assert (Ef : f = n) by (unfold f; rewrite Ee; now apply spaces_keeps).
  assert (Eg : g = n) by (unfold g; rewrite Ef; now apply replace_pair_absent).
  assert (Eh : h3 = n).
  { unfold h3, h2, h1. rewrite Eg. unfold Py.chr. rewrite !replace_chr_empty.
    now rewrite (remove_char_id ","%char n Hcomma), (remove_char_id Py.dq n Hdq),
      (remove_char_id Py.sq n Hsq). }
  rewrite Eh in Hfix.
  assert (Hsl : Py.ends_with "/" n = false).
  { destruct (Py.ends_with "/" n) eqn:E; [|reflexivity].
    apply (proj1 (rstrip_id (Ascii.eqb Py.slash) n) Hfix "/"%char) in E. discriminate E. }
  unfold tidy. rewrite Hc, Hs, He, Hd, Hu, Hm, Hsl.
  unfold mapped_glyphs. cbn [forallb]. now rewrite G1, G2, G3, G4, G5, G6, G7, G8.
Qed.

(** The fixed points of the normaliser are the tidy texts. *)
Lemma fixed_iff_tidy (n : string) : _normalize_value n = n <-> tidy n = true.
Proof. split; [apply fixed_tidy|apply tidy_fixed]. Qed.



End FixedPoints.
